(** * VoiceLab: the mood effect chain and the TTS engine life cycle

    A shallow embedding of [backend/audio_processing.py],
    [backend/tts_engine.py], [backend/voice_bank.py] and the request
    handlers of [backend/main.py].

    Numbers.  Python floats and NumPy arrays are idealised as real numbers
    ([R]) and lists of reals; rounding is not modelled.  Integers
    ([intensity], sample rates, return codes) are [Z].

    Libraries.  [librosa.effects.pitch_shift], [librosa.effects.time_stretch]
    and [librosa.resample] are external: they are parameters of the
    development.  [np.tanh] is [tanh], [10 ** x] is [Rpower 10 x].

    Files.  A WAV file is the triple written by [sf.write]: samples, sample
    rate and subtype. *)

From Stdlib Require Import Reals Lra Lia ZArith List String Bool.
From Stdlib Require Import Sorted Permutation.
Import ListNotations.
Open Scope R_scope.

(** ** Python results *)

Inductive exn : Type :=
| ValueError
| AttributeError
| RuntimeError (msg : string).

Inductive result (A : Type) : Type :=
| Ok (a : A)
| Raise (e : exn).
Arguments Ok {A} a.
Arguments Raise {A} e.

(** ** audio_processing.py *)

Module AudioProcessing.

Definition TARGET_SR : Z := 44100.

Inductive subtype_t : Type := PCM_16 | PCM_24 | FLOAT.

Definition BIT_DEPTH : subtype_t := PCM_16.

(** What [sf.write(path, y, sr, subtype=...)] puts on disk. *)
Record wav : Type := mk_wav {
  wav_samples : list R;
  wav_sr : Z;
  wav_subtype : subtype_t
}.

(** Mood effect parameters: (pitch_semitones_max, speed_max, gain_db_max). *)
Definition MOOD_PARAMS : list (string * (R * R * R)) :=
  [ ("normal"%string,  (0,     1,    0));
    ("upbeat"%string,  (2.5,   1.18, 1.5));
    ("angry"%string,   (-1.5,  1.12, 3));
    ("excited"%string, (3.5,   1.22, 2)) ].

(** Dictionary lookup, [d.get(k)]. *)
Fixpoint dict_get {V : Type} (d : list (string * V)) (k : string) : option V :=
  match d with
  | [] => None
  | (k', v) :: d' => if String.eqb k k' then Some v else dict_get d' k
  end.

(** [k in d]. *)
Definition dict_mem {V : Type} (d : list (string * V)) (k : string) : bool :=
  match dict_get d k with Some _ => true | None => false end.

(** [mood = mood if mood in MOOD_PARAMS else "normal"] *)
Definition resolve_mood (mood : string) : string :=
  if dict_mem MOOD_PARAMS mood then mood else "normal"%string.

(** [MOOD_PARAMS[mood]] for a resolved mood; the default is never reached
    (lemma [mood_params_resolved]). *)
Definition mood_params (mood : string) : R * R * R :=
  match dict_get MOOD_PARAMS mood with
  | Some p => p
  | None => (0, 1, 0)
  end.

Definition pitch_max (mood : string) : R := fst (fst (mood_params mood)).
Definition speed_max (mood : string) : R := snd (fst (mood_params mood)).
Definition gain_max  (mood : string) : R := snd (mood_params mood).

(** [max(1, min(5, intensity))] *)
Definition clamp_intensity (intensity : Z) : Z := Z.max 1 (Z.min 5 intensity).

(** [factor = (max(1, min(5, intensity)) - 1) / 4.0] *)
Definition factor (intensity : Z) : R := IZR (clamp_intensity intensity - 1) / 4.

(** [n_steps = pitch_max * factor] *)
Definition n_steps (mood : string) (intensity : Z) : R :=
  pitch_max mood * factor intensity.

(** [rate = 1.0 + (speed_max - 1.0) * factor] *)
Definition rate (mood : string) (intensity : Z) : R :=
  1 + (speed_max mood - 1) * factor intensity.

(** [gain_lin = 10 ** (gain_max * factor / 20.0)] *)
Definition gain_lin (mood : string) (intensity : Z) : R :=
  Rpower 10 (gain_max mood * factor intensity / 20).

(** [clip_threshold = 0.85 - 0.15 * factor] *)
Definition clip_threshold (intensity : Z) : R := 0.85 - 0.15 * factor intensity.

(** The three [librosa] entry points the module calls. *)
Record librosa : Type := mk_librosa {
  (** [librosa.effects.pitch_shift(y, sr=sr, n_steps=n_steps)] *)
  pitch_shift : list R -> Z -> R -> list R;
  (** [librosa.effects.time_stretch(y, rate=rate)] *)
  time_stretch : list R -> R -> list R;
  (** [librosa.resample(y, orig_sr=orig_sr, target_sr=target_sr)] *)
  resample : list R -> Z -> Z -> list R
}.

(** [np.max(np.abs(y))]; NumPy raises [ValueError] on a zero-size array. *)
Fixpoint max_abs_from (m : R) (y : list R) : R :=
  match y with
  | [] => m
  | s :: y' => max_abs_from (Rmax m (Rabs s)) y'
  end.

Definition np_max_abs (y : list R) : result R :=
  match y with
  | [] => Raise ValueError
  | s :: y' => Ok (max_abs_from (Rabs s) y')
  end.

(** [y * c] for an array [y] and a scalar [c]. *)
Definition scale (c : R) (y : list R) : list R := map (fun s => s * c) y.

(** [np.tanh(y / clip_threshold) * clip_threshold] *)
Definition soft_clip (ct : R) (y : list R) : list R :=
  map (fun s => tanh (s / ct) * ct) y.

Section Chain.

Variable L : librosa.

(** Lines 88-91: pitch shift. *)
Definition pitch_stage (mood : string) (intensity : Z) (sr : Z) (y : list R) : list R :=
  if Rlt_dec 0.01 (Rabs (n_steps mood intensity))
  then pitch_shift L y sr (n_steps mood intensity)
  else y.

(** Lines 93-96: speed / time-stretch. *)
Definition speed_stage (mood : string) (intensity : Z) (y : list R) : list R :=
  if Rlt_dec 0.005 (Rabs (rate mood intensity - 1))
  then time_stretch L y (rate mood intensity)
  else y.

(** Lines 98-100: gain. *)
Definition gain_stage (mood : string) (intensity : Z) (y : list R) : list R :=
  scale (gain_lin mood intensity) y.

(** Lines 102-106: [if mood == "angry" and factor > 0.2]. *)
Definition angry_stage (mood : string) (intensity : Z) (y : list R) : list R :=
  if String.eqb mood "angry"
  then if Rlt_dec 0.2 (factor intensity)
       then soft_clip (clip_threshold intensity) y
       else y
  else y.

(** Lines 108-111: [if peak > 0.98: y = y * (0.95 / peak)]. *)
Definition normalize_stage (peak : R) (y : list R) : list R :=
  if Rlt_dec 0.98 peak then scale (0.95 / peak) y else y.

(** Lines 113-116: [if sr != TARGET_SR: y = resample(...); sr = TARGET_SR]. *)
Definition resample_stage (sr : Z) (y : list R) : list R * Z :=
  if Z.eqb sr TARGET_SR then (y, sr) else (resample L y sr TARGET_SR, TARGET_SR).

(** The buffer after the gain stage (lines 80-100). *)
Definition after_gain (y : list R) (sr : Z) (mood : string) (intensity : Z) : list R :=
  let mood := resolve_mood mood in
  gain_stage mood intensity (speed_stage mood intensity (pitch_stage mood intensity sr y)).

(** The buffer after the distortion stage (lines 80-106). *)
Definition after_distortion (y : list R) (sr : Z) (mood : string) (intensity : Z) : list R :=
  angry_stage (resolve_mood mood) intensity (after_gain y sr mood intensity).

(** Lines 108-119: normalise, resample, write. *)
Definition finish (sr : Z) (y : list R) : result wav :=
  match np_max_abs y with
  | Raise e => Raise e
  | Ok peak =>
      let y := normalize_stage peak y in
      let '(y, sr) := resample_stage sr y in
      Ok (mk_wav y sr BIT_DEPTH)
  end.

(** [apply_mood], on the buffer [(y, sr)] that [librosa.load] returned. *)
Definition apply_mood (y : list R) (sr : Z) (mood : string) (intensity : Z) : result wav :=
  finish sr (after_distortion y sr mood intensity).

(** The chain with lines 102-106 left out, for comparison. *)
Definition apply_mood_without_distortion
    (y : list R) (sr : Z) (mood : string) (intensity : Z) : result wav :=
  finish sr (after_gain y sr mood intensity).

(** The buffer after the normalisation stage, before resampling
    (lines 80-111). *)
Definition after_normalize (y : list R) (sr : Z) (mood : string) (intensity : Z)
  : result (list R) :=
  let y := after_distortion y sr mood intensity in
  match np_max_abs y with
  | Raise e => Raise e
  | Ok peak => Ok (normalize_stage peak y)
  end.

(** [0.9 / peak] and [0.85 / peak] are evaluated under [if peak > 0] only:
    the divisor of the one division a normalisation performs, if any. *)
Definition peak_divisor (peak : R) : option R :=
  if Rlt_dec 0 peak then Some peak else None.

(** [if peak > 0: y = y * (target / peak)] *)
Definition scale_to_peak (target peak : R) (y : list R) : list R :=
  match peak_divisor peak with
  | Some d => scale (target / d) y
  | None => y
  end.

(** [normalize_wav]; the [except] clause logs and re-raises. *)
Definition normalize_wav (y : list R) (sr : Z) : result wav :=
  let y := if Z.eqb sr TARGET_SR then y else resample L y sr TARGET_SR in
  match np_max_abs y with
  | Raise e => Raise e
  | Ok peak => Ok (mk_wav (scale_to_peak 0.9 peak y) TARGET_SR BIT_DEPTH)
  end.

End Chain.

(** An all-zero buffer. *)
Definition silent (y : list R) : Prop := Forall (fun s => s = 0) y.

(** Largest sample magnitude of a buffer, 0 for the empty one. *)
Definition peak_of (y : list R) : R := max_abs_from 0 y.

(** A 2x interpolating resampler with the 4-tap kernel (-1, 9, 9, -1)/16:
    it keeps every input sample and inserts one between neighbours.
    An instance of the [resample] parameter, used to show what the chain
    does not control after its normalisation stage. *)
Fixpoint interp4 (p0 p1 : R) (rest : list R) : list R :=
  match rest with
  | p2 :: ((p3 :: _) as rest') =>
      p1 :: (- p0 + 9 * p1 + 9 * p2 - p3) / 16 :: interp4 p1 p2 rest'
  | [p2] => [p1; (- p0 + 9 * p1 + 9 * p2 - p2) / 16; p2]
  | [] => [p1]
  end.

Definition upsample2 (y : list R) (orig_sr target_sr : Z) : list R :=
  match y with
  | [] => []
  | p1 :: rest => interp4 p1 p1 rest
  end.

(** A [librosa] whose effects are the identity and whose resampler is
    [upsample2]. *)
Definition interp_librosa : librosa :=
  mk_librosa (fun y _ _ => y) (fun y _ => y) upsample2.

End AudioProcessing.

(** ** tts_engine.py *)

Module TTSEngine.

Import AudioProcessing.

(** espeak-ng voice map for fallback. *)
Definition ESPEAK_VOICE_MAP : list (string * string) :=
  [ ("pt", "pt-br"); ("en", "en-us"); ("es", "es"); ("fr", "fr");
    ("de", "de"); ("it", "it"); ("pl", "pl"); ("tr", "tr"); ("ru", "ru");
    ("nl", "nl"); ("cs", "cs"); ("ar", "ar"); ("zh-cn", "cmn");
    ("ja", "ja"); ("hu", "hu"); ("ko", "ko") ]%string.

(** [self._status]: "idle" | "loading" | "ready" | "error". *)
Inductive status_t : Type := idle | loading | ready | error.

(** [self._backend]: "xtts" | "espeak". *)
Inductive backend_t : Type := xtts | espeak.

(** The loaded [TTS] object; its content is opaque. *)
Inductive model : Type := Model (handle : nat).

(** The fields [__init__] creates (the lock is the atomicity of the steps
    below). *)
Record engine : Type := mk_engine {
  _tts : option model;
  _status : status_t;
  _error_msg : option string;
  _backend : option backend_t
}.

(** [__init__] *)
Definition init : engine := mk_engine None idle None None.

Definition status_eqb (a b : status_t) : bool :=
  match a, b with
  | idle, idle | loading, loading | ready, ready | error, error => true
  | _, _ => false
  end.

(** [is_ready] *)
Definition is_ready (s : engine) : bool := status_eqb (_status s) ready.

(** What the environment answers one load attempt: [TTS(MODEL_NAME, ...)]
    returns a model or raises [e] (kept as [str(e)]), and
    [shutil.which("espeak-ng")] finds the tool or not. *)
Inductive primary_load : Type :=
| Loaded (m : model)
| LoadFailed (str_e : string).

Record load_env : Type := mk_load_env {
  primary : primary_load;
  espeak_found : bool
}.

(** [_load_model], first [with self._lock] block: the guard.  [true] when
    the call returns at once. *)
Definition guard_returns (s : engine) : bool :=
  match _status s with
  | ready | loading => true
  | idle | error => false
  end.

(** [self._status = "loading"] *)
Definition set_loading (s : engine) : engine :=
  mk_engine (_tts s) loading (_error_msg s) (_backend s).

(** [_load_model], the [try]/[except] after the guard: each branch is one
    [with self._lock] block. *)
Definition finish_load (env : load_env) (s : engine) : engine :=
  match primary env with
  | Loaded m => mk_engine (Some m) ready (_error_msg s) (Some xtts)
  | LoadFailed str_e =>
      if espeak_found env
      then mk_engine (_tts s) ready (Some str_e) (Some espeak)
      else mk_engine (_tts s) error (Some str_e) (_backend s)
  end.

(** [_load_model] run by one thread with no other thread interfering. *)
Definition _load_model (env : load_env) (s : engine) : engine :=
  if guard_returns s then s else finish_load env (set_loading s).

(** *** Threads

    Every caller of [_load_model] (the thread [initialize_async] starts, or
    a request thread through [ensure_ready]) is a thread of the system.
    The writes of [_load_model] all happen under [self._lock], so each
    [with] block is one atomic step. *)

Inductive pc : Type :=
| AtGuard   (** about to enter the first [with self._lock] block *)
| InLoad    (** past the guard: the load attempt is in progress *)
| Returned.

Record system : Type := mk_system {
  eng : engine;
  threads : list pc
}.

Definition initial : system := mk_system init [].

Fixpoint set_pc (i : nat) (p : pc) (ts : list pc) : list pc :=
  match ts, i with
  | [], _ => []
  | _ :: ts', O => p :: ts'
  | t :: ts', S i' => t :: set_pc i' p ts'
  end.

Inductive event : Type :=
| Call                              (** a new thread calls [_load_model] *)
| Run (i : nat) (env : load_env).   (** thread [i] runs its next block *)

(** One step of the system. *)
Definition exec (sys : system) (ev : event) : system :=
  match ev with
  | Call => mk_system (eng sys) (threads sys ++ [AtGuard])
  | Run i env =>
      match nth_error (threads sys) i with
      | Some AtGuard =>
          if guard_returns (eng sys)
          then mk_system (eng sys) (set_pc i Returned (threads sys))
          else mk_system (set_loading (eng sys)) (set_pc i InLoad (threads sys))
      | Some InLoad =>
          mk_system (finish_load env (eng sys)) (set_pc i Returned (threads sys))
      | Some Returned | None => sys
      end
  end.

Definition run (tr : list event) : system := fold_left exec tr initial.

(** Number of load attempts in progress. *)
Fixpoint loaders (ts : list pc) : nat :=
  match ts with
  | [] => 0
  | InLoad :: ts' => S (loaders ts')
  | _ :: ts' => loaders ts'
  end.

Definition is_InLoad (p : pc) : nat :=
  match p with InLoad => 1%nat | _ => 0%nat end.

(** The invariant of the system: a load attempt is in progress exactly
    when the status is "loading", there is never more than one, and a
    backend is recorded only in the ready state. *)
Definition inv (sys : system) : Prop :=
  (_status (eng sys) = loading /\ loaders (threads sys) = 1%nat \/
   _status (eng sys) <> loading /\ loaders (threads sys) = 0%nat) /\
  (_backend (eng sys) <> None -> _status (eng sys) = ready).

(** Ready and Error are the terminal states of the specification. *)
Definition terminal (s : engine) : bool :=
  match _status s with
  | ready | error => true
  | idle | loading => false
  end.

(** *** ensure_ready and generate *)

(** [for _ in range(n): time.sleep(1); if self._status in ("ready",
    "error"): break].  [observe k] is the engine as the caller reads it
    after [k] seconds of sleep; the result carries the seconds slept. *)
Fixpoint poll (observe : nat -> engine) (slept : nat) (n : nat) : nat * engine :=
  match n with
  | O => (slept, observe slept)
  | S n' =>
      let s := observe (S slept) in
      if terminal s then (S slept, s) else poll observe (S slept) n'
  end.

(** [str(self._error_msg)] inside the f-string. *)
Definition str_opt (m : option string) : string :=
  match m with Some s => s | None => "None"%string end.

Definition init_failed_msg (s : engine) : string :=
  ("TTS engine failed to initialize: " ++ str_opt (_error_msg s))%string.

Definition not_ready_msg : string := "TTS engine not ready."%string.

(** The wait part of [ensure_ready] (lines 114-121): the engine the two
    final checks read, and the seconds slept. *)
Definition await (env : load_env) (observe : nat -> engine) (s : engine)
  : nat * engine :=
  match _status s with
  | idle => (O, _load_model env s)
  | loading => poll observe O 600
  | ready | error => (O, s)
  end.

(** The two final checks of [ensure_ready] (lines 122-125). *)
Definition check_ready (s : engine) : result unit :=
  match _status s, _backend s with
  | error, None => Raise (RuntimeError (init_failed_msg s))
  | ready, _ => Ok tt
  | _, _ => Raise (RuntimeError not_ready_msg)
  end.

Definition ensure_ready (env : load_env) (observe : nat -> engine) (s : engine)
  : result unit * engine * nat :=
  let '(slept, s') := await env observe s in
  (check_ready s', s', slept).

(** What one run of the espeak-ng process gives: return code, stderr, and
    the file it wrote as [librosa.load] reads it back. *)
Record espeak_run : Type := mk_espeak_run {
  returncode : Z;
  stderr : string;
  raw_y : list R;
  raw_sr : Z
}.

(** [ESPEAK_VOICE_MAP.get(language, "pt-br")] *)
Definition espeak_voice (language : string) : string :=
  match dict_get ESPEAK_VOICE_MAP language with
  | Some v => v
  | None => "pt-br"%string
  end.

Section Generate.

Variable L : librosa.

(** [self._tts.tts_to_file(...)]: the file written, or the exception. *)
Variable tts_to_file : model -> string -> string -> string -> result wav.

(** [subprocess.run(["espeak-ng", "-v", voice, "-w", tmp_wav, "--", text])] *)
Variable run_espeak : string -> string -> espeak_run.

Definition XTTS_LANGUAGES : list string :=
  [ "pt"; "en"; "es"; "fr"; "de"; "it"; "pl"; "tr"; "ru"; "nl"; "cs"; "ar";
    "zh-cn"; "ja"; "hu"; "ko" ]%string.

Definition _generate_xtts (s : engine) (text speaker_wav language : string)
  : result wav :=
  let lang := if existsb (String.eqb language) XTTS_LANGUAGES
              then language else "pt"%string in
  match _tts s with
  | Some m => tts_to_file m text speaker_wav lang
  | None => Raise AttributeError
  end.

Definition _generate_espeak (text language : string) : result wav :=
  let voice := espeak_voice language in
  let r := run_espeak voice text in
  if negb (Z.eqb (returncode r) 0)
  then Raise (RuntimeError ("espeak-ng error: " ++ stderr r))
  else
    let y := if Z.eqb (raw_sr r) 44100 then raw_y r
             else resample L (raw_y r) (raw_sr r) 44100 in
    match np_max_abs y with
    | Raise e => Raise e
    | Ok peak => Ok (mk_wav (scale_to_peak 0.85 peak y) 44100 PCM_16)
    end.

(** The buffer [_generate_espeak] takes the peak of (lines 186-188). *)
Definition espeak_buffer (text language : string) : list R :=
  let r := run_espeak (espeak_voice language) text in
  if Z.eqb (raw_sr r) 44100 then raw_y r
  else resample L (raw_y r) (raw_sr r) 44100.

Definition generate (env : load_env) (observe : nat -> engine) (s : engine)
    (text speaker_wav language : string) : result wav * engine :=
  let '(r, s', _) := ensure_ready env observe s in
  match r with
  | Raise e => (Raise e, s')
  | Ok _ =>
      match _backend s' with
      | Some xtts => (_generate_xtts s' text speaker_wav language, s')
      | _ => (_generate_espeak text language, s')
      end
  end.

End Generate.

End TTSEngine.

(** ** tts_engine.py: the read-only properties and the language tables *)

Module EngineViews.

Import AudioProcessing TTSEngine.

(** The [status] property. *)
Definition status (s : engine) : string :=
  match _status s with
  | idle => "idle"
  | loading => "loading"
  | ready => "ready"
  | error => "error"
  end%string.

(** The [error] property. *)
Definition error_prop (s : engine) : option string := _error_msg s.

(** The [backend] property: [self._backend or "none"]. *)
Definition backend (s : engine) : string :=
  match _backend s with
  | Some xtts => "xtts"
  | Some espeak => "espeak"
  | None => "none"
  end%string.

(** [lang = language if language in XTTS_LANGUAGES else "pt"] *)
Definition xtts_language (language : string) : string :=
  if existsb (String.eqb language) XTTS_LANGUAGES then language else "pt"%string.

(** What holds of the fields in each status, on every engine the load
    attempts can produce. *)
Definition consistent (s : engine) : Prop :=
  match _status s with
  | idle => _tts s = None /\ _error_msg s = None /\ _backend s = None
  | loading => _tts s = None /\ _backend s = None
  | ready =>
      (_backend s = Some xtts /\ exists m, _tts s = Some m) \/
      (_backend s = Some espeak /\ _tts s = None /\ exists e, _error_msg s = Some e)
  | error => _tts s = None /\ _backend s = None /\ exists e, _error_msg s = Some e
  end.

End EngineViews.

(** ** tts_engine.py: the assignments of [_load_model], one at a time *)

Module EngineWrites.

Import AudioProcessing TTSEngine EngineViews.

(** The properties, [ensure_ready] and [generate] read the fields without
    taking [self._lock], so they can run between two assignments of a
    [with self._lock] block of [_load_model].  Here every assignment is a
    step of its own; the lock keeps the other [_load_model] calls out of a
    block that has started, and nothing else. *)

(** One assignment to a field. *)
Inductive write : Type :=
| W_tts (m : model)           (** [self._tts = tts] *)
| W_status (st : status_t)    (** [self._status = ...] *)
| W_backend (b : backend_t)   (** [self._backend = ...] *)
| W_error_msg (e : string).   (** [self._error_msg = str(e)] *)

Definition apply_write (s : engine) (w : write) : engine :=
  match w with
  | W_tts m => mk_engine (Some m) (_status s) (_error_msg s) (_backend s)
  | W_status st => mk_engine (_tts s) st (_error_msg s) (_backend s)
  | W_backend b => mk_engine (_tts s) (_status s) (_error_msg s) (Some b)
  | W_error_msg e => mk_engine (_tts s) (_status s) (Some e) (_backend s)
  end.

Definition apply_writes (ws : list write) (s : engine) : engine :=
  fold_left apply_write ws s.

(** The assignments of the block that ends a load attempt, in the order of
    the source: lines 94-96, lines 102-104, lines 108-109. *)
Definition finish_writes (env : load_env) : list write :=
  match primary env with
  | Loaded m => [W_tts m; W_status ready; W_backend xtts]
  | LoadFailed str_e =>
      if espeak_found env
      then [W_status ready; W_backend espeak; W_error_msg str_e]
      else [W_status error; W_error_msg str_e]
  end.

(** Where a thread that called [_load_model] is. *)
Inductive wpc : Type :=
| WAtGuard                     (** about to enter the first block *)
| WInLoad                      (** past the guard, outside the lock *)
| WInBlock (ws : list write)   (** in the last block, [ws] still to assign *)
| WReturned.

Record wsystem : Type := mk_wsystem {
  weng : engine;
  wthreads : list wpc
}.

Definition winitial : wsystem := mk_wsystem init [].

Fixpoint set_wpc (i : nat) (p : wpc) (ts : list wpc) : list wpc :=
  match ts, i with
  | [], _ => []
  | _ :: ts', O => p :: ts'
  | t :: ts', S i' => t :: set_wpc i' p ts'
  end.

(** The first block reads and assigns [_status] once, so it is a single
    step; only the last block holds the lock from one step to the next. *)
Definition holds_lock (p : wpc) : bool :=
  match p with
  | WInBlock _ => true
  | _ => false
  end.

Definition locked (ts : list wpc) : bool := existsb holds_lock ts.

Inductive wevent : Type :=
| WCall                              (** a new thread calls [_load_model] *)
| WRun (i : nat) (env : load_env).   (** thread [i] runs its next step *)

(** One step.  A thread that needs the lock while another one holds it
    waits: the step changes nothing. *)
Definition wexec (sys : wsystem) (ev : wevent) : wsystem :=
  match ev with
  | WCall => mk_wsystem (weng sys) (wthreads sys ++ [WAtGuard])
  | WRun i env =>
      match nth_error (wthreads sys) i with
      | Some WAtGuard =>
          if locked (wthreads sys) then sys
          else if guard_returns (weng sys)
          then mk_wsystem (weng sys) (set_wpc i WReturned (wthreads sys))
          else mk_wsystem (set_loading (weng sys)) (set_wpc i WInLoad (wthreads sys))
      | Some WInLoad =>
          if locked (wthreads sys) then sys
          else mk_wsystem (weng sys)
                          (set_wpc i (WInBlock (finish_writes env)) (wthreads sys))
      | Some (WInBlock (w :: ws)) =>
          mk_wsystem (apply_write (weng sys) w) (set_wpc i (WInBlock ws) (wthreads sys))
      | Some (WInBlock []) =>
          mk_wsystem (weng sys) (set_wpc i WReturned (wthreads sys))
      | Some WReturned | None => sys
      end
  end.

Definition wrun (tr : list wevent) : wsystem := fold_left wexec tr winitial.

(** Threads past the guard that have not returned. *)
Definition busy1 (p : wpc) : nat :=
  match p with
  | WInLoad | WInBlock _ => 1
  | WAtGuard | WReturned => 0
  end.

Fixpoint wbusy (ts : list wpc) : nat :=
  match ts with
  | [] => 0
  | p :: ts' => busy1 p + wbusy ts'
  end.

(** The engine between the guard and the last block. *)
Definition loading_state (s : engine) : Prop :=
  _status s = loading /\ _tts s = None /\ _backend s = None.

(** The engine inside the last block, with [ws] still to assign: the
    assignments already made are the beginning of the block. *)
Definition block_state (s : engine) (ws : list write) : Prop :=
  exists (env : load_env) (done : list write) (s0 : engine),
    finish_writes env = done ++ ws /\ loading_state s0 /\ s = apply_writes done s0.

Definition thread_ok (s : engine) (p : wpc) : Prop :=
  match p with
  | WInLoad => loading_state s
  | WInBlock ws => block_state s ws
  | WAtGuard | WReturned => True
  end.

Definition winv (sys : wsystem) : Prop :=
  (wbusy (wthreads sys) <= 1)%nat /\
  Forall (thread_ok (weng sys)) (wthreads sys) /\
  (wbusy (wthreads sys) = 0%nat ->
     _status (weng sys) <> loading /\ consistent (weng sys)).

End EngineWrites.

(** ** audio_processing.py: detect_gender *)

Module GenderDetection.

(** One frame of [librosa.pyin]: the fundamental frequency estimate
    ([None] is NaN) and the voiced flag. *)
Record frame : Type := mk_frame {
  f0 : option R;
  voiced_flag : bool
}.

(** [voiced_f0 = f0[voiced_flag & ~np.isnan(f0)]] *)
Fixpoint voiced_f0 (frames : list frame) : list R :=
  match frames with
  | [] => []
  | fr :: frames' =>
      match f0 fr, voiced_flag fr with
      | Some x, true => x :: voiced_f0 frames'
      | _, _ => voiced_f0 frames'
      end
  end.

(** Sorting, as [np.nanmedian] does before it picks the middle. *)
Fixpoint insert_sorted (x : R) (l : list R) : list R :=
  match l with
  | [] => [x]
  | h :: t => if Rle_dec x h then x :: l else h :: insert_sorted x t
  end.

Fixpoint sort (l : list R) : list R :=
  match l with
  | [] => []
  | h :: t => insert_sorted h (sort t)
  end.

(** [np.nanmedian] of an array without NaN: the middle element of the
    sorted array, or the mean of the two middle ones. *)
Definition nanmedian (l : list R) : R :=
  let s := sort l in
  let n := List.length s in
  if Nat.even n
  then (nth (n / 2 - 1) s 0 + nth (n / 2) s 0) / 2
  else nth (n / 2) s 0.

(** [detect_gender], on what [librosa.load] and [librosa.pyin] gave: the
    frames, or the exception one of them raised. *)
Definition detect_gender (analysis : result (list frame)) : string :=
  match analysis with
  | Raise _ => "unknown"%string
  | Ok frames =>
      match voiced_f0 frames with
      | [] => "unknown"%string
      | v =>
          let mean_f0 := nanmedian v in
          if Rle_dec 165 mean_f0 then "female"%string else "male"%string
      end
  end.

(** Number of values at or above [c], and below [c]. *)
Fixpoint count_ge (c : R) (l : list R) : nat :=
  match l with
  | [] => 0
  | x :: l' => if Rle_dec c x then S (count_ge c l') else count_ge c l'
  end.

Fixpoint count_lt (c : R) (l : list R) : nat :=
  match l with
  | [] => 0
  | x :: l' => if Rlt_dec x c then S (count_lt c l') else count_lt c l'
  end.

End GenderDetection.

(** ** voice_bank.py *)

Module VoiceBank.

Definition REFERENCES_DIR : string := "data/references".

(** One entry of the "voices" array. *)
Record voice : Type := mk_voice {
  v_id : string;
  v_name : string;
  v_gender : string;
  v_language : string;
  v_description : string;
  v_reference_file : string;
  v_created_at : string
}.

(** [data/voices.json]: absent, not parseable, or [{"voices": [...]}] as
    [_save] writes it. *)
Inductive json_file : Type :=
| Missing
| Unreadable
| Voices (vs : list voice).

(** The bank on disk: the JSON file and the regular files that exist under
    the base directory (paths relative to it). *)
Record bank : Type := mk_bank {
  json : json_file;
  files : list string
}.

(** [_ensure_json] *)
Definition _ensure_json (b : bank) : bank :=
  match json b with
  | Missing => mk_bank (Voices []) (files b)
  | _ => b
  end.

(** [__init__] on what is on disk. *)
Definition open_bank (b : bank) : bank := _ensure_json b.

(** [_load()["voices"]]: any exception gives [{"voices": []}]. *)
Definition _load (b : bank) : list voice :=
  match json b with
  | Voices vs => vs
  | Missing | Unreadable => []
  end.

(** [_save] *)
Definition _save (data : list voice) (b : bank) : bank :=
  mk_bank (Voices data) (files b).

(** [p.exists()] for a path under the base directory. *)
Definition file_exists (b : bank) (p : string) : bool :=
  existsb (String.eqb p) (files b).

(** [add_voice].  [vid] is [str(uuid.uuid4())], [now] the ISO timestamp,
    [suffix] is [src.suffix] and [src_exists] tells whether the file to
    copy is there; [None] when [shutil.copy2] raises. *)
Definition add_voice (vid now suffix : string) (src_exists : bool)
    (name gender language description : string) (b : bank)
  : option voice * bank :=
  let dest := (REFERENCES_DIR ++ "/" ++ vid ++ suffix)%string in
  if src_exists then
    let voice := mk_voice vid name gender language description dest now in
    let b' := mk_bank (json b) (dest :: files b) in
    (Some voice, _save (_load b' ++ [voice]) b')
  else (None, b).

(** [if gender and gender != "all"] *)
Definition filter_active (f : option string) : option string :=
  match f with
  | Some s => if orb (String.eqb s "") (String.eqb s "all") then None else Some s
  | None => None
  end.

Definition filter_by (field : voice -> string) (f : option string) (vs : list voice)
  : list voice :=
  match filter_active f with
  | Some s => filter (fun v => String.eqb (field v) s) vs
  | None => vs
  end.

(** [sorted(voices, key=created_at, reverse=True)]: stable, newest first. *)
Fixpoint insert_newest (v : voice) (l : list voice) : list voice :=
  match l with
  | [] => [v]
  | w :: l' =>
      if String.ltb (v_created_at v) (v_created_at w)
      then w :: insert_newest v l'
      else v :: l
  end.

Fixpoint sorted_newest (l : list voice) : list voice :=
  match l with
  | [] => []
  | v :: l' => insert_newest v (sorted_newest l')
  end.

(** [list_voices] *)
Definition list_voices (gender language : option string) (b : bank) : list voice :=
  sorted_newest (filter_by v_language language (filter_by v_gender gender (_load b))).

(** [get_voice] *)
Definition get_voice (voice_id : string) (b : bank) : option voice :=
  find (fun v => String.eqb (v_id v) voice_id) (_load b).

(** [allowed = {"name", "gender", "language", "description"}] *)
Definition allowed : list string :=
  ["name"; "gender"; "language"; "description"]%string.

(** [v[k] = val] on the seven keys an entry has. *)
Definition set_key (k val : string) (v : voice) : voice :=
  if String.eqb k "id" then
    mk_voice val (v_name v) (v_gender v) (v_language v) (v_description v)
             (v_reference_file v) (v_created_at v)
  else if String.eqb k "name" then
    mk_voice (v_id v) val (v_gender v) (v_language v) (v_description v)
             (v_reference_file v) (v_created_at v)
  else if String.eqb k "gender" then
    mk_voice (v_id v) (v_name v) val (v_language v) (v_description v)
             (v_reference_file v) (v_created_at v)
  else if String.eqb k "language" then
    mk_voice (v_id v) (v_name v) (v_gender v) val (v_description v)
             (v_reference_file v) (v_created_at v)
  else if String.eqb k "description" then
    mk_voice (v_id v) (v_name v) (v_gender v) (v_language v) val
             (v_reference_file v) (v_created_at v)
  else if String.eqb k "reference_file" then
    mk_voice (v_id v) (v_name v) (v_gender v) (v_language v) (v_description v)
             val (v_created_at v)
  else if String.eqb k "created_at" then
    mk_voice (v_id v) (v_name v) (v_gender v) (v_language v) (v_description v)
             (v_reference_file v) val
  else v.

(** [if k in allowed: v[k] = val] *)
Definition set_allowed (k val : string) (v : voice) : voice :=
  if existsb (String.eqb k) allowed then set_key k val v else v.

(** [for k, val in kwargs.items(): ...] *)
Definition apply_kwargs (kwargs : list (string * string)) (v : voice) : voice :=
  fold_left (fun v kv => set_allowed (fst kv) (snd kv) v) kwargs v.

(** The loop of [update_voice]: the first voice with the id is updated in
    place. *)
Fixpoint update_first (voice_id : string) (kwargs : list (string * string))
    (vs : list voice) : option (voice * list voice) :=
  match vs with
  | [] => None
  | v :: vs' =>
      if String.eqb (v_id v) voice_id
      then let v' := apply_kwargs kwargs v in Some (v', v' :: vs')
      else match update_first voice_id kwargs vs' with
           | Some (v', vs'') => Some (v', v :: vs'')
           | None => None
           end
  end.

(** [update_voice] *)
Definition update_voice (voice_id : string) (kwargs : list (string * string))
    (b : bank) : option voice * bank :=
  match update_first voice_id kwargs (_load b) with
  | Some (v', vs') => (Some v', _save vs' b)
  | None => (None, b)
  end.

(** [ref.unlink()] *)
Definition unlink (p : string) (fs : list string) : list string :=
  filter (fun q => negb (String.eqb q p)) fs.

(** [delete_voice] *)
Definition delete_voice (voice_id : string) (b : bank) : bool * bank :=
  match find (fun v => String.eqb (v_id v) voice_id) (_load b) with
  | None => (false, b)
  | Some voice =>
      let ref := v_reference_file voice in
      let fs := if file_exists b ref then unlink ref (files b) else files b in
      (true,
       mk_bank (Voices (filter (fun v => negb (String.eqb (v_id v) voice_id)) (_load b)))
               fs)
  end.

(** [get_reference_path] *)
Definition get_reference_path (voice_id : string) (b : bank) : option string :=
  match get_voice voice_id b with
  | None => None
  | Some voice =>
      if file_exists b (v_reference_file voice)
      then Some (v_reference_file voice) else None
  end.

(** Newest first. *)
Definition newer_or_equal (a b : voice) : Prop :=
  String.leb (v_created_at b) (v_created_at a) = true.

(** A value passes a filter that is off, or is equal to the one asked. *)
Definition passes (f : option string) (x : string) : Prop :=
  match filter_active f with
  | Some s => x = s
  | None => True
  end.

End VoiceBank.

(** ** main.py *)

Module Main.

Import AudioProcessing TTSEngine EngineViews GenderDetection VoiceBank.

(** The [detail] of an [HTTPException]: a text, possibly ending in the
    [str(e)] of the exception that was caught. *)
Inductive detail_t : Type :=
| Text (s : string)
| TextExn (s : string) (e : exn).

(** What a handler gives back: its return value, or the [HTTPException] it
    raised. *)
Inductive response (A : Type) : Type :=
| Return (a : A)
| HTTPException (status_code : Z) (detail : detail_t).
Arguments Return {A} a.
Arguments HTTPException {A} status_code detail.

(** The body of [GET /api/status]. *)
Record status_body : Type := mk_status_body {
  model_status : string;
  model_ready : bool;
  model_error : option string;
  backend_name : string
}.

Definition get_status (s : engine) : status_body :=
  mk_status_body (status s) (is_ready s) (error_prop s) (backend s).

Record GenerateRequest : Type := mk_GenerateRequest {
  text : string;
  voice_id : string;
  language : string;
  mood : string;
  intensity : Z
}.

Definition ALLOWED_EXTENSIONS : list string :=
  [".wav"; ".mp3"; ".m4a"; ".ogg"; ".flac"]%string.

Section Handlers.

Variable L : librosa.
Variable tts_to_file : model -> string -> string -> string -> result wav.
Variable run_espeak : string -> string -> espeak_run.

(** [generate_tts]: the response and the engine afterwards.  The value
    returned stands for the file at [out_path] the response names; the raw
    file is read back by [apply_mood] as it was written. *)
Definition generate_tts (env : load_env) (observe : nat -> engine)
    (s : engine) (b : bank) (req : GenerateRequest) : response wav * engine :=
  if negb (is_ready s) then
    (HTTPException 503 (Text ("Model not ready. Status: " ++ status s)), s)
  else
    match get_voice (voice_id req) b with
    | None => (HTTPException 404 (Text "Voice not found"), s)
    | Some _ =>
        match get_reference_path (voice_id req) b with
        | None => (HTTPException 404 (Text "Voice reference audio not found"), s)
        | Some ref_path =>
            match generate L tts_to_file run_espeak env observe s
                    (text req) ref_path (language req) with
            | (Raise e, s') => (HTTPException 500 (TextExn "" e), s')
            | (Ok raw, s') =>
                match apply_mood L (wav_samples raw) (wav_sr raw)
                        (mood req) (intensity req) with
                | Ok out => (Return out, s')
                | Raise _ => (Return raw, s')
                end
            end
        end
    end.

(** [clone_voice].  [ext] is the lower-cased suffix of the upload, [upload]
    what [librosa.load] makes of it, [strip] is [str.strip], [pyin] the
    pitch analysis of a file, [vid] and [now] the fresh id and the time,
    [copy_ok] whether the copy into the bank succeeds.  Besides the
    response and the bank, the result holds the reference file stored. *)
Definition clone_voice (strip : string -> string)
    (pyin : wav -> result (list frame))
    (ext : string) (upload : result (list R * Z))
    (name language description : string) (detect_gender_flag : bool)
    (vid now : string) (copy_ok : bool) (b : bank)
  : response voice * bank * option wav :=
  if negb (existsb (String.eqb ext) ALLOWED_EXTENSIONS) then
    (HTTPException 400 (Text ("Unsupported file type: " ++ ext)), b, None)
  else
    match (match upload with
           | Raise e => Raise e
           | Ok (y, sr) => normalize_wav L y sr
           end) with
    | Raise e => (HTTPException 422 (TextExn "Audio processing failed: " e), b, None)
    | Ok stored =>
        let gender := if detect_gender_flag
                      then detect_gender (pyin stored)
                      else "unknown"%string in
        match add_voice vid now ".wav" copy_ok (strip name) gender language
                (strip description) b with
        | (Some voice, b') => (Return voice, b', Some stored)
        | (None, b') => (HTTPException 500 (Text "Internal Server Error"), b', None)
        end
    end.

End Handlers.

End Main.

(** * Properties of the effect parameters *)

Module ParamFacts.

Import AudioProcessing.

Lemma clamp_intensity_range (i : Z) : (1 <= clamp_intensity i <= 5)%Z.
Proof. unfold clamp_intensity. lia. Qed.

Lemma clamp_intensity_mono (i j : Z) :
  (i <= j)%Z -> (clamp_intensity i <= clamp_intensity j)%Z.
Proof. unfold clamp_intensity. lia. Qed.

Lemma clamp_intensity_id (i : Z) : (1 <= i <= 5)%Z -> clamp_intensity i = i.
Proof. unfold clamp_intensity. lia. Qed.

Lemma factor_range (i : Z) : 0 <= factor i <= 1.
Proof.
  unfold factor.
  pose proof (clamp_intensity_range i) as [Hlo Hhi].
  assert (0 <= IZR (clamp_intensity i - 1) <= 4) as [H0 H4].
  { split; [apply (IZR_le 0) | apply (IZR_le _ 4)]; lia. }
  lra.
Qed.

Lemma factor_mono (i j : Z) : (i <= j)%Z -> factor i <= factor j.
Proof.
  intro Hij. unfold factor.
  assert (IZR (clamp_intensity i - 1) <= IZR (clamp_intensity j - 1)).
  { apply IZR_le. pose proof (clamp_intensity_mono i j Hij). lia. }
  lra.
Qed.

(** The five values the factor takes. *)
Lemma factor_cases (i : Z) :
  ((i <= 1)%Z /\ factor i = 0) \/
  (i = 2%Z /\ factor i = 0.25) \/
  (i = 3%Z /\ factor i = 0.5) \/
  (i = 4%Z /\ factor i = 0.75) \/
  ((5 <= i)%Z /\ factor i = 1).
Proof.
  unfold factor, clamp_intensity.
  destruct (Z_le_gt_dec i 1) as [H1 | H1].
  { left. split; [exact H1 |]. replace (Z.max 1 (Z.min 5 i)) with 1%Z by lia. simpl. lra. }
  destruct (Z_le_gt_dec 5 i) as [H5 | H5].
  { do 4 right. split; [exact H5 |]. replace (Z.max 1 (Z.min 5 i)) with 5%Z by lia. simpl. lra. }
  assert (i = 2 \/ i = 3 \/ i = 4)%Z as [-> | [-> | ->]] by lia; simpl.
  - right; left. split; [reflexivity | lra].
  - right; right; left. split; [reflexivity | lra].
  - right; right; right; left. split; [reflexivity | lra].
Qed.

(** [factor > 0.2] is [intensity >= 2]. *)
Lemma factor_gt_02 (i : Z) : 0.2 < factor i <-> (2 <= i)%Z.
Proof.
  destruct (factor_cases i) as [[H ->] | [[H ->] | [[H ->] | [[H ->] | [H ->]]]]];
    split; intro; try lia; lra.
Qed.

Lemma mood_params_normal : mood_params "normal" = (0, 1, 0).
Proof. reflexivity. Qed.

Lemma mood_params_upbeat : mood_params "upbeat" = (2.5, 1.18, 1.5).
Proof. reflexivity. Qed.

Lemma mood_params_angry : mood_params "angry" = (-1.5, 1.12, 3).
Proof. reflexivity. Qed.

(** A resolved mood is a key of [MOOD_PARAMS]: the lookup never misses. *)
Lemma mood_params_resolved (mood : string) :
  dict_get MOOD_PARAMS (resolve_mood mood) = Some (mood_params (resolve_mood mood)).
Proof.
  unfold resolve_mood, dict_mem, mood_params.
  destruct (dict_get MOOD_PARAMS mood) as [p |] eqn:E.
  - rewrite E. reflexivity.
  - reflexivity.
Qed.

Lemma resolve_mood_angry (mood : string) :
  resolve_mood mood = "angry"%string <-> mood = "angry"%string.
Proof.
  unfold resolve_mood, dict_mem. split.
  - destruct (dict_get MOOD_PARAMS mood); [tauto | discriminate].
  - intros ->. reflexivity.
Qed.

(** Comparing [n]-th powers of non-negative numbers. *)
Lemma pow_lt_cancel (n : nat) (a b : R) : 0 <= b -> a ^ n < b ^ n -> a < b.
Proof.
  intros Hb Hlt. apply Rnot_le_lt. intro Hle.
  apply (Rlt_not_le _ _ Hlt).
  destruct (Rle_or_lt 0 a) as [Ha | Ha].
  - apply pow_incr. split; assumption.
  - lra.
Qed.

Lemma pow_lt_cancel_pos (n : nat) (a b : R) : 0 <= a -> 0 <= b -> a ^ n < b ^ n -> a < b.
Proof.
  intros Ha Hb Hlt. apply Rnot_le_lt. intro Hle.
  apply (Rlt_not_le _ _ Hlt). apply pow_incr. split; assumption.
Qed.

Lemma Rpower_10_pos (x : R) : 0 < Rpower 10 x.
Proof. unfold Rpower. apply exp_pos. Qed.

(** [(10 ** (p/q)) ^ q = 10 ^ p] *)
Lemma Rpower_10_root (p q : nat) :
  (0 < q)%nat -> Rpower 10 (INR p / INR q) ^ q = 10 ^ p.
Proof.
  intro Hq.
  rewrite <- Rpower_pow by apply Rpower_10_pos.
  rewrite Rpower_mult.
  replace (INR p / INR q * INR q) with (INR p).
  - apply Rpower_pow. lra.
  - field. apply not_0_INR. lia.
Qed.

(** Upbeat at intensity 3 applies 0.75 dB: the 80th power of the gain is
    1000. *)
Lemma gain_lin_upbeat_3_pow : gain_lin "upbeat" 3 ^ 80 = 1000.
Proof.
  unfold gain_lin, gain_max. rewrite mood_params_upbeat. simpl snd.
  replace (1.5 * factor 3 / 20) with (INR 3 / INR 80).
  - rewrite Rpower_10_root by lia. lra.
  - unfold factor, clamp_intensity. rewrite !INR_IZR_INZ. simpl. lra.
Qed.

(** Upbeat at intensity 5 applies the full 1.5 dB. *)
Lemma gain_lin_upbeat_5_pow : gain_lin "upbeat" 5 ^ 40 = 1000.
Proof.
  unfold gain_lin, gain_max. rewrite mood_params_upbeat. simpl snd.
  replace (1.5 * factor 5 / 20) with (INR 3 / INR 40).
  - rewrite Rpower_10_root by lia. lra.
  - unfold factor, clamp_intensity. rewrite !INR_IZR_INZ. simpl. lra.
Qed.

Lemma gain_lin_pos (mood : string) (i : Z) : 0 < gain_lin mood i.
Proof. apply Rpower_10_pos. Qed.

Lemma gain_lin_upbeat_3_bounds : 1.0901 < gain_lin "upbeat" 3 < 1.0902.
Proof.
  pose proof (gain_lin_pos "upbeat" 3) as Hpos.
  pose proof gain_lin_upbeat_3_pow as Hpow.
  split; apply (pow_lt_cancel_pos 80); try lra; rewrite Hpow; lra.
Qed.

Lemma gain_lin_upbeat_5_bounds : 1.188 < gain_lin "upbeat" 5 < 1.189.
Proof.
  pose proof (gain_lin_pos "upbeat" 5) as Hpos.
  pose proof gain_lin_upbeat_5_pow as Hpow.
  split; apply (pow_lt_cancel_pos 40); try lra; rewrite Hpow; lra.
Qed.

(** C5.  For every integer intensity (the factor does not depend on the
    mood), [factor = (clamp(intensity,1,5) - 1) / 4] lies in [0,1] and is
    non-decreasing in the intensity; for mood "angry" at intensity 5 the
    factor is 1, the clip threshold is 0.70 and the distortion stage is
    the soft clip at that threshold. *)
Theorem factor_in_unit_interval_and_monotone :
  (forall i : Z, factor i = IZR (Z.max 1 (Z.min 5 i) - 1) / 4 /\ 0 <= factor i <= 1) /\
  (forall i j : Z, (i <= j)%Z -> factor i <= factor j) /\
  factor 5 = 1 /\
  clip_threshold 5 = 0.7 /\
  (forall y : list R,
      angry_stage (resolve_mood "angry") 5 y = soft_clip 0.7 y).
Proof.
  assert (F5 : factor 5 = 1) by (unfold factor, clamp_intensity; simpl; lra).
  assert (C5 : clip_threshold 5 = 0.7) by (unfold clip_threshold; rewrite F5; lra).
  repeat split.
  - apply factor_range.
  - apply factor_range.
  - apply factor_mono.
  - exact F5.
  - exact C5.
  - intro y. unfold angry_stage. simpl String.eqb.
    destruct (Rlt_dec 0.2 (factor 5)) as [_ | Hn].
    + rewrite C5. reflexivity.
    + exfalso. apply Hn. rewrite F5. lra.
Qed.

Lemma factor_in_unit_interval_and_monotone_witness :
  (2 <= 4)%Z /\ factor 2 <= factor 4.
Proof.
  split.
  - lia.
  - apply (proj1 (proj2 factor_in_unit_interval_and_monotone) 2%Z 4%Z). lia.
Defined.

(** C6, as the specification states it: the gain for upbeat at intensity 3
    is not 1.19 to two decimals. *)
Lemma upbeat_3_gain_is_not_1_19 :
  ~ (factor 3 = 0.5 /\
     n_steps "upbeat" 3 = 1.25 /\
     rate "upbeat" 3 = 1.09 /\
     Rabs (gain_lin "upbeat" 3 - 1.19) <= 0.005).
Proof.
  intros (_ & _ & _ & H).
  pose proof gain_lin_upbeat_3_bounds as [Hlo Hhi].
  unfold Rabs in H. destruct (Rcase_abs (gain_lin "upbeat" 3 - 1.19)); lra.
Qed.

(** C6, amended.  For mood "upbeat" at intensity 3: factor = 0.5,
    pitchSteps = 2.5 * 0.5 = 1.25, speedRate = 1 + 0.18 * 0.5 = 1.09 and
    gainLinear = 10^(1.5 * 0.5 / 20), which is 1.0902 to four decimals
    (about 1.09); 1.19 is the gain of the full 1.5 dB, reached at
    intensity 5. *)
Theorem upbeat_3_parameters :
  factor 3 = 0.5 /\
  n_steps "upbeat" 3 = pitch_max "upbeat" * factor 3 /\
  n_steps "upbeat" 3 = 1.25 /\
  rate "upbeat" 3 = 1 + (speed_max "upbeat" - 1) * factor 3 /\
  rate "upbeat" 3 = 1.09 /\
  gain_lin "upbeat" 3 = Rpower 10 (gain_max "upbeat" * factor 3 / 20) /\
  gain_lin "upbeat" 3 = Rpower 10 0.0375 /\
  1.0901 < gain_lin "upbeat" 3 < 1.0902 /\
  1.188 < gain_lin "upbeat" 5 < 1.189.
Proof.
  assert (F3 : factor 3 = 0.5) by (unfold factor, clamp_intensity; simpl; lra).
  repeat split.
  - exact F3.
  - unfold n_steps, pitch_max. rewrite mood_params_upbeat, F3. simpl. lra.
  - unfold rate, speed_max. rewrite mood_params_upbeat, F3. simpl. lra.
  - unfold gain_lin, gain_max. rewrite mood_params_upbeat, F3. simpl. f_equal. lra.
  - apply gain_lin_upbeat_3_bounds.
  - apply gain_lin_upbeat_3_bounds.
  - apply gain_lin_upbeat_5_bounds.
  - apply gain_lin_upbeat_5_bounds.
Qed.

End ParamFacts.

(** * Properties of the effect chain *)

Module ChainFacts.

Import AudioProcessing ParamFacts.

(** ** Peaks *)

Lemma max_abs_from_ge (y : list R) (m : R) : m <= max_abs_from m y.
Proof.
  revert m. induction y as [| s y IH]; intro m; simpl.
  - lra.
  - apply Rle_trans with (Rmax m (Rabs s)); [apply Rmax_l | apply IH].
Qed.

Lemma max_abs_from_In (y : list R) (m s : R) : In s y -> Rabs s <= max_abs_from m y.
Proof.
  revert m. induction y as [| a y IH]; intros m Hin; simpl in *.
  - contradiction.
  - destruct Hin as [-> | Hin].
    + apply Rle_trans with (Rmax m (Rabs s)); [apply Rmax_r | apply max_abs_from_ge].
    + apply IH. exact Hin.
Qed.

Lemma max_abs_from_le (y : list R) (m b : R) :
  m <= b -> Forall (fun s => Rabs s <= b) y -> max_abs_from m y <= b.
Proof.
  revert m. induction y as [| a y IH]; intros m Hm Hall; simpl.
  - exact Hm.
  - inversion Hall as [| ? ? Ha Hy]; subst.
    apply IH; [apply Rmax_lub; assumption | exact Hy].
Qed.

Lemma max_abs_from_scale (c : R) (y : list R) (m : R) :
  0 <= c -> max_abs_from (m * c) (scale c y) = max_abs_from m y * c.
Proof.
  intro Hc. revert m. induction y as [| a y IH]; intro m; simpl.
  - reflexivity.
  - rewrite <- IH. f_equal.
    rewrite Rabs_mult, (Rabs_pos_eq c Hc).
    rewrite !(Rmult_comm _ c). apply RmaxRmult. exact Hc.
Qed.

Lemma peak_of_nonneg (y : list R) : 0 <= peak_of y.
Proof. apply max_abs_from_ge. Qed.

Lemma peak_of_scale (c : R) (y : list R) : 0 <= c -> peak_of (scale c y) = peak_of y * c.
Proof.
  intro Hc. unfold peak_of.
  rewrite <- max_abs_from_scale by exact Hc. f_equal. lra.
Qed.

(** On a non-empty buffer [np.max(np.abs(y))] is the peak. *)
Lemma np_max_abs_peak (y : list R) : y <> [] -> np_max_abs y = Ok (peak_of y).
Proof.
  destruct y as [| s y]; [congruence | intros _].
  unfold np_max_abs, peak_of. simpl. f_equal. f_equal.
  symmetry. apply Rmax_right. apply Rabs_pos.
Qed.

Lemma np_max_abs_Ok (y : list R) (peak : R) :
  np_max_abs y = Ok peak -> y <> [] /\ peak = peak_of y.
Proof.
  intro H. destruct y as [| s y]; [discriminate |].
  split; [discriminate |].
  rewrite np_max_abs_peak in H by discriminate. congruence.
Qed.

Lemma np_max_abs_empty (y : list R) : np_max_abs y = Raise ValueError <-> y = [].
Proof.
  destruct y; simpl; split; intro H; try reflexivity; discriminate.
Qed.

Lemma scale_1 (y : list R) : scale 1 y = y.
Proof.
  unfold scale. rewrite <- (map_id y) at 2.
  apply map_ext. intro s. lra.
Qed.

Lemma scale_length (c : R) (y : list R) : List.length (scale c y) = List.length y.
Proof. apply length_map. Qed.

(** ** The normalisation stage *)

Lemma normalize_stage_quiet (peak : R) (y : list R) :
  peak <= 0.98 -> normalize_stage peak y = y.
Proof.
  intro H. unfold normalize_stage.
  destruct (Rlt_dec 0.98 peak); [lra | reflexivity].
Qed.

Lemma normalize_stage_loud (peak : R) (y : list R) :
  0.98 < peak -> normalize_stage peak y = scale (0.95 / peak) y.
Proof.
  intro H. unfold normalize_stage.
  destruct (Rlt_dec 0.98 peak); [reflexivity | contradiction].
Qed.

Lemma normalize_stage_length (peak : R) (y : list R) :
  List.length (normalize_stage peak y) = List.length y.
Proof.
  unfold normalize_stage. destruct (Rlt_dec 0.98 peak).
  - apply scale_length.
  - reflexivity.
Qed.

(** After the stage the peak is 0.95 if it was above 0.98, and unchanged
    otherwise. *)
Lemma normalize_stage_peak (y : list R) :
  peak_of (normalize_stage (peak_of y) y) =
  if Rlt_dec 0.98 (peak_of y) then 0.95 else peak_of y.
Proof.
  unfold normalize_stage.
  destruct (Rlt_dec 0.98 (peak_of y)) as [Hgt | Hle].
  - rewrite peak_of_scale.
    + field. lra.
    + apply Rlt_le. apply Rdiv_lt_0_compat; lra.
  - reflexivity.
Qed.

Lemma normalize_stage_bounded (y : list R) :
  peak_of (normalize_stage (peak_of y) y) <= 0.98.
Proof.
  rewrite normalize_stage_peak.
  destruct (Rlt_dec 0.98 (peak_of y)); lra.
Qed.

(** ** The resampling stage *)

Lemma resample_stage_sr (L : librosa) (sr : Z) (y : list R) :
  snd (resample_stage L sr y) = TARGET_SR.
Proof.
  unfold resample_stage.
  destruct (Z.eqb sr TARGET_SR) eqn:E; simpl.
  - apply Z.eqb_eq. exact E.
  - reflexivity.
Qed.

Lemma resample_stage_same_rate (L : librosa) (y : list R) :
  resample_stage L TARGET_SR y = (y, TARGET_SR).
Proof. reflexivity. Qed.

Lemma finish_Ok (L : librosa) (sr : Z) (y : list R) :
  y <> [] ->
  finish L sr y =
  Ok (mk_wav (fst (resample_stage L sr (normalize_stage (peak_of y) y)))
             TARGET_SR BIT_DEPTH).
Proof.
  intro Hne. unfold finish. rewrite (np_max_abs_peak y Hne).
  pose proof (resample_stage_sr L sr (normalize_stage (peak_of y) y)) as Hsr.
  destruct (resample_stage L sr (normalize_stage (peak_of y) y)) as [y' sr'].
  simpl in *. subst sr'. reflexivity.
Qed.

Lemma finish_empty (L : librosa) (sr : Z) : finish L sr [] = Raise ValueError.
Proof. reflexivity. Qed.

(** ** Mood "normal" *)

Lemma n_steps_normal (i : Z) : n_steps "normal" i = 0.
Proof. unfold n_steps, pitch_max. rewrite mood_params_normal. simpl. lra. Qed.

Lemma rate_normal (i : Z) : rate "normal" i = 1.
Proof. unfold rate, speed_max. rewrite mood_params_normal. simpl. lra. Qed.

Lemma gain_lin_normal (i : Z) : gain_lin "normal" i = 1.
Proof.
  unfold gain_lin, gain_max. rewrite mood_params_normal. simpl snd.
  replace (0 * factor i / 20) with 0 by lra.
  apply Rpower_O. lra.
Qed.

Lemma after_distortion_normal (L : librosa) (y : list R) (sr i : Z) :
  after_distortion L y sr "normal" i = y.
Proof.
  unfold after_distortion, after_gain.
  change (resolve_mood "normal") with "normal"%string.
  unfold angry_stage. simpl String.eqb.
  unfold gain_stage, speed_stage, pitch_stage.
  rewrite gain_lin_normal, rate_normal, n_steps_normal, scale_1.
  destruct (Rlt_dec 0.005 (Rabs (1 - 1))) as [H | _].
  { exfalso. replace (1 - 1) with 0 in H by lra. rewrite Rabs_R0 in H. lra. }
  destruct (Rlt_dec 0.01 (Rabs 0)) as [H | _].
  { exfalso. rewrite Rabs_R0 in H. lra. }
  reflexivity.
Qed.

Lemma apply_mood_normal (L : librosa) (y : list R) (sr i : Z) :
  apply_mood L y sr "normal" i = finish L sr y.
Proof. unfold apply_mood. rewrite after_distortion_normal. reflexivity. Qed.

Lemma peak_of_In (y : list R) (s : R) : In s y -> Rabs s <= peak_of y.
Proof. apply max_abs_from_In. Qed.

(** ** The chain as normalisation followed by resampling *)

Lemma apply_mood_after_normalize (L : librosa) (y : list R) (sr : Z) (mood : string) (i : Z) :
  apply_mood L y sr mood i =
  match after_normalize L y sr mood i with
  | Raise e => Raise e
  | Ok buf => Ok (mk_wav (fst (resample_stage L sr buf)) TARGET_SR BIT_DEPTH)
  end.
Proof.
  unfold apply_mood, after_normalize, finish.
  destruct (np_max_abs (after_distortion L y sr mood i)) as [peak | e]; [| reflexivity].
  pose proof (resample_stage_sr L sr
                (normalize_stage peak (after_distortion L y sr mood i))) as Hsr.
  destruct (resample_stage L sr _) as [y' sr']. simpl in *. subst sr'. reflexivity.
Qed.

Lemma after_normalize_Ok (L : librosa) (y : list R) (sr : Z) (mood : string) (i : Z)
    (buf : list R) :
  after_normalize L y sr mood i = Ok buf ->
  after_distortion L y sr mood i <> [] /\
  buf = normalize_stage (peak_of (after_distortion L y sr mood i))
                        (after_distortion L y sr mood i).
Proof.
  unfold after_normalize. intro H.
  destruct (np_max_abs (after_distortion L y sr mood i)) as [peak |] eqn:E;
    [| discriminate].
  apply np_max_abs_Ok in E. destruct E as [Hne ->].
  split; [exact Hne | congruence].
Qed.

(** C2.  The emitted buffer can have a peak above 0.98: the chain
    normalises before it resamples.  One period of a quarter-rate tone with
    samples of magnitude 0.95, at 22050 Hz, passes the normalisation stage
    untouched (0.95 is not above 0.98) and is then resampled to 44100 Hz;
    the interpolated sample between the two 0.95 samples is 1.1875 with
    the interpolator [upsample2].  [normalize_wav] and [_generate_espeak]
    resample first and take the peak afterwards. *)
Lemma resampled_output_exceeds_peak_limit :
  exists out : wav,
    apply_mood interp_librosa [-0.95; 0.95; 0.95; -0.95] 22050 "normal" 3 = Ok out /\
    0.98 < peak_of (wav_samples out).
Proof.
  eexists. split.
  - rewrite apply_mood_normal, finish_Ok by discriminate. reflexivity.
  - cbn [wav_samples].
    rewrite normalize_stage_quiet.
    2:{ apply max_abs_from_le; [lra |].
        repeat constructor; unfold Rabs; destruct (Rcase_abs _); lra. }
    apply Rlt_le_trans with (Rabs ((- -0.95 + 9 * 0.95 + 9 * 0.95 - -0.95) / 16)).
    + unfold Rabs. destruct (Rcase_abs _); lra.
    + apply peak_of_In.
      cbn [resample_stage interp_librosa resample upsample2 interp4 fst].
      change (Z.eqb 22050 TARGET_SR) with false. cbn [fst interp4 upsample2].
      right. right. right. left. reflexivity.
Qed.

(** What the normalisation stage does guarantee.  The buffer after the
    stage has peak at
    most 0.98: the stage takes [peak = max |sample|], scales by
    [0.95 / peak] exactly when [peak > 0.98] (the peak is then 0.95) and
    changes nothing otherwise.  The emitted buffer is that buffer,
    resampled when the input rate is not 44100 Hz; when the input rate is
    44100 Hz its peak is at most 0.98. *)
Theorem peak_bounded_after_normalization
    (L : librosa) (y : list R) (sr : Z) (mood : string) (i : Z) :
  let pre := after_distortion L y sr mood i in
  (forall buf : list R,
      after_normalize L y sr mood i = Ok buf ->
      np_max_abs pre = Ok (peak_of pre) /\
      peak_of buf <= 0.98 /\
      (0.98 < peak_of pre -> buf = scale (0.95 / peak_of pre) pre /\ peak_of buf = 0.95) /\
      (peak_of pre <= 0.98 -> buf = pre)) /\
  (forall out : wav,
      apply_mood L y sr mood i = Ok out ->
      exists buf : list R,
        after_normalize L y sr mood i = Ok buf /\
        wav_samples out = fst (resample_stage L sr buf)) /\
  (forall out : wav,
      sr = TARGET_SR ->
      apply_mood L y sr mood i = Ok out ->
      peak_of (wav_samples out) <= 0.98).
Proof.
  intro pre. split; [| split].
  - intros buf H. apply after_normalize_Ok in H. fold pre in H.
    destruct H as [Hne ->].
    split; [apply np_max_abs_peak; exact Hne |].
    split; [apply normalize_stage_bounded |].
    split.
    + intro Hgt. split.
      * apply normalize_stage_loud. exact Hgt.
      * rewrite normalize_stage_peak.
        destruct (Rlt_dec 0.98 (peak_of pre)); [reflexivity | contradiction].
    + apply normalize_stage_quiet.
  - intros out H. rewrite apply_mood_after_normalize in H.
    destruct (after_normalize L y sr mood i) as [buf |]; [| discriminate].
    exists buf. split; [reflexivity |].
    injection H as <-. reflexivity.
  - intros out -> H. rewrite apply_mood_after_normalize in H.
    destruct (after_normalize L y TARGET_SR mood i) as [buf |] eqn:E; [| discriminate].
    injection H as <-.
    change (peak_of buf <= 0.98).
    apply after_normalize_Ok in E. destruct E as [_ ->].
    apply normalize_stage_bounded.
Qed.

Lemma peak_bounded_after_normalization_witness :
  TARGET_SR = TARGET_SR /\
  apply_mood interp_librosa [1] TARGET_SR "normal" 3 =
    Ok (mk_wav (fst (resample_stage interp_librosa TARGET_SR
                       (normalize_stage (peak_of [1]) [1])))
               TARGET_SR BIT_DEPTH) /\
  peak_of (wav_samples
             (mk_wav (fst (resample_stage interp_librosa TARGET_SR
                             (normalize_stage (peak_of [1]) [1])))
                     TARGET_SR BIT_DEPTH)) <= 0.98.
Proof.
  assert (H : apply_mood interp_librosa [1] TARGET_SR "normal" 3 =
              Ok (mk_wav (fst (resample_stage interp_librosa TARGET_SR
                                 (normalize_stage (peak_of [1]) [1])))
                         TARGET_SR BIT_DEPTH)).
  { rewrite apply_mood_normal. apply finish_Ok. discriminate. }
  split; [reflexivity |]. split; [exact H |].
  exact (proj2 (proj2 (peak_bounded_after_normalization
                         interp_librosa [1] TARGET_SR "normal" 3))
               _ eq_refl H).
Defined.

Lemma peak_of_one : peak_of [1] = 1.
Proof.
  unfold peak_of. simpl. rewrite Rabs_R1. apply Rmax_right. lra.
Qed.

Lemma fst_resample_stage (L : librosa) (sr : Z) (y : list R) :
  fst (resample_stage L sr y) =
  if Z.eqb sr 44100 then y else resample L y sr 44100.
Proof.
  unfold resample_stage. change TARGET_SR with 44100%Z.
  destruct (Z.eqb sr 44100); reflexivity.
Qed.

(** C3, as the specification states it: a "normal" buffer at 44100 Hz
    whose peak is 1 does not come out unchanged, it is scaled to 0.95. *)
Lemma normal_mood_rescales_loud_input :
  apply_mood interp_librosa [1] 44100 "normal" 3 = Ok (mk_wav [0.95] 44100 PCM_16) /\
  apply_mood interp_librosa [1] 44100 "normal" 3 <> Ok (mk_wav [1] 44100 PCM_16).
Proof.
  assert (H : apply_mood interp_librosa [1] 44100 "normal" 3 =
              Ok (mk_wav [0.95] 44100 PCM_16)).
  { rewrite apply_mood_normal, finish_Ok by discriminate.
    rewrite fst_resample_stage. simpl Z.eqb. cbv iota.
    rewrite peak_of_one, normalize_stage_loud by lra.
    unfold scale. simpl map. do 2 f_equal. f_equal. lra. }
  split; [exact H |].
  rewrite H. intro E. injection E as E. lra.
Qed.

(** C3, amended.  For mood "normal" and every intensity, pitchSteps = 0,
    speedRate = 1 and gainLinear = 1, and the pitch, time-stretch, gain and
    distortion stages leave the buffer as it is.  The peak normalisation
    still runs: the samples are unchanged when the input peak is at most
    0.98 and are scaled by [0.95 / peak] otherwise; the length is that of
    the input until the rate conversion, which happens only when the input
    rate is not 44100 Hz. *)
Theorem normal_mood_only_normalizes (L : librosa) (y : list R) (sr i : Z) :
  n_steps "normal" i = 0 /\
  rate "normal" i = 1 /\
  gain_lin "normal" i = 1 /\
  after_distortion L y sr "normal" i = y /\
  (y <> [] ->
   exists buf : list R,
     after_normalize L y sr "normal" i = Ok buf /\
     List.length buf = List.length y /\
     (peak_of y <= 0.98 -> buf = y) /\
     (0.98 < peak_of y -> buf = scale (0.95 / peak_of y) y) /\
     apply_mood L y sr "normal" i =
       Ok (mk_wav (if Z.eqb sr 44100 then buf else resample L buf sr 44100)
                  44100 PCM_16)).
Proof.
  split; [apply n_steps_normal |].
  split; [apply rate_normal |].
  split; [apply gain_lin_normal |].
  split; [apply after_distortion_normal |].
  intro Hne.
  exists (normalize_stage (peak_of y) y).
  split.
  { unfold after_normalize. rewrite after_distortion_normal.
    rewrite (np_max_abs_peak y Hne). reflexivity. }
  split; [apply normalize_stage_length |].
  split; [apply normalize_stage_quiet |].
  split; [apply normalize_stage_loud |].
  rewrite apply_mood_normal, (finish_Ok L sr y Hne), fst_resample_stage.
  reflexivity.
Qed.

Lemma normal_mood_only_normalizes_witness :
  [1] <> [] /\
  exists buf : list R,
    after_normalize interp_librosa [1] 22050 "normal" 3 = Ok buf /\
    List.length buf = List.length [1] /\
    (peak_of [1] <= 0.98 -> buf = [1]) /\
    (0.98 < peak_of [1] -> buf = scale (0.95 / peak_of [1]) [1]) /\
    apply_mood interp_librosa [1] 22050 "normal" 3 =
      Ok (mk_wav (if Z.eqb 22050 44100 then buf
                  else resample interp_librosa buf 22050 44100)
                 44100 PCM_16).
Proof.
  split.
  - discriminate.
  - apply (proj2 (proj2 (proj2 (proj2
             (normal_mood_only_normalizes interp_librosa [1] 22050 3))))).
    discriminate.
Defined.

(** ** The distortion stage *)

Lemma angry_stage_applied (i : Z) (y : list R) :
  0.2 < factor i ->
  angry_stage "angry" i y = soft_clip (clip_threshold i) y.
Proof.
  intro H. unfold angry_stage. simpl String.eqb.
  destruct (Rlt_dec 0.2 (factor i)); [reflexivity | contradiction].
Qed.

Lemma angry_stage_skipped (mood : string) (i : Z) (y : list R) :
  ~ (mood = "angry"%string /\ 0.2 < factor i) ->
  angry_stage mood i y = y.
Proof.
  intro H. unfold angry_stage.
  destruct (String.eqb mood "angry") eqn:E; [| reflexivity].
  destruct (Rlt_dec 0.2 (factor i)) as [Hf | _]; [| reflexivity].
  exfalso. apply H. split; [apply String.eqb_eq; exact E | exact Hf].
Qed.

Lemma after_distortion_skipped (L : librosa) (y : list R) (sr : Z) (mood : string) (i : Z) :
  ~ (mood = "angry"%string /\ 0.2 < factor i) ->
  after_distortion L y sr mood i = after_gain L y sr mood i.
Proof.
  intro H. unfold after_distortion. apply angry_stage_skipped.
  intros [Hm Hf]. apply H. split; [apply resolve_mood_angry; exact Hm | exact Hf].
Qed.

(** C4.  The soft clip is applied if and only if the mood is "angry" and
    [factor > 0.2] (intensity 2 or more).  In that case [apply_mood] is the
    rest of the chain (normalise, resample, write) run on the soft-clipped
    buffer: every sample [s] of the buffer that left the gain stage is
    replaced by [tanh (s / clipThreshold) * clipThreshold] with
    [clipThreshold = 0.85 - 0.15 * factor].  In every other case, and in
    particular whenever [factor <= 0.2], the chain gives what it gives
    with the distortion stage removed. *)
Theorem soft_clip_iff_angry_and_factor_above_02
    (L : librosa) (y : list R) (sr : Z) (mood : string) (i : Z) :
  (mood = "angry"%string /\ 0.2 < factor i ->
     clip_threshold i = 0.85 - 0.15 * factor i /\
     after_distortion L y sr mood i =
       map (fun s => tanh (s / clip_threshold i) * clip_threshold i)
           (after_gain L y sr mood i) /\
     apply_mood L y sr mood i =
       finish L sr (soft_clip (clip_threshold i) (after_gain L y sr mood i)) /\
     apply_mood L y sr mood i =
       finish L sr
         (map (fun s => tanh (s / (0.85 - 0.15 * factor i)) * (0.85 - 0.15 * factor i))
              (gain_stage "angry" i
                 (speed_stage L "angry" i (pitch_stage L "angry" i sr y))))) /\
  (~ (mood = "angry"%string /\ 0.2 < factor i) ->
     after_distortion L y sr mood i = after_gain L y sr mood i /\
     apply_mood L y sr mood i = apply_mood_without_distortion L y sr mood i) /\
  (factor i <= 0.2 ->
     apply_mood L y sr mood i = apply_mood_without_distortion L y sr mood i) /\
  (apply_mood L y sr mood i <> apply_mood_without_distortion L y sr mood i ->
     mood = "angry"%string /\ 0.2 < factor i) /\
  (0.2 < factor i <-> (2 <= i)%Z).
Proof.
  assert (Hskip : ~ (mood = "angry"%string /\ 0.2 < factor i) ->
                  apply_mood L y sr mood i = apply_mood_without_distortion L y sr mood i).
  { intro H. unfold apply_mood, apply_mood_without_distortion.
    rewrite after_distortion_skipped by exact H. reflexivity. }
  split; [| split; [| split; [| split]]].
  - intros [-> Hf].
    assert (Hd : after_distortion L y sr "angry" i =
                 soft_clip (clip_threshold i) (after_gain L y sr "angry" i)).
    { unfold after_distortion.
      change (resolve_mood "angry") with "angry"%string.
      apply angry_stage_applied. exact Hf. }
    split; [reflexivity |].
    split; [rewrite Hd; reflexivity |].
    split; unfold apply_mood; rewrite Hd; reflexivity.
  - intro H. split; [apply after_distortion_skipped; exact H | apply Hskip; exact H].
  - intro Hf. apply Hskip. intros [_ Hgt]. lra.
  - intro Hdiff.
    destruct (string_dec mood "angry") as [Hm | Hm].
    + destruct (Rlt_dec 0.2 (factor i)) as [Hf | Hf].
      * split; assumption.
      * exfalso. apply Hdiff, Hskip. tauto.
    + exfalso. apply Hdiff, Hskip. tauto.
  - apply factor_gt_02.
Qed.

Lemma soft_clip_iff_angry_and_factor_above_02_witness :
  ("angry"%string = "angry"%string /\ 0.2 < factor 5) /\
  clip_threshold 5 = 0.85 - 0.15 * factor 5 /\
  after_distortion interp_librosa [1] 44100 "angry" 5 =
    map (fun s => tanh (s / clip_threshold 5) * clip_threshold 5)
        (after_gain interp_librosa [1] 44100 "angry" 5) /\
  apply_mood interp_librosa [1] 44100 "angry" 5 =
    finish interp_librosa 44100
      (soft_clip (clip_threshold 5) (after_gain interp_librosa [1] 44100 "angry" 5)) /\
  apply_mood interp_librosa [1] 44100 "angry" 5 =
    finish interp_librosa 44100
      (map (fun s => tanh (s / (0.85 - 0.15 * factor 5)) * (0.85 - 0.15 * factor 5))
           (gain_stage "angry" 5
              (speed_stage interp_librosa "angry" 5
                 (pitch_stage interp_librosa "angry" 5 44100 [1])))).
Proof.
  assert (H : "angry"%string = "angry"%string /\ 0.2 < factor 5).
  { split; [reflexivity |]. apply factor_gt_02. lia. }
  split; [exact H |].
  exact (proj1 (soft_clip_iff_angry_and_factor_above_02
                  interp_librosa [1] 44100 "angry" 5) H).
Defined.

(** ** Output format *)

Lemma finish_format (L : librosa) (sr : Z) (y : list R) (out : wav) :
  finish L sr y = Ok out -> wav_sr out = 44100%Z /\ wav_subtype out = PCM_16.
Proof.
  intro H.
  destruct y as [| s y]; [discriminate |].
  rewrite finish_Ok in H by discriminate.
  injection H as <-. split; reflexivity.
Qed.

Lemma normalize_wav_Ok (L : librosa) (y : list R) (sr : Z) :
  let y' := if Z.eqb sr TARGET_SR then y else resample L y sr TARGET_SR in
  y' <> [] ->
  normalize_wav L y sr = Ok (mk_wav (scale_to_peak 0.9 (peak_of y') y') 44100 PCM_16).
Proof.
  intros y' Hne. unfold normalize_wav. fold y'.
  rewrite (np_max_abs_peak y' Hne). reflexivity.
Qed.

(** C9.  Whatever the input rate, a file written by the effect chain or by
    the reference-import normalisation has sample rate 44100 Hz and subtype
    16-bit PCM; each path writes a file exactly when the buffer that
    reaches its peak computation is not empty (NumPy raises on an empty
    one). *)
Theorem output_is_44100_pcm16
    (L : librosa) (y : list R) (sr : Z) (mood : string) (i : Z) :
  (forall out : wav,
      apply_mood L y sr mood i = Ok out ->
      wav_sr out = 44100%Z /\ wav_subtype out = PCM_16) /\
  (forall out : wav,
      normalize_wav L y sr = Ok out ->
      wav_sr out = 44100%Z /\ wav_subtype out = PCM_16) /\
  (after_distortion L y sr mood i <> [] <->
     exists out : wav, apply_mood L y sr mood i = Ok out) /\
  ((if Z.eqb sr 44100 then y else resample L y sr 44100) <> [] <->
     exists out : wav, normalize_wav L y sr = Ok out).
Proof.
  split; [| split; [| split]].
  - intros out H. apply (finish_format L sr _ out H).
  - intros out H. unfold normalize_wav in H.
    destruct (np_max_abs _) in H; [| discriminate].
    injection H as <-. split; reflexivity.
  - split.
    + intro Hne. unfold apply_mood. rewrite finish_Ok by exact Hne. eexists. reflexivity.
    + intros [out H] E. unfold apply_mood in H. rewrite E in H. discriminate.
  - split.
    + intro Hne. rewrite normalize_wav_Ok by exact Hne. eexists. reflexivity.
    + intros [out H] E. unfold normalize_wav in H.
      change TARGET_SR with 44100%Z in H. rewrite E in H. discriminate.
Qed.

Lemma output_is_44100_pcm16_witness :
  apply_mood interp_librosa [1] 22050 "normal" 3 =
    Ok (mk_wav (fst (resample_stage interp_librosa 22050
                       (normalize_stage (peak_of [1]) [1])))
               TARGET_SR BIT_DEPTH) /\
  wav_sr (mk_wav (fst (resample_stage interp_librosa 22050
                         (normalize_stage (peak_of [1]) [1])))
                 TARGET_SR BIT_DEPTH) = 44100%Z /\
  wav_subtype (mk_wav (fst (resample_stage interp_librosa 22050
                              (normalize_stage (peak_of [1]) [1])))
                      TARGET_SR BIT_DEPTH) = PCM_16.
Proof.
  assert (H : apply_mood interp_librosa [1] 22050 "normal" 3 =
              Ok (mk_wav (fst (resample_stage interp_librosa 22050
                                 (normalize_stage (peak_of [1]) [1])))
                         TARGET_SR BIT_DEPTH)).
  { rewrite apply_mood_normal. apply finish_Ok. discriminate. }
  split; [exact H |].
  exact (proj1 (output_is_44100_pcm16 interp_librosa [1] 22050 "normal" 3) _ H).
Defined.

End ChainFacts.

(** * Properties of the engine life cycle *)

Module EngineFacts.

Import AudioProcessing ChainFacts TTSEngine.

(** ** Threads and load attempts *)

Lemma run_snoc (tr : list event) (ev : event) : run (tr ++ [ev]) = exec (run tr) ev.
Proof. unfold run. rewrite fold_left_app. reflexivity. Qed.

Lemma loaders_app (ts : list pc) (p : pc) : loaders (ts ++ [p]) = (loaders ts + is_InLoad p)%nat.
Proof.
  induction ts as [| t ts IH]; simpl.
  - destruct p; reflexivity.
  - destruct t; simpl; rewrite IH; reflexivity.
Qed.

Lemma loaders_set_pc (ts : list pc) (i : nat) (p q : pc) :
  nth_error ts i = Some p ->
  (loaders (set_pc i q ts) + is_InLoad p = loaders ts + is_InLoad q)%nat.
Proof.
  revert i. induction ts as [| t ts IH]; intros i H.
  - destruct i; discriminate.
  - destruct i as [| i]; simpl in H.
    + injection H as ->. simpl. destruct p, q; simpl; lia.
    + specialize (IH i H). simpl. destruct t; simpl; lia.
Qed.

Lemma inv_initial : inv initial.
Proof.
  split.
  - right. split; [discriminate | reflexivity].
  - intro H. exfalso. apply H. reflexivity.
Qed.

Lemma finish_load_status (env : load_env) (s : engine) :
  _status (finish_load env s) = ready \/ _status (finish_load env s) = error.
Proof.
  unfold finish_load. destruct (primary env); [left; reflexivity |].
  destruct (espeak_found env); [left | right]; reflexivity.
Qed.

Lemma inv_exec (sys : system) (ev : event) : inv sys -> inv (exec sys ev).
Proof.
  intros [Hload Hback]. destruct ev as [| i env]; simpl.
  - unfold inv. cbn [eng threads]. split; [| exact Hback].
    rewrite loaders_app. simpl. rewrite Nat.add_0_r. exact Hload.
  - destruct (nth_error (threads sys) i) as [[| |] |] eqn:E; try (split; assumption).
    + pose proof (loaders_set_pc _ i AtGuard Returned E) as HR.
      pose proof (loaders_set_pc _ i AtGuard InLoad E) as HL.
      simpl in HR, HL.
      unfold guard_returns.
      destruct (_status (eng sys)) eqn:S; unfold inv; cbn [eng threads].
      * split.
        -- left. split; [reflexivity |].
           destruct Hload as [[H _] | [_ H]]; [discriminate | lia].
        -- cbn. intro H. specialize (Hback H). discriminate.
      * rewrite S. split; [| exact Hback].
        destruct Hload as [[_ H] | [H _]]; [left; split; [reflexivity | lia] | congruence].
      * rewrite S. split; [| exact Hback].
        right. split; [discriminate |].
        destruct Hload as [[H _] | [_ H]]; [discriminate | lia].
      * split.
        -- left. split; [reflexivity |].
           destruct Hload as [[H _] | [_ H]]; [discriminate | lia].
        -- cbn. intro H. specialize (Hback H). discriminate.
    + pose proof (loaders_set_pc _ i InLoad Returned E) as HR. simpl in HR.
      unfold inv. cbn [eng threads].
      destruct Hload as [[HS HN] | [_ HN]]; [| lia].
      split.
      * right. split; [| lia].
        destruct (finish_load_status env (eng sys)) as [H | H]; rewrite H; discriminate.
      * unfold finish_load.
        destruct (primary env); [reflexivity |].
        destruct (espeak_found env); [reflexivity |].
        cbn. intro H. specialize (Hback H). congruence.
Qed.

Lemma inv_run (tr : list event) : inv (run tr).
Proof.
  induction tr as [| ev tr IH] using rev_ind.
  - apply inv_initial.
  - rewrite run_snoc. apply inv_exec. exact IH.
Qed.

Lemma inv_fold (tr : list event) (sys : system) : inv sys -> inv (fold_left exec tr sys).
Proof.
  revert sys. induction tr as [| ev tr IH]; intros sys H; simpl.
  - exact H.
  - apply IH, inv_exec, H.
Qed.

(** In the ready state no step changes the engine. *)
Lemma ready_exec (sys : system) (ev : event) :
  inv sys -> _status (eng sys) = ready -> eng (exec sys ev) = eng sys.
Proof.
  intros [Hload _] HS. destruct ev as [| i env]; simpl; [reflexivity |].
  destruct (nth_error (threads sys) i) as [[| |] |] eqn:E; try reflexivity.
  - unfold guard_returns. rewrite HS. reflexivity.
  - exfalso. pose proof (loaders_set_pc _ i InLoad Returned E) as HR. simpl in HR.
    destruct Hload as [[H _] | [_ H]]; [congruence | lia].
Qed.

Lemma ready_fold (tr : list event) (sys : system) :
  inv sys -> _status (eng sys) = ready -> eng (fold_left exec tr sys) = eng sys.
Proof.
  revert sys. induction tr as [| ev tr IH]; intros sys Hinv HS; simpl.
  - reflexivity.
  - pose proof (ready_exec sys ev Hinv HS) as He.
    rewrite IH.
    + exact He.
    + apply inv_exec. exact Hinv.
    + rewrite He. exact HS.
Qed.

(** In the error state the only step that changes the engine is the guard
    of a new [_load_model] call, which starts a load attempt. *)
Lemma error_exec (sys : system) (ev : event) :
  inv sys -> _status (eng sys) = error ->
  eng (exec sys ev) = eng sys \/
  (exists i env, ev = Run i env /\ nth_error (threads sys) i = Some AtGuard) /\
  eng (exec sys ev) = set_loading (eng sys).
Proof.
  intros [Hload _] HS. destruct ev as [| i env]; simpl; [left; reflexivity |].
  destruct (nth_error (threads sys) i) as [[| |] |] eqn:E; try (left; reflexivity).
  - right. unfold guard_returns. rewrite HS. split; [| reflexivity].
    exists i, env. split; [reflexivity | exact E].
  - exfalso. pose proof (loaders_set_pc _ i InLoad Returned E) as HR. simpl in HR.
    destruct Hload as [[H _] | [_ H]]; [congruence | lia].
Qed.

(** C1, as the specification states it: after a failed load with no
    espeak-ng the engine is in the terminal state Error, and a repeated
    [_load_model] call moves it back to Loading. *)
Lemma error_state_reenters_loading :
  terminal (eng (run [Call; Run 0 (mk_load_env (LoadFailed "no weights") false);
                      Run 0 (mk_load_env (LoadFailed "no weights") false)])) = true /\
  _status (eng (run [Call; Run 0 (mk_load_env (LoadFailed "no weights") false);
                     Run 0 (mk_load_env (LoadFailed "no weights") false);
                     Call; Run 1 (mk_load_env (LoadFailed "no weights") false)]))
  = loading.
Proof. split; reflexivity. Qed.

(** C1, amended.  In every execution from Idle, whatever the number and
    interleaving of [_load_model] calls: at most one load attempt is in
    progress, and one is exactly when the status is Loading; the attempt
    ends in exactly one of Ready(primary), Ready(fallback) and Error,
    decided by the outcome of the primary load and the presence of
    espeak-ng; once Ready, the engine never changes again.  Error is not
    final: the guard of [_load_model] returns for "ready" and "loading"
    only, so a later call starts a new load attempt from Error, and that is
    the only change possible there. *)
Theorem one_load_attempt_and_ready_is_final (tr : list event) :
  (loaders (threads (run tr)) <= 1)%nat /\
  (loaders (threads (run tr)) = 1%nat <-> _status (eng (run tr)) = loading) /\
  (forall (i : nat) (env : load_env),
      nth_error (threads (run tr)) i = Some InLoad ->
      _status (eng (run tr)) = loading /\
      match primary env, espeak_found env with
      | Loaded m, _ =>
          _status (eng (run (tr ++ [Run i env]))) = ready /\
          _backend (eng (run (tr ++ [Run i env]))) = Some xtts /\
          _tts (eng (run (tr ++ [Run i env]))) = Some m
      | LoadFailed e, true =>
          _status (eng (run (tr ++ [Run i env]))) = ready /\
          _backend (eng (run (tr ++ [Run i env]))) = Some espeak /\
          _error_msg (eng (run (tr ++ [Run i env]))) = Some e
      | LoadFailed e, false =>
          _status (eng (run (tr ++ [Run i env]))) = error /\
          _backend (eng (run (tr ++ [Run i env]))) = None /\
          _error_msg (eng (run (tr ++ [Run i env]))) = Some e
      end) /\
  (_status (eng (run tr)) = ready ->
   forall tr' : list event, eng (run (tr ++ tr')) = eng (run tr)) /\
  (_status (eng (run tr)) = error ->
   forall ev : event,
     eng (run (tr ++ [ev])) = eng (run tr) \/
     (exists i env, ev = Run i env /\ nth_error (threads (run tr)) i = Some AtGuard) /\
     eng (run (tr ++ [ev])) = set_loading (eng (run tr))).
Proof.
  pose proof (inv_run tr) as Hinv.
  destruct Hinv as [Hload Hback].
  split; [| split; [| split; [| split]]].
  - destruct Hload as [[_ H] | [_ H]]; lia.
  - split; intro H.
    + destruct Hload as [[HS _] | [_ HN]]; [exact HS | lia].
    + destruct Hload as [[_ HN] | [HS _]]; [exact HN | contradiction].
  - intros i env E.
    assert (HS : _status (eng (run tr)) = loading).
    { pose proof (loaders_set_pc _ i InLoad Returned E) as HR. simpl in HR.
      destruct Hload as [[HS _] | [_ HN]]; [exact HS | lia]. }
    split; [exact HS |].
    assert (HB : _backend (eng (run tr)) = None).
    { destruct (_backend (eng (run tr))) as [b |] eqn:B; [| reflexivity].
      assert (Hr : _status (eng (run tr)) = ready) by (apply Hback; discriminate).
      congruence. }
    rewrite run_snoc. simpl. rewrite E. cbn [eng]. unfold finish_load.
    destruct (primary env) as [m | e].
    + repeat split.
    + destruct (espeak_found env); cbn; repeat split. exact HB.
  - intros HS tr'. unfold run. rewrite fold_left_app.
    apply ready_fold; [apply inv_run | exact HS].
  - intros HS ev. rewrite run_snoc.
    apply error_exec; [apply inv_run | exact HS].
Qed.

Lemma one_load_attempt_and_ready_is_final_witness :
  _status (eng (run [Call; Run 0 (mk_load_env (Loaded (Model 1)) true);
                     Run 0 (mk_load_env (Loaded (Model 1)) true)])) = ready /\
  eng (run ([Call; Run 0 (mk_load_env (Loaded (Model 1)) true);
             Run 0 (mk_load_env (Loaded (Model 1)) true)]
            ++ [Call; Run 1 (mk_load_env (LoadFailed "late") false);
                Run 1 (mk_load_env (LoadFailed "late") false)]))
  = eng (run [Call; Run 0 (mk_load_env (Loaded (Model 1)) true);
              Run 0 (mk_load_env (Loaded (Model 1)) true)]).
Proof.
  split.
  - reflexivity.
  - apply (proj1 (proj2 (proj2 (proj2
             (one_load_attempt_and_ready_is_final
                [Call; Run 0 (mk_load_env (Loaded (Model 1)) true);
                 Run 0 (mk_load_env (Loaded (Model 1)) true)]))))).
    reflexivity.
Defined.

(** ** Normalisation to a target peak *)

Lemma peak_divisor_pos (peak d : R) : peak_divisor peak = Some d -> d = peak /\ 0 < d.
Proof.
  unfold peak_divisor. destruct (Rlt_dec 0 peak) as [H | H]; [| discriminate].
  intro E. injection E as <-. split; [reflexivity | exact H].
Qed.

Lemma peak_divisor_zero : peak_divisor 0 = None.
Proof.
  unfold peak_divisor. destruct (Rlt_dec 0 0) as [H | _]; [lra | reflexivity].
Qed.

Lemma scale_to_peak_zero (target : R) (y : list R) : scale_to_peak target 0 y = y.
Proof. unfold scale_to_peak. rewrite peak_divisor_zero. reflexivity. Qed.

Lemma scale_to_peak_pos (target peak : R) (y : list R) :
  0 < peak -> scale_to_peak target peak y = scale (target / peak) y.
Proof.
  intro H. unfold scale_to_peak, peak_divisor.
  destruct (Rlt_dec 0 peak); [reflexivity | contradiction].
Qed.

(** The peak after [scale_to_peak] is the target for a buffer that is not
    all zero, and 0 for one that is. *)
Lemma scale_to_peak_peak (target : R) (y : list R) :
  0 <= target ->
  peak_of (scale_to_peak target (peak_of y) y) =
  if Rlt_dec 0 (peak_of y) then target else 0.
Proof.
  intro Ht. pose proof (peak_of_nonneg y) as Hy.
  destruct (Rlt_dec 0 (peak_of y)) as [Hpos | Hz].
  - rewrite scale_to_peak_pos by exact Hpos.
    rewrite peak_of_scale.
    + field. lra.
    + apply Rmult_le_pos; [exact Ht |]. apply Rlt_le, Rinv_0_lt_compat, Hpos.
  - assert (E : peak_of y = 0) by lra.
    rewrite E at 1. rewrite scale_to_peak_zero. exact E.
Qed.

Lemma peak_of_silent (y : list R) : silent y -> peak_of y = 0.
Proof.
  intro H. apply Rle_antisym; [| apply peak_of_nonneg].
  apply max_abs_from_le; [lra |].
  unfold silent in H. eapply Forall_impl; [| exact H].
  intros s ->. rewrite Rabs_R0. lra.
Qed.

(** ** The fallback path *)

Section Fallback.

Variable L : librosa.
Variable tts_to_file : model -> string -> string -> string -> result wav.
Variable run_espeak : string -> string -> espeak_run.

Lemma _generate_espeak_Ok (text language : string) :
  returncode (run_espeak (espeak_voice language) text) = 0%Z ->
  espeak_buffer L run_espeak text language <> [] ->
  _generate_espeak L run_espeak text language =
  Ok (mk_wav (scale_to_peak 0.85 (peak_of (espeak_buffer L run_espeak text language))
                            (espeak_buffer L run_espeak text language))
             44100 PCM_16).
Proof.
  intros Hrc Hne. unfold _generate_espeak. rewrite Hrc. simpl negb. cbv iota.
  fold (espeak_buffer L run_espeak text language).
  rewrite (np_max_abs_peak _ Hne). reflexivity.
Qed.

Lemma ensure_ready_ready (env : load_env) (observe : nat -> engine) (s : engine) :
  _status s = ready -> ensure_ready env observe s = (Ok tt, s, O).
Proof.
  intro H. unfold ensure_ready, await. rewrite H.
  unfold check_ready. rewrite H. reflexivity.
Qed.

(** C7.  When the primary load fails with message [msg] and espeak-ng is
    present, the load attempt takes the engine from Loading to Ready with
    backend "espeak" and keeps [msg] as the error message.  A later
    [generate] passes [ensure_ready] without waiting and goes through
    [_generate_espeak]: when the espeak-ng process exits with code 0 and
    leaves a non-empty buffer [buf] (what espeak-ng wrote, resampled to
    44100 Hz when its rate differs), it returns a 44100 Hz 16-bit PCM file
    whose samples are [buf] scaled by [0.85 / peak buf] ([buf] itself when
    it is silent), so that its peak is at most 0.85 (exactly 0.85 unless
    the buffer is silent). *)
Theorem fallback_is_selected_and_used
    (s : engine) (msg : string)
    (env' : load_env) (observe : nat -> engine)
    (text speaker_wav language : string) :
  guard_returns s = false ->
  returncode (run_espeak (espeak_voice language) text) = 0%Z ->
  espeak_buffer L run_espeak text language <> [] ->
  let env := mk_load_env (LoadFailed msg) true in
  let s' := _load_model env s in
  _status (set_loading s) = loading /\
  s' = finish_load env (set_loading s) /\
  _status s' = ready /\
  _backend s' = Some espeak /\
  _error_msg s' = Some msg /\
  exists out : wav,
    generate L tts_to_file run_espeak env' observe s' text speaker_wav language
      = (Ok out, s') /\
    _generate_espeak L run_espeak text language = Ok out /\
    wav_sr out = 44100%Z /\
    wav_subtype out = PCM_16 /\
    peak_of (wav_samples out) <= 0.85 /\
    (0 < peak_of (espeak_buffer L run_espeak text language) -> peak_of (wav_samples out) = 0.85) /\
    wav_samples out =
      scale_to_peak 0.85 (peak_of (espeak_buffer L run_espeak text language))
                    (espeak_buffer L run_espeak text language) /\
    (0 < peak_of (espeak_buffer L run_espeak text language) ->
       wav_samples out =
         map (fun x => x * (0.85 / peak_of (espeak_buffer L run_espeak text language)))
             (espeak_buffer L run_espeak text language)) /\
    (peak_of (espeak_buffer L run_espeak text language) = 0 ->
       wav_samples out = espeak_buffer L run_espeak text language) /\
    espeak_buffer L run_espeak text language =
      (let r := run_espeak (espeak_voice language) text in
       if Z.eqb (raw_sr r) 44100 then raw_y r
       else resample L (raw_y r) (raw_sr r) 44100).
Proof.
  intros Hguard Hrc Hne env s'.
  assert (Es : s' = finish_load env (set_loading s)).
  { unfold s', _load_model. rewrite Hguard. reflexivity. }
  split; [reflexivity |].
  split; [exact Es |].
  assert (Hst : _status s' = ready) by (rewrite Es; reflexivity).
  assert (Hb : _backend s' = Some espeak) by (rewrite Es; reflexivity).
  split; [exact Hst |].
  split; [exact Hb |].
  split; [rewrite Es; reflexivity |].
  eexists.
  split; [| split; [| split; [| split; [| split; [| split; [| split; [| split; [| split]]]]]]]].
  - unfold generate. rewrite (ensure_ready_ready env' observe s' Hst), Hb.
    rewrite (_generate_espeak_Ok text language Hrc Hne). reflexivity.
  - apply (_generate_espeak_Ok text language Hrc Hne).
  - reflexivity.
  - reflexivity.
  - cbn [wav_samples]. rewrite scale_to_peak_peak by lra.
    destruct (Rlt_dec 0 (peak_of (espeak_buffer L run_espeak text language))); lra.
  - intro Hpos. cbn [wav_samples]. rewrite scale_to_peak_peak by lra.
    destruct (Rlt_dec 0 (peak_of (espeak_buffer L run_espeak text language))); [reflexivity | contradiction].
  - reflexivity.
  - intro Hpos. cbn [wav_samples]. rewrite scale_to_peak_pos by exact Hpos. reflexivity.
  - intro Hz. cbn [wav_samples]. rewrite Hz. apply scale_to_peak_zero.
  - reflexivity.
Qed.

End Fallback.

Lemma fallback_is_selected_and_used_witness :
  guard_returns init = false /\
  returncode (mk_espeak_run 0 "" [0.5; -0.25] 22050) = 0%Z /\
  espeak_buffer interp_librosa (fun _ _ => mk_espeak_run 0 "" [0.5; -0.25] 22050)
                "ola" "pt" <> [] /\
  _backend (_load_model (mk_load_env (LoadFailed "no weights") true) init) = Some espeak /\
  _error_msg (_load_model (mk_load_env (LoadFailed "no weights") true) init)
    = Some "no weights"%string /\
  exists out : wav,
    generate interp_librosa (fun _ _ _ _ => Raise ValueError)
             (fun _ _ => mk_espeak_run 0 "" [0.5; -0.25] 22050)
             (mk_load_env (LoadFailed "no weights") true) (fun _ => init)
             (_load_model (mk_load_env (LoadFailed "no weights") true) init)
             "ola" "ref.wav" "pt"
    = (Ok out, _load_model (mk_load_env (LoadFailed "no weights") true) init) /\
    wav_sr out = 44100%Z /\
    peak_of (wav_samples out) <= 0.85 /\
    wav_samples out =
      scale_to_peak 0.85
        (peak_of (espeak_buffer interp_librosa
                    (fun _ _ => mk_espeak_run 0 "" [0.5; -0.25] 22050) "ola" "pt"))
        (espeak_buffer interp_librosa
           (fun _ _ => mk_espeak_run 0 "" [0.5; -0.25] 22050) "ola" "pt").
Proof.
  assert (H1 : guard_returns init = false) by reflexivity.
  assert (H2 : returncode (mk_espeak_run 0 "" [0.5; -0.25] 22050) = 0%Z) by reflexivity.
  assert (H3 : espeak_buffer interp_librosa
                 (fun _ _ => mk_espeak_run 0 "" [0.5; -0.25] 22050) "ola" "pt" <> []).
  { unfold espeak_buffer. cbn. discriminate. }
  destruct (fallback_is_selected_and_used
              interp_librosa (fun _ _ _ _ => Raise ValueError)
              (fun _ _ => mk_espeak_run 0 "" [0.5; -0.25] 22050)
              init "no weights"
              (mk_load_env (LoadFailed "no weights") true) (fun _ => init)
              "ola" "ref.wav" "pt" H1 H2 H3)
    as (_ & _ & _ & Hb & He & out & Hg & _ & Hsr & _ & Hpk & _ & Hsm & _).
  split; [exact H1 |]. split; [exact H2 |]. split; [exact H3 |].
  split; [exact Hb |]. split; [exact He |].
  exists out. split; [exact Hg |]. split; [exact Hsr |]. split; [exact Hpk | exact Hsm].
Defined.

(** ** ensure_ready *)

Lemma init_failed_not_not_ready (s : engine) : init_failed_msg s <> not_ready_msg.
Proof. unfold init_failed_msg, not_ready_msg. simpl. discriminate. Qed.

Lemma terminal_loading (s : engine) : _status s = loading -> terminal s = false.
Proof. unfold terminal. intros ->. reflexivity. Qed.

(** The polling loop: it sleeps whole seconds, stops at the first second at
    which the status read is terminal, and never sleeps more than [n]. *)
Lemma poll_spec (observe : nat -> engine) (n k k' : nat) (s' : engine) :
  poll observe k n = (k', s') ->
  (k <= k' <= k + n)%nat /\
  s' = observe k' /\
  (forall j, (k < j < k')%nat -> terminal (observe j) = false) /\
  ((k' < k + n)%nat -> (k < k')%nat /\ terminal s' = true) /\
  ((forall j, (k < j <= k + n)%nat -> terminal (observe j) = false) -> k' = (k + n)%nat).
Proof.
  revert k. induction n as [| n IH]; intros k H; simpl in H.
  - injection H as <- <-.
    split; [lia |]. split; [reflexivity |].
    split; [intros j Hj; lia |].
    split; [intro Hlt; lia | intros _; lia].
  - destruct (terminal (observe (S k))) eqn:T.
    + injection H as <- <-.
      split; [lia |]. split; [reflexivity |].
      split; [intros j Hj; lia |].
      split; [intros _; split; [lia | exact T] |].
      intro Hall. rewrite Hall in T by lia. discriminate.
    + destruct (IH (S k) H) as (Hr & Hs & Hbefore & Hearly & Hall).
      split; [lia |]. split; [exact Hs |].
      split.
      { intros j Hj. destruct (Nat.eq_dec j (S k)) as [-> | Hne]; [exact T |].
        apply Hbefore. lia. }
      split.
      { intro Hlt. destruct Hearly as [Hk HT]; [lia |]. split; [lia | exact HT]. }
      intro Hno. rewrite Hall; [lia |]. intros j Hj. apply Hno. lia.
Qed.

Lemma check_ready_init_failed (s : engine) :
  check_ready s = Raise (RuntimeError (init_failed_msg s)) <->
  _status s = error /\ _backend s = None.
Proof.
  pose proof (init_failed_not_not_ready s) as Hne.
  unfold check_ready.
  destruct (_status s), (_backend s); split; intro H;
    try (destruct H; discriminate); try discriminate;
    try (split; reflexivity); try reflexivity;
    exfalso; apply Hne; congruence.
Qed.

Lemma check_ready_Ok (s : engine) : check_ready s = Ok tt <-> _status s = ready.
Proof.
  unfold check_ready.
  destruct (_status s), (_backend s); split; intro H; try discriminate; reflexivity.
Qed.

Lemma check_ready_not_ready (s : engine) :
  check_ready s = Raise (RuntimeError not_ready_msg) <->
  _status s <> ready /\ ~ (_status s = error /\ _backend s = None).
Proof.
  pose proof (init_failed_not_not_ready s) as Hne.
  unfold check_ready.
  destruct (_status s), (_backend s); split; intro H;
    try discriminate; try reflexivity;
    try (split; [discriminate | intros [? ?]; discriminate]);
    try (exfalso; apply Hne; congruence);
    try (destruct H as [H _]; exfalso; apply H; reflexivity);
    try (destruct H as [_ H]; exfalso; apply H; split; reflexivity).
Qed.

(** C8, as the specification states it: the engine has reached Error with
    no fallback, and a [generate] call made afterwards does not fail with
    the initialisation error.  Error is not final: once a new
    [_load_model] call has passed the guard and loaded the model,
    [generate] succeeds; while that call is still loading, [generate]
    waits 600 seconds and raises "TTS engine not ready." *)
Lemma synthesize_after_error_can_succeed :
  _status (eng (run [Call; Run 0 (mk_load_env (LoadFailed "no weights") false);
                     Run 0 (mk_load_env (LoadFailed "no weights") false)])) = error /\
  _backend (eng (run [Call; Run 0 (mk_load_env (LoadFailed "no weights") false);
                      Run 0 (mk_load_env (LoadFailed "no weights") false)])) = None /\
  fst (generate interp_librosa
         (fun _ _ _ _ => Ok (mk_wav [0.5; -0.5] 24000 PCM_16))
         (fun _ _ => mk_espeak_run 1 "" [] 0)
         (mk_load_env (LoadFailed "no weights") false) (fun _ => init)
         (eng (run [Call; Run 0 (mk_load_env (LoadFailed "no weights") false);
                    Run 0 (mk_load_env (LoadFailed "no weights") false);
                    Call; Run 1 (mk_load_env (Loaded (Model 0)) false);
                    Run 1 (mk_load_env (Loaded (Model 0)) false)]))
         "ola" "ref.wav" "pt")
  = Ok (mk_wav [0.5; -0.5] 24000 PCM_16) /\
  fst (generate interp_librosa
         (fun _ _ _ _ => Ok (mk_wav [0.5; -0.5] 24000 PCM_16))
         (fun _ _ => mk_espeak_run 1 "" [] 0)
         (mk_load_env (LoadFailed "no weights") false)
         (fun _ => eng (run [Call; Run 0 (mk_load_env (LoadFailed "no weights") false);
                             Run 0 (mk_load_env (LoadFailed "no weights") false);
                             Call; Run 1 (mk_load_env (Loaded (Model 0)) false)]))
         (eng (run [Call; Run 0 (mk_load_env (LoadFailed "no weights") false);
                    Run 0 (mk_load_env (LoadFailed "no weights") false);
                    Call; Run 1 (mk_load_env (Loaded (Model 0)) false)]))
         "ola" "ref.wav" "pt")
  = Raise (RuntimeError "TTS engine not ready.").
Proof. repeat split; reflexivity. Qed.

(** C8, amended.  [ensure_ready] raises the initialisation error exactly
    when the status it reads after waiting is Error with no backend
    recorded (for an engine reached by load attempts, Error alone implies
    it).  Entered in Loading it sleeps one second at a time, stops at the
    first terminal status and never sleeps more than 600 seconds; if the
    status is still Loading at each of the 600 reads it raises
    "TTS engine not ready."  Entered in Error with no backend, it raises
    the initialisation error at once, and so does every [generate] called
    while the engine is in Error, leaving the engine as it is.  The engine
    stays in Error until a new [_load_model] call passes the guard, which
    sets it back to Loading; nothing is claimed of calls made after
    that. *)
Theorem ensure_ready_outcomes
    (env : load_env) (observe : nat -> engine) (s : engine)
    (r : result unit) (s' : engine) (slept : nat) :
  ensure_ready env observe s = (r, s', slept) ->
  (r = Raise (RuntimeError (init_failed_msg s')) <->
     _status s' = error /\ _backend s' = None) /\
  (r = Ok tt <-> _status s' = ready) /\
  (r = Raise (RuntimeError not_ready_msg) <->
     _status s' <> ready /\ ~ (_status s' = error /\ _backend s' = None)) /\
  (forall tr : list event,
     _status (eng (run tr)) = error -> _backend (eng (run tr)) = None) /\
  (slept <= 600)%nat /\
  (_status s <> loading -> slept = 0%nat) /\
  (_status s = loading ->
     s' = observe slept /\
     (forall k, (1 <= k < slept)%nat -> terminal (observe k) = false) /\
     ((slept < 600)%nat -> (1 <= slept)%nat /\ terminal s' = true) /\
     ((forall k, (1 <= k <= 600)%nat -> _status (observe k) = loading) ->
        slept = 600%nat /\ r = Raise (RuntimeError not_ready_msg))) /\
  (_status s = error -> _backend s = None ->
     s' = s /\
     r = Raise (RuntimeError (init_failed_msg s)) /\
     forall (L : librosa)
            (tts_to_file : model -> string -> string -> string -> result wav)
            (run_espeak : string -> string -> espeak_run)
            (text speaker_wav language : string),
       generate L tts_to_file run_espeak env observe s text speaker_wav language
       = (Raise (RuntimeError (init_failed_msg s)), s)) /\
  (forall (tr : list event) (L : librosa)
          (tts_to_file : model -> string -> string -> string -> result wav)
          (run_espeak : string -> string -> espeak_run)
          (text speaker_wav language : string),
     _status (eng (run tr)) = error ->
     generate L tts_to_file run_espeak env observe (eng (run tr))
              text speaker_wav language
     = (Raise (RuntimeError (init_failed_msg (eng (run tr)))), eng (run tr))) /\
  (forall (tr : list event) (ev : event),
     _status (eng (run tr)) = error ->
     eng (run (tr ++ [ev])) = eng (run tr) \/
     (exists i env0, ev = Run i env0 /\
                     nth_error (threads (run tr)) i = Some AtGuard) /\
     eng (run (tr ++ [ev])) = set_loading (eng (run tr))).
Proof.
  assert (Hnone : forall tr : list event,
             _status (eng (run tr)) = error -> _backend (eng (run tr)) = None).
  { intros tr HS. destruct (inv_run tr) as [_ Hback].
    destruct (_backend (eng (run tr))); [| reflexivity].
    assert (Hr : _status (eng (run tr)) = ready) by (apply Hback; discriminate).
    congruence. }
  assert (Hgen : forall (s0 : engine) (L : librosa)
                   (tts_to_file : model -> string -> string -> string -> result wav)
                   (run_espeak : string -> string -> espeak_run)
                   (text speaker_wav language : string),
             _status s0 = error -> _backend s0 = None ->
             generate L tts_to_file run_espeak env observe s0 text speaker_wav language
             = (Raise (RuntimeError (init_failed_msg s0)), s0)).
  { intros s0 L tts_to_file run_espeak text speaker_wav language HS HB.
    assert (Hc : check_ready s0 = Raise (RuntimeError (init_failed_msg s0))).
    { apply check_ready_init_failed. split; assumption. }
    unfold generate, ensure_ready, await. rewrite HS, Hc. reflexivity. }
  unfold ensure_ready. destruct (await env observe s) as [k s1] eqn:A.
  intro E. injection E as <- <- <-.
  split; [apply check_ready_init_failed |].
  split; [apply check_ready_Ok |].
  split; [apply check_ready_not_ready |].
  split; [exact Hnone |].
  unfold await in A.
  split; [| split; [| split; [| split; [| split]]]].
  - destruct (_status s); try (injection A as <- _; lia).
    apply poll_spec in A. lia.
  - intro Hn. destruct (_status s); try (injection A as <- _; reflexivity).
    contradiction.
  - intro HS. rewrite HS in A. apply poll_spec in A.
    destruct A as (Hr & Hs & Hbefore & Hearly & Hall).
    split; [exact Hs |].
    split; [intros j Hj; apply Hbefore; lia |].
    split; [intro Hlt; apply Hearly; lia |].
    intro Hload.
    assert (Hk : k = 600%nat).
    { rewrite Hall; [reflexivity |]. intros j Hj. apply terminal_loading, Hload. lia. }
    split; [exact Hk |].
    apply check_ready_not_ready. subst k. rewrite Hs.
    rewrite (Hload 600%nat) by lia.
    split; [discriminate | intros [? _]; discriminate].
  - intros HS HB. rewrite HS in A. injection A as <- <-.
    assert (Hc : check_ready s = Raise (RuntimeError (init_failed_msg s))).
    { apply check_ready_init_failed. split; assumption. }
    split; [reflexivity |]. split; [exact Hc |].
    intros L tts_to_file run_espeak text speaker_wav language.
    apply Hgen; assumption.
  - intros tr L tts_to_file run_espeak text speaker_wav language HS.
    apply Hgen; [exact HS | apply Hnone; exact HS].
  - intros tr ev HS. rewrite run_snoc.
    apply error_exec; [apply inv_run | exact HS].
Qed.

Lemma ensure_ready_outcomes_witness :
  ensure_ready (mk_load_env (LoadFailed "no weights") false) (fun _ => init) init
  = (Raise (RuntimeError "TTS engine failed to initialize: no weights"),
     mk_engine None error (Some "no weights"%string) None, O) /\
  (_status (mk_engine None error (Some "no weights"%string) None) = error /\
   _backend (mk_engine None error (Some "no weights"%string) None) = None).
Proof.
  assert (H : ensure_ready (mk_load_env (LoadFailed "no weights") false)
                           (fun _ => init) init
              = (Raise (RuntimeError "TTS engine failed to initialize: no weights"),
                 mk_engine None error (Some "no weights"%string) None, O))
    by reflexivity.
  split; [exact H |].
  apply (proj1 (ensure_ready_outcomes _ _ _ _ _ _ H)).
  reflexivity.
Defined.

(** ** Silent input *)

(** C10.  The divisions [0.9 / peak] and [0.85 / peak] are evaluated only
    when [peak > 0], so their divisor is never zero.  For a non-empty
    all-zero buffer (which stays so through the resampler) the peak is 0,
    no division takes place, and [normalize_wav] and [_generate_espeak]
    write the samples unscaled as 44100 Hz 16-bit PCM, without error. *)
Theorem silent_input_is_written_unscaled
    (L : librosa) (run_espeak : string -> string -> espeak_run)
    (y : list R) (sr : Z) (text language : string) :
  (forall peak d : R, peak_divisor peak = Some d -> d = peak /\ d <> 0) /\
  (forall target peak : R, forall b : list R,
      scale_to_peak target peak b =
      match peak_divisor peak with
      | Some d => scale (target / d) b
      | None => b
      end) /\
  (silent y -> y <> [] ->
   (Z.eqb sr 44100 = false ->
      silent (resample L y sr 44100) /\ resample L y sr 44100 <> []) ->
   let y' := if Z.eqb sr 44100 then y else resample L y sr 44100 in
   np_max_abs y' = Ok 0 /\
   peak_divisor 0 = None /\
   normalize_wav L y sr = Ok (mk_wav y' 44100 PCM_16)) /\
  (returncode (run_espeak (espeak_voice language) text) = 0%Z ->
   silent (espeak_buffer L run_espeak text language) ->
   espeak_buffer L run_espeak text language <> [] ->
   np_max_abs (espeak_buffer L run_espeak text language) = Ok 0 /\
   _generate_espeak L run_espeak text language =
     Ok (mk_wav (espeak_buffer L run_espeak text language) 44100 PCM_16)).
Proof.
  split; [| split; [| split]].
  - intros peak d H. apply peak_divisor_pos in H. destruct H as [-> H].
    split; [reflexivity | lra].
  - reflexivity.
  - intros Hsil Hne Hres y'.
    assert (Hy' : silent y' /\ y' <> []).
    { unfold y'. destruct (Z.eqb sr 44100); [split; assumption | apply Hres; reflexivity]. }
    destruct Hy' as [Hs' Hne'].
    assert (Hp : np_max_abs y' = Ok 0).
    { rewrite (np_max_abs_peak y' Hne'), (peak_of_silent y' Hs'). reflexivity. }
    split; [exact Hp |]. split; [apply peak_divisor_zero |].
    unfold normalize_wav. change TARGET_SR with 44100%Z. fold y'.
    rewrite Hp, scale_to_peak_zero. reflexivity.
  - intros Hrc Hs Hne.
    assert (Hp : np_max_abs (espeak_buffer L run_espeak text language) = Ok 0).
    { rewrite (np_max_abs_peak _ Hne), (peak_of_silent _ Hs). reflexivity. }
    split; [exact Hp |].
    rewrite (_generate_espeak_Ok L run_espeak text language Hrc Hne).
    rewrite (peak_of_silent _ Hs), scale_to_peak_zero. reflexivity.
Qed.

Lemma silent_input_is_written_unscaled_witness :
  silent [0; 0] /\
  [0; 0] <> [] /\
  (Z.eqb 22050 44100 = false ->
     silent (resample interp_librosa [0; 0] 22050 44100) /\
     resample interp_librosa [0; 0] 22050 44100 <> []) /\
  normalize_wav interp_librosa [0; 0] 22050 =
    Ok (mk_wav (if Z.eqb 22050 44100 then [0; 0]
                else resample interp_librosa [0; 0] 22050 44100) 44100 PCM_16).
Proof.
  assert (H1 : silent [0; 0]) by (repeat constructor).
  assert (H2 : [0; 0] <> []) by discriminate.
  assert (H3 : Z.eqb 22050 44100 = false ->
               silent (resample interp_librosa [0; 0] 22050 44100) /\
               resample interp_librosa [0; 0] 22050 44100 <> []).
  { intros _. cbn [resample interp_librosa upsample2 interp4]. split.
    - repeat constructor. lra.
    - discriminate. }
  split; [exact H1 |]. split; [exact H2 |]. split; [exact H3 |].
  exact (proj2 (proj2 (proj1 (proj2 (proj2
           (silent_input_is_written_unscaled
              interp_librosa (fun _ _ => mk_espeak_run 0 "" [] 22050)
              [0; 0] 22050 "" "pt"))) H1 H2 H3))).
Defined.

End EngineFacts.

(** * Further properties of the effect chain *)

Module ChainExtra.

Import AudioProcessing ParamFacts ChainFacts EngineFacts.

(** ** Moods *)

(** A resolved mood is one of the four keys. *)
Lemma resolve_mood_cases (mood : string) :
  (resolve_mood mood = mood /\ In mood ["normal"; "upbeat"; "angry"; "excited"]%string) \/
  (resolve_mood mood = "normal"%string /\
   ~ In mood ["normal"; "upbeat"; "angry"; "excited"]%string).
Proof.
  unfold resolve_mood, dict_mem. simpl.
  destruct (String.eqb mood "normal") eqn:E1.
  { apply String.eqb_eq in E1. left. split; [reflexivity |]. left. auto. }
  destruct (String.eqb mood "upbeat") eqn:E2.
  { apply String.eqb_eq in E2. left. split; [reflexivity |]. right; left. auto. }
  destruct (String.eqb mood "angry") eqn:E3.
  { apply String.eqb_eq in E3. left. split; [reflexivity |]. right; right; left. auto. }
  destruct (String.eqb mood "excited") eqn:E4.
  { apply String.eqb_eq in E4. left. split; [reflexivity |]. do 3 right. left. auto. }
  right. split; [reflexivity |].
  apply String.eqb_neq in E1, E2, E3, E4.
  intros [H | [H | [H | [H | []]]]]; congruence.
Qed.

Lemma resolve_mood_idem (mood : string) : resolve_mood (resolve_mood mood) = resolve_mood mood.
Proof.
  destruct (resolve_mood_cases mood) as [[E _] | [E _]]; rewrite E.
  - exact E.
  - reflexivity.
Qed.

Lemma apply_mood_resolve (L : librosa) (y : list R) (sr : Z) (mood : string) (i : Z) :
  apply_mood L y sr (resolve_mood mood) i = apply_mood L y sr mood i.
Proof.
  unfold apply_mood, after_distortion, after_gain.
  rewrite resolve_mood_idem. reflexivity.
Qed.

(** X1.  A mood name outside the catalog (the comparison is exact, so
    "Angry" is one) is processed exactly as "normal": the call does not
    fail and applies no effect but the peak normalisation. *)
Theorem unknown_mood_is_processed_as_normal
    (L : librosa) (y : list R) (sr : Z) (mood : string) (i : Z) :
  ~ In mood ["normal"; "upbeat"; "angry"; "excited"]%string ->
  apply_mood L y sr mood i = apply_mood L y sr "normal" i /\
  apply_mood L y sr mood i = finish L sr y.
Proof.
  intro Hout.
  assert (E : resolve_mood mood = "normal"%string).
  { destruct (resolve_mood_cases mood) as [[_ Hin] | [E _]]; [contradiction | exact E]. }
  assert (H : apply_mood L y sr mood i = apply_mood L y sr "normal" i).
  { rewrite <- (apply_mood_resolve L y sr mood i), E. reflexivity. }
  split; [exact H |]. rewrite H. apply apply_mood_normal.
Qed.

Lemma unknown_mood_is_processed_as_normal_witness :
  ~ In "Angry"%string ["normal"; "upbeat"; "angry"; "excited"]%string /\
  apply_mood interp_librosa [0.5] 44100 "Angry" 5 =
  apply_mood interp_librosa [0.5] 44100 "normal" 5.
Proof.
  assert (H : ~ In "Angry"%string ["normal"; "upbeat"; "angry"; "excited"]%string).
  { intros [H | [H | [H | [H | []]]]]; discriminate. }
  split; [exact H |].
  exact (proj1 (unknown_mood_is_processed_as_normal interp_librosa [0.5] 44100 "Angry" 5 H)).
Defined.

(** ** Intensity *)

Lemma factor_clamp (i : Z) : factor (clamp_intensity i) = factor i.
Proof.
  unfold factor. f_equal. f_equal. f_equal.
  unfold clamp_intensity. lia.
Qed.

Lemma apply_mood_factor (L : librosa) (y : list R) (sr : Z) (mood : string) (i j : Z) :
  factor i = factor j -> apply_mood L y sr mood i = apply_mood L y sr mood j.
Proof.
  intro E.
  unfold apply_mood, after_distortion, after_gain, angry_stage, gain_stage,
    speed_stage, pitch_stage, clip_threshold, gain_lin, rate, n_steps.
  rewrite E. reflexivity.
Qed.

(** X2.  The intensity is clamped, not validated: every intensity below 1
    gives the result of intensity 1 and every intensity above 5 the result
    of intensity 5. *)
Theorem out_of_range_intensity_is_clamped
    (L : librosa) (y : list R) (sr : Z) (mood : string) (i : Z) :
  apply_mood L y sr mood i = apply_mood L y sr mood (clamp_intensity i) /\
  ((i <= 1)%Z -> apply_mood L y sr mood i = apply_mood L y sr mood 1) /\
  ((5 <= i)%Z -> apply_mood L y sr mood i = apply_mood L y sr mood 5).
Proof.
  split; [| split].
  - apply apply_mood_factor. symmetry. apply factor_clamp.
  - intro H. apply apply_mood_factor.
    rewrite <- (factor_clamp i). f_equal. unfold clamp_intensity. lia.
  - intro H. apply apply_mood_factor.
    rewrite <- (factor_clamp i). f_equal. unfold clamp_intensity. lia.
Qed.

Lemma out_of_range_intensity_is_clamped_witness :
  (-3 <= 1)%Z /\
  apply_mood interp_librosa [0.5] 44100 "angry" (-3) =
  apply_mood interp_librosa [0.5] 44100 "angry" 1.
Proof.
  split; [lia |].
  apply (proj1 (proj2 (out_of_range_intensity_is_clamped
                         interp_librosa [0.5] 44100 "angry" (-3)))).
  lia.
Defined.

Lemma factor_low (i : Z) : (i <= 1)%Z -> factor i = 0.
Proof.
  intro H. destruct (factor_cases i) as [[_ E] | [[E _] | [[E _] | [[E _] | [E _]]]]];
    try lia. exact E.
Qed.

Lemma low_intensity_parameters (mood : string) (i : Z) :
  (i <= 1)%Z ->
  n_steps (resolve_mood mood) i = 0 /\
  rate (resolve_mood mood) i = 1 /\
  gain_lin (resolve_mood mood) i = 1.
Proof.
  intro Hi. pose proof (factor_low i Hi) as F.
  split; [unfold n_steps; rewrite F; lra |].
  split; [unfold rate; rewrite F; lra |].
  unfold gain_lin. rewrite F.
  replace (gain_max (resolve_mood mood) * 0 / 20) with 0 by lra.
  apply Rpower_O. lra.
Qed.

Lemma after_distortion_low_intensity
    (L : librosa) (y : list R) (sr : Z) (mood : string) (i : Z) :
  (i <= 1)%Z -> after_distortion L y sr mood i = y.
Proof.
  intro Hi. pose proof (factor_low i Hi) as F.
  destruct (low_intensity_parameters mood i Hi) as (N & Rt & G).
  unfold after_distortion, after_gain, angry_stage, gain_stage, speed_stage, pitch_stage.
  rewrite G, Rt, N, scale_1.
  destruct (Rlt_dec 0.005 (Rabs (1 - 1))) as [H | _].
  { exfalso. replace (1 - 1) with 0 in H by lra. rewrite Rabs_R0 in H. lra. }
  destruct (Rlt_dec 0.01 (Rabs 0)) as [H | _].
  { exfalso. rewrite Rabs_R0 in H. lra. }
  destruct (String.eqb (resolve_mood mood) "angry"); [| reflexivity].
  destruct (Rlt_dec 0.2 (factor i)) as [H | _]; [| reflexivity].
  exfalso. rewrite F in H. lra.
Qed.

(** The chain reduces to its last three stages when the mood resolves to
    "normal" or the intensity is 1 or less. *)
Lemma apply_mood_without_effect
    (L : librosa) (y : list R) (sr : Z) (mood : string) (i : Z) :
  resolve_mood mood = "normal"%string \/ (i <= 1)%Z ->
  apply_mood L y sr mood i = finish L sr y.
Proof.
  intros [E | Hi].
  - rewrite <- apply_mood_resolve, E. apply apply_mood_normal.
  - unfold apply_mood. rewrite after_distortion_low_intensity by exact Hi. reflexivity.
Qed.

(** X3.  At intensity 1 (or less) no mood has any effect: the pitch shift,
    the time stretch and the distortion are skipped and the gain is 1, so
    the chain is the one of mood "normal". *)
Theorem intensity_one_has_no_effect
    (L : librosa) (y : list R) (sr : Z) (mood : string) (i : Z) :
  (i <= 1)%Z ->
  n_steps (resolve_mood mood) i = 0 /\
  rate (resolve_mood mood) i = 1 /\
  gain_lin (resolve_mood mood) i = 1 /\
  after_distortion L y sr mood i = y /\
  apply_mood L y sr mood i = apply_mood L y sr "normal" i.
Proof.
  intro Hi.
  destruct (low_intensity_parameters mood i Hi) as (N & Rt & G).
  pose proof (after_distortion_low_intensity L y sr mood i Hi) as A.
  repeat split; try assumption.
  rewrite apply_mood_normal. unfold apply_mood. rewrite A. reflexivity.
Qed.

Lemma intensity_one_has_no_effect_witness :
  (1 <= 1)%Z /\
  apply_mood interp_librosa [0.5] 22050 "excited" 1 =
  apply_mood interp_librosa [0.5] 22050 "normal" 1.
Proof.
  split; [lia |].
  apply (intensity_one_has_no_effect interp_librosa [0.5] 22050 "excited" 1). lia.
Defined.

Lemma mood_params_excited : mood_params "excited" = (3.5, 1.22, 2).
Proof. reflexivity. Qed.

(** The parameters of a resolved mood are one of the four rows. *)
Lemma mood_params_rows (mood : string) :
  mood_params (resolve_mood mood) = (0, 1, 0) \/
  mood_params (resolve_mood mood) = (2.5, 1.18, 1.5) \/
  mood_params (resolve_mood mood) = (-1.5, 1.12, 3) \/
  mood_params (resolve_mood mood) = (3.5, 1.22, 2).
Proof.
  destruct (resolve_mood_cases mood) as [[-> Hin] | [-> _]].
  - destruct Hin as [<- | [<- | [<- | [<- | []]]]]; auto.
  - auto.
Qed.

(** X4.  For the three moods with an effect and an intensity of 2 or more,
    neither skip threshold is met: the pitch shift and the time stretch
    both run, with the derived parameters, before the gain. *)
Theorem effect_moods_run_both_stages
    (L : librosa) (y : list R) (sr : Z) (mood : string) (i : Z) :
  In mood ["upbeat"; "angry"; "excited"]%string ->
  (2 <= i)%Z ->
  0.01 < Rabs (n_steps mood i) /\
  0.005 < Rabs (rate mood i - 1) /\
  after_gain L y sr mood i =
    scale (gain_lin mood i)
          (time_stretch L (pitch_shift L y sr (n_steps mood i)) (rate mood i)).
Proof.
  intros Hin Hi.
  assert (F : 0.25 <= factor i <= 1).
  { destruct (factor_cases i) as [[H _] | [[_ E] | [[_ E] | [[_ E] | [_ E]]]]];
      [lia | rewrite E; lra ..]. }
  assert (Hr : resolve_mood mood = mood).
  { destruct Hin as [<- | [<- | [<- | []]]]; reflexivity. }
  assert (Hn : 0.01 < Rabs (n_steps mood i)).
  { unfold n_steps, pitch_max.
    destruct Hin as [<- | [<- | [<- | []]]];
      [rewrite mood_params_upbeat | rewrite mood_params_angry | rewrite mood_params_excited];
      simpl fst; unfold Rabs; destruct (Rcase_abs _); lra. }
  assert (Hs : 0.005 < Rabs (rate mood i - 1)).
  { unfold rate, speed_max.
    destruct Hin as [<- | [<- | [<- | []]]];
      [rewrite mood_params_upbeat | rewrite mood_params_angry | rewrite mood_params_excited];
      simpl fst; simpl snd; unfold Rabs; destruct (Rcase_abs _); lra. }
  split; [exact Hn |]. split; [exact Hs |].
  unfold after_gain. rewrite Hr. unfold gain_stage, speed_stage, pitch_stage.
  destruct (Rlt_dec 0.005 (Rabs (rate mood i - 1))); [| contradiction].
  destruct (Rlt_dec 0.01 (Rabs (n_steps mood i))); [| contradiction].
  reflexivity.
Qed.

Lemma effect_moods_run_both_stages_witness :
  In "angry"%string ["upbeat"; "angry"; "excited"]%string /\
  (2 <= 2)%Z /\
  after_gain interp_librosa [0.5] 44100 "angry" 2 =
    scale (gain_lin "angry" 2)
          (time_stretch interp_librosa
             (pitch_shift interp_librosa [0.5] 44100 (n_steps "angry" 2))
             (rate "angry" 2)).
Proof.
  assert (H1 : In "angry"%string ["upbeat"; "angry"; "excited"]%string)
    by (right; left; reflexivity).
  assert (H2 : (2 <= 2)%Z) by lia.
  split; [exact H1 |]. split; [exact H2 |].
  exact (proj2 (proj2 (effect_moods_run_both_stages
                         interp_librosa [0.5] 44100 "angry" 2 H1 H2))).
Defined.

(** ** Ranges of the derived parameters *)

Lemma Rpower_10_mono (a b : R) : a <= b -> Rpower 10 a <= Rpower 10 b.
Proof. intro H. apply Rle_Rpower; [lra | exact H]. Qed.

Lemma Rpower_10_015_bound : Rpower 10 (3 / 20) < 1.42.
Proof.
  apply (pow_lt_cancel_pos 20).
  - apply Rlt_le, Rpower_10_pos.
  - lra.
  - replace (3 / 20) with (INR 3 / INR 20) by (rewrite !INR_IZR_INZ; simpl; lra).
    rewrite Rpower_10_root by lia. lra.
Qed.

(** X5.  Whatever the mood name and the intensity, the derived parameters
    stay in fixed ranges: the pitch shift is between -1.5 and 3.5
    semitones, the speed rate between 1 and 1.22 (speech is never slowed
    down), the linear gain between 1 and 10^(3/20) < 1.42 (never an
    attenuation) and the clip threshold between 0.70 and 0.85. *)
Theorem derived_parameters_ranges (mood : string) (i : Z) :
  -1.5 <= n_steps (resolve_mood mood) i <= 3.5 /\
  1 <= rate (resolve_mood mood) i <= 1.22 /\
  1 <= gain_lin (resolve_mood mood) i <= Rpower 10 (3 / 20) /\
  gain_lin (resolve_mood mood) i < 1.42 /\
  0.7 <= clip_threshold i <= 0.85.
Proof.
  pose proof (factor_range i) as [F0 F1].
  assert (G : 1 <= gain_lin (resolve_mood mood) i <= Rpower 10 (3 / 20)).
  { unfold gain_lin, gain_max.
    rewrite <- (Rpower_O 10) at 1 by lra.
    split; apply Rpower_10_mono;
      destruct (mood_params_rows mood) as [E | [E | [E | E]]]; rewrite E; simpl snd; nra. }
  split; [| split; [| split; [exact G | split]]].
  - unfold n_steps, pitch_max.
    destruct (mood_params_rows mood) as [E | [E | [E | E]]]; rewrite E; simpl fst; nra.
  - unfold rate, speed_max.
    destruct (mood_params_rows mood) as [E | [E | [E | E]]]; rewrite E;
      simpl fst; simpl snd; nra.
  - pose proof Rpower_10_015_bound. lra.
  - unfold clip_threshold. lra.
Qed.

(** X7.  A higher intensity never gives a weaker effect: the speed rate
    and the gain are non-decreasing in the intensity, so is the magnitude
    of the pitch shift, and the clip threshold is non-increasing. *)
Theorem effect_grows_with_intensity (mood : string) (i j : Z) :
  (i <= j)%Z ->
  rate (resolve_mood mood) i <= rate (resolve_mood mood) j /\
  gain_lin (resolve_mood mood) i <= gain_lin (resolve_mood mood) j /\
  Rabs (n_steps (resolve_mood mood) i) <= Rabs (n_steps (resolve_mood mood) j) /\
  clip_threshold j <= clip_threshold i.
Proof.
  intro Hij. pose proof (factor_mono i j Hij) as Fm.
  pose proof (factor_range i) as [Fi0 Fi1]. pose proof (factor_range j) as [Fj0 Fj1].
  split; [| split; [| split]].
  - unfold rate, speed_max.
    destruct (mood_params_rows mood) as [E | [E | [E | E]]]; rewrite E;
      simpl fst; simpl snd; nra.
  - unfold gain_lin, gain_max. apply Rpower_10_mono.
    destruct (mood_params_rows mood) as [E | [E | [E | E]]]; rewrite E; simpl snd; nra.
  - unfold n_steps, pitch_max. rewrite !Rabs_mult.
    rewrite (Rabs_pos_eq (factor i)), (Rabs_pos_eq (factor j)) by assumption.
    apply Rmult_le_compat_l; [apply Rabs_pos | exact Fm].
  - unfold clip_threshold. lra.
Qed.

Lemma effect_grows_with_intensity_witness :
  (2 <= 4)%Z /\ gain_lin (resolve_mood "upbeat") 2 <= gain_lin (resolve_mood "upbeat") 4.
Proof.
  split; [lia |].
  apply (effect_grows_with_intensity "upbeat" 2 4). lia.
Defined.

(** ** The soft clip saturates *)

Lemma tanh_bound (x : R) : -1 < tanh x < 1.
Proof.
  unfold tanh, sinh, cosh.
  pose proof (exp_pos x) as Ha. pose proof (exp_pos (- x)) as Hb.
  set (a := exp x) in *. set (b := exp (- x)) in *.
  assert (Hc : 0 < (a + b) / 2) by lra.
  assert (E : (a - b) / 2 / ((a + b) / 2) * ((a + b) / 2) = (a - b) / 2) by (field; lra).
  set (t := (a - b) / 2 / ((a + b) / 2)) in *.
  split; nra.
Qed.

Lemma soft_clip_sample_bound (ct s : R) : 0 < ct -> Rabs (tanh (s / ct) * ct) < ct.
Proof.
  intro Hct. pose proof (tanh_bound (s / ct)) as [Hlo Hhi].
  rewrite Rabs_mult, (Rabs_pos_eq ct) by lra.
  assert (Rabs (tanh (s / ct)) < 1) by (apply Rabs_def1; lra).
  nra.
Qed.

Lemma soft_clip_bound (ct : R) (y : list R) :
  0 < ct -> Forall (fun s => Rabs s < ct) (soft_clip ct y).
Proof.
  intro Hct. unfold soft_clip. apply Forall_forall. intros s Hin.
  apply in_map_iff in Hin. destruct Hin as (s0 & <- & _).
  apply soft_clip_sample_bound. exact Hct.
Qed.

Lemma peak_of_le (y : list R) (b : R) :
  0 <= b -> Forall (fun s => Rabs s <= b) y -> peak_of y <= b.
Proof. intros Hb H. apply max_abs_from_le; assumption. Qed.

(** X6.  For mood "angry" at intensity 2 or more the soft clip leaves
    every sample strictly inside the clip threshold, which is at most
    0.8125: the peak normalisation that follows never scales, and a
    44100 Hz input gives an output whose peak is at most 0.8125. *)
Theorem angry_output_stays_below_clip_threshold
    (L : librosa) (y : list R) (sr : Z) (i : Z) :
  (2 <= i)%Z ->
  0.7 <= clip_threshold i <= 0.8125 /\
  Forall (fun s => Rabs s < clip_threshold i) (after_distortion L y sr "angry" i) /\
  (forall buf : list R,
      after_normalize L y sr "angry" i = Ok buf ->
      buf = after_distortion L y sr "angry" i /\ peak_of buf <= clip_threshold i) /\
  (forall out : wav,
      sr = 44100%Z ->
      apply_mood L y sr "angry" i = Ok out ->
      wav_samples out = after_distortion L y sr "angry" i /\
      peak_of (wav_samples out) <= 0.8125).
Proof.
  intro Hi.
  assert (F : 0.25 <= factor i <= 1).
  { destruct (factor_cases i) as [[H _] | [[_ E] | [[_ E] | [[_ E] | [_ E]]]]];
      [lia | rewrite E; lra ..]. }
  assert (Hct : 0.7 <= clip_threshold i <= 0.8125) by (unfold clip_threshold; lra).
  assert (Hall : Forall (fun s => Rabs s < clip_threshold i)
                        (after_distortion L y sr "angry" i)).
  { unfold after_distortion. change (resolve_mood "angry") with "angry"%string.
    rewrite angry_stage_applied by lra. apply soft_clip_bound. lra. }
  assert (Hpk : peak_of (after_distortion L y sr "angry" i) <= clip_threshold i).
  { apply peak_of_le; [lra |]. eapply Forall_impl; [| exact Hall].
    intros s Hs. simpl in Hs. lra. }
  assert (Hnorm : forall buf : list R,
             after_normalize L y sr "angry" i = Ok buf ->
             buf = after_distortion L y sr "angry" i /\ peak_of buf <= clip_threshold i).
  { intros buf H. apply after_normalize_Ok in H. destruct H as [_ ->].
    rewrite normalize_stage_quiet by lra. split; [reflexivity | exact Hpk]. }
  split; [exact Hct |]. split; [exact Hall |]. split; [exact Hnorm |].
  intros out -> H. rewrite apply_mood_after_normalize in H.
  destruct (after_normalize L y 44100 "angry" i) as [buf |] eqn:E; [| discriminate].
  injection H as <-.
  change (buf = after_distortion L y 44100 "angry" i /\ peak_of buf <= 0.8125).
  destruct (Hnorm buf eq_refl) as [-> Hb]. split; [reflexivity | lra].
Qed.

Lemma angry_output_stays_below_clip_threshold_witness :
  (2 <= 5)%Z /\
  Forall (fun s => Rabs s < clip_threshold 5)
         (after_distortion interp_librosa [3; -7] 44100 "angry" 5).
Proof.
  split; [lia |].
  apply (angry_output_stays_below_clip_threshold interp_librosa [3; -7] 44100 5). lia.
Defined.

(** ** Files the chain leaves alone *)

Lemma finish_quiet (L : librosa) (y : list R) :
  y <> [] -> peak_of y <= 0.98 ->
  finish L 44100 y = Ok (mk_wav y 44100 PCM_16).
Proof.
  intros Hne Hpk. rewrite (finish_Ok L 44100 y Hne), fst_resample_stage.
  simpl Z.eqb. cbv iota. rewrite normalize_stage_quiet by exact Hpk. reflexivity.
Qed.




(** ** normalize_wav *)

Lemma peak_of_zero_silent (y : list R) : peak_of y = 0 -> silent y.
Proof.
  intro H. unfold silent. apply Forall_forall. intros s Hin.
  pose proof (peak_of_In y s Hin) as Hs. rewrite H in Hs.
  pose proof (Rabs_pos s) as Hp.
  destruct (Req_dec s 0) as [E | E]; [exact E |].
  pose proof (Rabs_pos_lt s E). lra.
Qed.

Lemma scale_to_peak_nonempty (target peak : R) (y : list R) :
  y <> [] -> scale_to_peak target peak y <> [].
Proof.
  intros Hne E. apply Hne. apply length_zero_iff_nil.
  unfold scale_to_peak in E. destruct (peak_divisor peak).
  - rewrite <- (scale_length (target / r) y), E. reflexivity.
  - rewrite E. reflexivity.
Qed.

Lemma normalize_wav_inv (L : librosa) (y : list R) (sr : Z) (out : wav) :
  normalize_wav L y sr = Ok out ->
  let y' := if Z.eqb sr 44100 then y else resample L y sr 44100 in
  y' <> [] /\ out = mk_wav (scale_to_peak 0.9 (peak_of y') y') 44100 PCM_16.
Proof.
  intros H y'. unfold normalize_wav in H. change TARGET_SR with 44100%Z in H.
  fold y' in H.
  destruct (np_max_abs y') as [peak |] eqn:E; [| discriminate].
  apply np_max_abs_Ok in E. destruct E as [Hne ->].
  split; [exact Hne |]. injection H as <-. reflexivity.
Qed.

(** X9.  A reference file written by [normalize_wav] never peaks above
    0.9, and peaks at exactly 0.9 unless the (resampled) recording is all
    zero: here the resampling comes before the peak is taken. *)
Theorem normalize_wav_peak_is_09 (L : librosa) (y : list R) (sr : Z) (out : wav) :
  normalize_wav L y sr = Ok out ->
  peak_of (wav_samples out) <= 0.9 /\
  (~ silent (if Z.eqb sr 44100 then y else resample L y sr 44100) ->
   peak_of (wav_samples out) = 0.9) /\
  (silent (if Z.eqb sr 44100 then y else resample L y sr 44100) ->
   wav_samples out = (if Z.eqb sr 44100 then y else resample L y sr 44100)).
Proof.
  intro H. apply normalize_wav_inv in H. cbv zeta in H. destruct H as [Hne ->].
  cbn [wav_samples]. set (y' := if Z.eqb sr 44100 then y else resample L y sr 44100) in *.
  pose proof (scale_to_peak_peak 0.9 y') as Hp.
  split; [| split].
  - rewrite Hp by lra. destruct (Rlt_dec 0 (peak_of y')); lra.
  - intro Hns. rewrite Hp by lra.
    destruct (Rlt_dec 0 (peak_of y')) as [_ | Hz]; [reflexivity |].
    exfalso. apply Hns. apply peak_of_zero_silent.
    pose proof (peak_of_nonneg y'). lra.
  - intro Hs. rewrite (peak_of_silent y' Hs). apply scale_to_peak_zero.
Qed.

Lemma normalize_wav_peak_is_09_witness :
  normalize_wav interp_librosa [0.5; -0.25] 44100 =
    Ok (mk_wav (scale_to_peak 0.9 (peak_of [0.5; -0.25]) [0.5; -0.25]) 44100 PCM_16) /\
  peak_of (wav_samples
             (mk_wav (scale_to_peak 0.9 (peak_of [0.5; -0.25]) [0.5; -0.25])
                     44100 PCM_16)) <= 0.9.
Proof.
  assert (H : normalize_wav interp_librosa [0.5; -0.25] 44100 =
              Ok (mk_wav (scale_to_peak 0.9 (peak_of [0.5; -0.25]) [0.5; -0.25])
                         44100 PCM_16)).
  { apply (normalize_wav_Ok interp_librosa [0.5; -0.25] 44100). discriminate. }
  split; [exact H |].
  exact (proj1 (normalize_wav_peak_is_09 interp_librosa [0.5; -0.25] 44100 _ H)).
Defined.

Lemma scale_scale (c d : R) (y : list R) : scale d (scale c y) = scale (c * d) y.
Proof.
  unfold scale. rewrite map_map. apply map_ext. intro s. lra.
Qed.

Lemma scale_silent (c : R) (y : list R) : silent y -> scale c y = y.
Proof.
  intro H. unfold scale. rewrite <- (map_id y) at 2.
  apply map_ext_in. intros s Hin.
  unfold silent in H. rewrite Forall_forall in H. rewrite (H s Hin). lra.
Qed.

Lemma scale_nonempty (c : R) (y : list R) : y <> [] -> scale c y <> [].
Proof.
  intros Hne E. apply Hne. apply length_zero_iff_nil.
  rewrite <- (scale_length c y), E. reflexivity.
Qed.

(** X10.  At 44100 Hz the stored reference does not depend on how loud
    the upload was: scaling the input by any positive factor gives the
    same file. *)
Theorem normalize_wav_ignores_input_level (L : librosa) (y : list R) (c : R) :
  0 < c ->
  normalize_wav L (scale c y) 44100 = normalize_wav L y 44100.
Proof.
  intro Hc. destruct y as [| s0 y0] eqn:Ey; [reflexivity |]. rewrite <- Ey.
  assert (Hne : y <> []) by (rewrite Ey; discriminate).
  rewrite (normalize_wav_Ok L (scale c y) 44100) by (apply scale_nonempty; exact Hne).
  rewrite (normalize_wav_Ok L y 44100) by exact Hne.
  simpl Z.eqb. cbv iota. do 2 f_equal.
  rewrite peak_of_scale by lra.
  pose proof (peak_of_nonneg y) as Hp.
  destruct (Rlt_dec 0 (peak_of y)) as [Hpos | Hz].
  - rewrite !scale_to_peak_pos by nra.
    rewrite scale_scale. f_equal. field. lra.
  - assert (E : peak_of y = 0) by lra.
    rewrite E, Rmult_0_l, !scale_to_peak_zero.
    apply scale_silent, peak_of_zero_silent, E.
Qed.

Lemma normalize_wav_ignores_input_level_witness :
  0 < 2 /\
  normalize_wav interp_librosa (scale 2 [0.25; -0.125]) 44100 =
  normalize_wav interp_librosa [0.25; -0.125] 44100.
Proof.
  split; [lra |].
  apply (normalize_wav_ignores_input_level interp_librosa [0.25; -0.125] 2). lra.
Defined.

(** X11.  [normalize_wav] is idempotent: normalising a file it wrote gives
    the same file. *)
Theorem normalize_wav_is_idempotent (L : librosa) (y : list R) (sr : Z) (out : wav) :
  normalize_wav L y sr = Ok out ->
  normalize_wav L (wav_samples out) (wav_sr out) = Ok out.
Proof.
  intro H. apply normalize_wav_inv in H. cbv zeta in H. destruct H as [Hne ->].
  set (y' := if Z.eqb sr 44100 then y else resample L y sr 44100) in *.
  cbn [wav_samples wav_sr].
  set (z := scale_to_peak 0.9 (peak_of y') y').
  assert (Hz : z <> []) by (apply scale_to_peak_nonempty; exact Hne).
  rewrite (normalize_wav_Ok L z 44100 Hz). simpl Z.eqb. cbv iota. do 2 f_equal.
  pose proof (scale_to_peak_peak 0.9 y') as Hp. fold z in Hp. rewrite Hp by lra.
  destruct (Rlt_dec 0 (peak_of y')) as [Hpos | Hzero].
  - rewrite scale_to_peak_pos by lra.
    replace (0.9 / 0.9) with 1 by lra. apply scale_1.
  - apply scale_to_peak_zero.
Qed.

Lemma normalize_wav_is_idempotent_witness :
  normalize_wav interp_librosa [0.5; -0.25] 22050 =
    Ok (mk_wav (scale_to_peak 0.9
                  (peak_of (resample interp_librosa [0.5; -0.25] 22050 44100))
                  (resample interp_librosa [0.5; -0.25] 22050 44100))
               44100 PCM_16) /\
  normalize_wav interp_librosa
    (wav_samples
       (mk_wav (scale_to_peak 0.9
                  (peak_of (resample interp_librosa [0.5; -0.25] 22050 44100))
                  (resample interp_librosa [0.5; -0.25] 22050 44100))
               44100 PCM_16))
    (wav_sr
       (mk_wav (scale_to_peak 0.9
                  (peak_of (resample interp_librosa [0.5; -0.25] 22050 44100))
                  (resample interp_librosa [0.5; -0.25] 22050 44100))
               44100 PCM_16))
  = Ok (mk_wav (scale_to_peak 0.9
                  (peak_of (resample interp_librosa [0.5; -0.25] 22050 44100))
                  (resample interp_librosa [0.5; -0.25] 22050 44100))
               44100 PCM_16).
Proof.
  assert (H : normalize_wav interp_librosa [0.5; -0.25] 22050 =
              Ok (mk_wav (scale_to_peak 0.9
                            (peak_of (resample interp_librosa [0.5; -0.25] 22050 44100))
                            (resample interp_librosa [0.5; -0.25] 22050 44100))
                         44100 PCM_16)).
  { apply (normalize_wav_Ok interp_librosa [0.5; -0.25] 22050).
    cbn [resample interp_librosa upsample2 interp4]. simpl Z.eqb. cbv iota.
    cbn [resample interp_librosa upsample2 interp4]. discriminate. }
  split; [exact H |].
  exact (normalize_wav_is_idempotent interp_librosa [0.5; -0.25] 22050 _ H).
Defined.

End ChainExtra.

(** * Further properties of the engine *)

Module EngineExtra.

Import AudioProcessing ChainFacts TTSEngine EngineViews EngineFacts.

(** ** The fields on reachable engines *)

Lemma consistent_init : consistent init.
Proof. unfold consistent. simpl. repeat split. Qed.

Lemma consistent_set_loading (s : engine) :
  consistent s -> guard_returns s = false -> consistent (set_loading s).
Proof.
  unfold consistent, guard_returns. intros H G.
  destruct (_status s) eqn:S; try discriminate; simpl.
  - destruct H as (Ht & _ & Hb). split; assumption.
  - destruct H as (Ht & Hb & _). split; assumption.
Qed.

Lemma consistent_finish_load (env : load_env) (s : engine) :
  consistent s -> _status s = loading -> consistent (finish_load env s).
Proof.
  unfold consistent. intros H S. rewrite S in H. destruct H as [Ht Hb].
  unfold finish_load. destruct (primary env) as [m | e]; simpl.
  - left. split; [reflexivity | exists m; reflexivity].
  - destruct (espeak_found env); simpl.
    + right. split; [reflexivity |]. split; [exact Ht | exists e; reflexivity].
    + split; [exact Ht |]. split; [exact Hb | exists e; reflexivity].
Qed.

Lemma consistent_exec (sys : system) (ev : event) :
  inv sys -> consistent (eng sys) -> consistent (eng (exec sys ev)).
Proof.
  intros [Hload _] Hc. destruct ev as [| i env]; simpl; [exact Hc |].
  destruct (nth_error (threads sys) i) as [[| |] |] eqn:E; try exact Hc.
  - destruct (guard_returns (eng sys)) eqn:G; cbn [eng]; [exact Hc |].
    apply consistent_set_loading; assumption.
  - cbn [eng]. apply consistent_finish_load; [exact Hc |].
    pose proof (loaders_set_pc _ i InLoad Returned E) as HR. simpl in HR.
    destruct Hload as [[HS _] | [_ HN]]; [exact HS | lia].
Qed.

Lemma consistent_run (tr : list event) : consistent (eng (run tr)).
Proof.
  induction tr as [| ev tr IH] using rev_ind.
  - apply consistent_init.
  - rewrite run_snoc. apply consistent_exec; [apply inv_run | exact IH].
Qed.

Lemma loaders_all_returned (ts : list pc) :
  Forall (fun p => p = Returned) ts -> loaders ts = 0%nat.
Proof.
  induction 1 as [| t ts Ht _ IH]; [reflexivity |].
  subst t. simpl. exact IH.
Qed.

(** X12.  The properties are read without the lock, while [_load_model]
    writes the fields of a block one after the other; so the statement is
    about the instants at which every [_load_model] call made so far has
    returned, when no block is half-written.  The read-only properties
    then agree with each other: the status is not "loading"; [is_ready]
    holds exactly when [backend] is not "none"; backend "xtts" comes with
    a loaded model; backend "espeak" and status "error" come with an error
    message; and in status "idle" nothing is set, so the engine is the
    initial one. *)
Theorem status_properties_agree (tr : list event) :
  Forall (fun p => p = Returned) (threads (run tr)) ->
  let s := eng (run tr) in
  status s <> "loading"%string /\
  (is_ready s = true <-> backend s <> "none"%string) /\
  (backend s = "xtts"%string -> exists m, _tts s = Some m) /\
  (backend s = "espeak"%string -> exists e, error_prop s = Some e) /\
  (status s = "error"%string ->
     backend s = "none"%string /\ exists e, error_prop s = Some e) /\
  (status s = "idle"%string -> s = init).
Proof.
  intros Hall s.
  assert (Hnl : _status s <> loading).
  { destruct (inv_run tr) as [[[_ H1] | [Hn _]] _]; [| exact Hn].
    rewrite (loaders_all_returned _ Hall) in H1. discriminate. }
  pose proof (consistent_run tr) as H. fold s in H.
  unfold consistent in H. unfold is_ready, backend, status, error_prop.
  clearbody s. destruct s as [t st e b]. simpl in *.
  destruct st; simpl.
  - destruct H as (-> & -> & ->). simpl.
    repeat split; intros; try discriminate; try reflexivity;
      try (exfalso; congruence); eauto.
  - exfalso. apply Hnl. reflexivity.
  - destruct H as [(-> & m & ->) | (-> & -> & e0 & ->)]; simpl;
      repeat split; intros; try discriminate; try reflexivity;
      try (exfalso; congruence); eauto.
  - destruct H as (-> & -> & e0 & ->). simpl.
    repeat split; intros; try discriminate; try reflexivity;
      try (exfalso; congruence); eauto.
Qed.

Lemma status_properties_agree_witness :
  Forall (fun p => p = Returned)
    (threads (run [Call; Run 0 (mk_load_env (LoadFailed "no weights") false);
                   Run 0 (mk_load_env (LoadFailed "no weights") false)])) /\
  status (eng (run [Call; Run 0 (mk_load_env (LoadFailed "no weights") false);
                    Run 0 (mk_load_env (LoadFailed "no weights") false)]))
  = "error"%string /\
  backend (eng (run [Call; Run 0 (mk_load_env (LoadFailed "no weights") false);
                     Run 0 (mk_load_env (LoadFailed "no weights") false)]))
  = "none"%string.
Proof.
  assert (Hall : Forall (fun p => p = Returned)
                   (threads (run [Call; Run 0 (mk_load_env (LoadFailed "no weights") false);
                                  Run 0 (mk_load_env (LoadFailed "no weights") false)])))
    by (repeat constructor).
  split; [exact Hall |].
  split; [reflexivity |].
  apply (proj1 (proj2 (proj2 (proj2 (proj2
           (status_properties_agree
              [Call; Run 0 (mk_load_env (LoadFailed "no weights") false);
               Run 0 (mk_load_env (LoadFailed "no weights") false)] Hall)))))).
  reflexivity.
Defined.

(** ** When every call has returned *)

Lemma set_pc_Forall (P : pc -> Prop) (i : nat) (p : pc) (ts : list pc) :
  P p -> Forall P ts -> Forall P (set_pc i p ts).
Proof.
  intros Hp H. revert i. induction H as [| t ts Ht Hts IH]; intro i.
  - destruct i; constructor.
  - destruct i; simpl; constructor; auto.
Qed.

Lemma idle_exec (sys : system) (ev : event) :
  (_status (eng sys) = idle -> Forall (fun p => p = AtGuard) (threads sys)) ->
  _status (eng (exec sys ev)) = idle ->
  Forall (fun p => p = AtGuard) (threads (exec sys ev)).
Proof.
  intros H. destruct ev as [| i env]; simpl.
  - intro S. apply Forall_app. split; [apply H; exact S | repeat constructor].
  - destruct (nth_error (threads sys) i) as [[| |] |] eqn:E; try exact H.
    + unfold guard_returns. destruct (_status (eng sys)) eqn:S; cbn [eng threads];
        try (rewrite S); simpl; intro S'; discriminate.
    + cbn [eng threads]. intro S'.
      destruct (finish_load_status env (eng sys)) as [F | F]; congruence.
Qed.

Lemma idle_all_at_guard (tr : list event) :
  _status (eng (run tr)) = idle -> Forall (fun p => p = AtGuard) (threads (run tr)).
Proof.
  induction tr as [| ev tr IH] using rev_ind.
  - intros _. constructor.
  - rewrite run_snoc. apply idle_exec. exact IH.
Qed.

(** X13.  The engine is never left half-way: in every execution, once
    every [_load_model] call made so far has returned (and there was at
    least one), the status is "ready" or "error", never "idle" or
    "loading". *)
Theorem engine_is_settled_when_all_calls_returned (tr : list event) :
  threads (run tr) <> [] ->
  Forall (fun p => p = Returned) (threads (run tr)) ->
  _status (eng (run tr)) = ready \/ _status (eng (run tr)) = error.
Proof.
  intros Hne Hall.
  destruct (inv_run tr) as [Hload _].
  pose proof (loaders_all_returned _ Hall) as H0.
  pose proof (idle_all_at_guard tr) as Hidle.
  destruct (_status (eng (run tr))) eqn:S.
  - exfalso. specialize (Hidle eq_refl).
    destruct (threads (run tr)) as [| t ts]; [apply Hne; reflexivity |].
    inversion Hall; inversion Hidle; subst. congruence.
  - exfalso. destruct Hload as [[_ H1] | [Hn _]]; [lia | apply Hn; reflexivity].
  - left. reflexivity.
  - right. reflexivity.
Qed.

Lemma engine_is_settled_when_all_calls_returned_witness :
  threads (run [Call; Call; Run 1 (mk_load_env (LoadFailed "x") true);
                Run 0 (mk_load_env (LoadFailed "x") true);
                Run 1 (mk_load_env (LoadFailed "x") true)]) <> [] /\
  Forall (fun p => p = Returned)
    (threads (run [Call; Call; Run 1 (mk_load_env (LoadFailed "x") true);
                   Run 0 (mk_load_env (LoadFailed "x") true);
                   Run 1 (mk_load_env (LoadFailed "x") true)])) /\
  (_status (eng (run [Call; Call; Run 1 (mk_load_env (LoadFailed "x") true);
                      Run 0 (mk_load_env (LoadFailed "x") true);
                      Run 1 (mk_load_env (LoadFailed "x") true)])) = ready \/
   _status (eng (run [Call; Call; Run 1 (mk_load_env (LoadFailed "x") true);
                      Run 0 (mk_load_env (LoadFailed "x") true);
                      Run 1 (mk_load_env (LoadFailed "x") true)])) = error).
Proof.
  assert (H1 : threads (run [Call; Call; Run 1 (mk_load_env (LoadFailed "x") true);
                             Run 0 (mk_load_env (LoadFailed "x") true);
                             Run 1 (mk_load_env (LoadFailed "x") true)]) <> [])
    by discriminate.
  assert (H2 : Forall (fun p => p = Returned)
                 (threads (run [Call; Call; Run 1 (mk_load_env (LoadFailed "x") true);
                                Run 0 (mk_load_env (LoadFailed "x") true);
                                Run 1 (mk_load_env (LoadFailed "x") true)])))
    by (repeat constructor).
  split; [exact H1 |]. split; [exact H2 |].
  exact (engine_is_settled_when_all_calls_returned _ H1 H2).
Defined.

(** ** Languages *)

Lemma existsb_eqb_In (x : string) (l : list string) :
  existsb (String.eqb x) l = true <-> In x l.
Proof.
  rewrite existsb_exists. split.
  - intros (y & Hin & E). apply String.eqb_eq in E. subst. exact Hin.
  - intro Hin. exists x. split; [exact Hin | apply String.eqb_refl].
Qed.

Lemma dict_get_In {V : Type} (d : list (string * V)) (k : string) :
  dict_get d k <> None <-> In k (map fst d).
Proof.
  induction d as [| [k' v] d IH]; simpl.
  - split; [intro H; apply H; reflexivity | intros []].
  - destruct (String.eqb k k') eqn:E.
    + apply String.eqb_eq in E. subst. split; [auto | discriminate].
    + apply String.eqb_neq in E. rewrite IH. split; [auto |].
      intros [H | H]; [congruence | exact H].
Qed.

Lemma espeak_keys : map fst ESPEAK_VOICE_MAP = XTTS_LANGUAGES.
Proof. reflexivity. Qed.

(** X14.  The two backends default the language the same way.  The
    language handed to XTTS-v2 is always one it supports; a language has
    its own espeak-ng voice exactly when XTTS-v2 supports it; any other
    language becomes "pt" for XTTS-v2 and "pt-br" for espeak-ng, which is
    the espeak-ng voice of "pt". *)
Theorem backends_default_language_alike (language : string) :
  In (xtts_language language) XTTS_LANGUAGES /\
  (In language XTTS_LANGUAGES <-> dict_get ESPEAK_VOICE_MAP language <> None) /\
  (In language XTTS_LANGUAGES -> xtts_language language = language) /\
  (~ In language XTTS_LANGUAGES ->
     xtts_language language = "pt"%string /\ espeak_voice language = "pt-br"%string) /\
  espeak_voice (xtts_language language) = espeak_voice language /\
  (forall (tts_to_file : model -> string -> string -> string -> result wav)
          (s : engine) (m : model) (text speaker_wav : string),
      _tts s = Some m ->
      _generate_xtts tts_to_file s text speaker_wav language =
      tts_to_file m text speaker_wav (xtts_language language)).
Proof.
  assert (Hin : In language XTTS_LANGUAGES -> xtts_language language = language).
  { intro H. unfold xtts_language. apply existsb_eqb_In in H. rewrite H. reflexivity. }
  assert (Hout : ~ In language XTTS_LANGUAGES ->
                 xtts_language language = "pt"%string /\
                 espeak_voice language = "pt-br"%string).
  { intro H. split.
    - unfold xtts_language.
      destruct (existsb (String.eqb language) XTTS_LANGUAGES) eqn:E; [| reflexivity].
      apply existsb_eqb_In in E. contradiction.
    - unfold espeak_voice.
      destruct (dict_get ESPEAK_VOICE_MAP language) eqn:E; [| reflexivity].
      exfalso. apply H. rewrite <- espeak_keys. apply dict_get_In. congruence. }
  split; [| split; [| split; [exact Hin | split; [exact Hout | split]]]].
  - unfold xtts_language.
    destruct (existsb (String.eqb language) XTTS_LANGUAGES) eqn:E.
    + apply existsb_eqb_In. exact E.
    + simpl. auto.
  - rewrite dict_get_In, espeak_keys. reflexivity.
  - destruct (in_dec string_dec language XTTS_LANGUAGES) as [H | H].
    + rewrite (Hin H). reflexivity.
    + destruct (Hout H) as [-> ->]. reflexivity.
  - intros tts_to_file s m text speaker_wav Ht.
    unfold _generate_xtts, xtts_language. rewrite Ht. reflexivity.
Qed.

Lemma backends_default_language_alike_witness :
  ~ In "sv"%string XTTS_LANGUAGES /\
  xtts_language "sv" = "pt"%string /\ espeak_voice "sv" = "pt-br"%string.
Proof.
  assert (H : ~ In "sv"%string XTTS_LANGUAGES).
  { intro H. apply existsb_eqb_In in H. discriminate. }
  split; [exact H |].
  exact (proj1 (proj2 (proj2 (proj2 (backends_default_language_alike "sv")))) H).
Defined.

(** ** Requests on an idle engine *)

Lemma status_idle_is_init (tr : list event) :
  _status (eng (run tr)) = idle -> eng (run tr) = init.
Proof.
  intro S. pose proof (consistent_run tr) as H. unfold consistent in H.
  rewrite S in H. destruct H as (Ht & He & Hb).
  destruct (eng (run tr)) as [t st e b]. simpl in *. subst. reflexivity.
Qed.


(** X15.  A request that finds the engine idle performs the load itself
    (with no other thread interfering): it never sleeps and never answers
    "TTS engine not ready."; it succeeds exactly when the primary model
    loads or espeak-ng is found, and otherwise raises the initialisation
    error carrying the text of the load exception.  Every idle engine that
    load attempts can produce is the initial one. *)
Theorem idle_request_loads_inline
    (env : load_env) (observe : nat -> engine) :
  ensure_ready env observe init =
    (check_ready (_load_model env init), _load_model env init, O) /\
  (check_ready (_load_model env init) = Ok tt <->
     (exists m, primary env = Loaded m) \/ espeak_found env = true) /\
  (forall e : string,
     primary env = LoadFailed e -> espeak_found env = false ->
     check_ready (_load_model env init) =
     Raise (RuntimeError ("TTS engine failed to initialize: " ++ e))) /\
  check_ready (_load_model env init) <> Raise (RuntimeError not_ready_msg) /\
  (forall tr : list event, _status (eng (run tr)) = idle -> eng (run tr) = init).
Proof.
  split; [reflexivity |].
  unfold _load_model, finish_load, check_ready. simpl.
  destruct env as [[m | e] found]; simpl.
  - split; [| split; [| split]].
    + split; [intros _; left; exists m; reflexivity | reflexivity].
    + intros e H. discriminate.
    + discriminate.
    + intros tr S. apply (status_idle_is_init tr S).
  - destruct found; simpl.
    + split; [| split; [| split]].
      * split; [intros _; right; reflexivity | reflexivity].
      * intros e0 _ H. discriminate.
      * discriminate.
      * intros tr S. apply (status_idle_is_init tr S).
    + split; [| split; [| split]].
      * split; [discriminate |]. intros [[m H] | H]; discriminate.
      * intros e0 H _. injection H as ->. reflexivity.
      * unfold init_failed_msg, not_ready_msg. simpl. discriminate.
      * intros tr S. apply (status_idle_is_init tr S).
Qed.

Lemma idle_request_loads_inline_witness :
  primary (mk_load_env (LoadFailed "no weights") false) = LoadFailed "no weights" /\
  espeak_found (mk_load_env (LoadFailed "no weights") false) = false /\
  check_ready (_load_model (mk_load_env (LoadFailed "no weights") false) init) =
  Raise (RuntimeError "TTS engine failed to initialize: no weights").
Proof.
  split; [reflexivity |]. split; [reflexivity |].
  exact (proj1 (proj2 (proj2 (idle_request_loads_inline
                                (mk_load_env (LoadFailed "no weights") false)
                                (fun _ => init))))
               "no weights"%string eq_refl eq_refl).
Defined.

(** ** Dispatch *)

(** X16.  [generate] reads the status and the backend without the lock,
    so the statement is about a call made once every [_load_model] call
    made so far has returned and the engine is ready.  From then on no
    step changes the engine, so every read of the call sees the same
    fields; [generate] waits for nothing, leaves the engine as it is and
    uses the one backend that was selected: with "xtts" it calls the
    loaded model, which is always there, with a supported language; with
    "espeak" it runs the fallback and never touches the model. *)
Theorem generate_uses_the_selected_backend
    (L : librosa)
    (tts_to_file : model -> string -> string -> string -> result wav)
    (run_espeak : string -> string -> espeak_run)
    (env : load_env) (observe : nat -> engine)
    (tr : list event) (text speaker_wav language : string) :
  Forall (fun p => p = Returned) (threads (run tr)) ->
  _status (eng (run tr)) = ready ->
  (forall tr' : list event, eng (run (tr ++ tr')) = eng (run tr)) /\
  ensure_ready env observe (eng (run tr)) = (Ok tt, eng (run tr), O) /\
  snd (generate L tts_to_file run_espeak env observe (eng (run tr))
         text speaker_wav language) = eng (run tr) /\
  ((backend (eng (run tr)) = "xtts"%string /\
    exists m : model,
      _tts (eng (run tr)) = Some m /\
      In (xtts_language language) XTTS_LANGUAGES /\
      fst (generate L tts_to_file run_espeak env observe (eng (run tr))
             text speaker_wav language)
      = tts_to_file m text speaker_wav (xtts_language language)) \/
   (backend (eng (run tr)) = "espeak"%string /\
    fst (generate L tts_to_file run_espeak env observe (eng (run tr))
           text speaker_wav language)
    = _generate_espeak L run_espeak text language)).
Proof.
  intros _ S. pose proof (consistent_run tr) as Hc.
  split.
  { intro tr'. unfold run. rewrite fold_left_app.
    apply ready_fold; [apply inv_run | exact S]. }
  set (s := eng (run tr)) in *.
  pose proof (ensure_ready_ready env observe s S) as He.
  split; [exact He |].
  unfold generate. rewrite He.
  unfold consistent in Hc. rewrite S in Hc. unfold backend.
  destruct Hc as [(Hb & m & Ht) | (Hb & Ht & _)]; rewrite Hb; cbn [fst snd].
  - split; [reflexivity |]. left. split; [reflexivity |].
    exists m. split; [exact Ht |]. split.
    + unfold xtts_language.
      destruct (existsb (String.eqb language) XTTS_LANGUAGES) eqn:E.
      * apply existsb_eqb_In. exact E.
      * simpl. auto.
    + unfold _generate_xtts, xtts_language. rewrite Ht. reflexivity.
  - split; [reflexivity |]. right. split; reflexivity.
Qed.

Lemma generate_uses_the_selected_backend_witness :
  Forall (fun p => p = Returned)
    (threads (run [Call; Run 0 (mk_load_env (Loaded (Model 7)) false);
                   Run 0 (mk_load_env (Loaded (Model 7)) false)])) /\
  _status (eng (run [Call; Run 0 (mk_load_env (Loaded (Model 7)) false);
                     Run 0 (mk_load_env (Loaded (Model 7)) false)])) = ready /\
  snd (generate interp_librosa (fun _ _ _ _ => Raise ValueError)
         (fun _ _ => mk_espeak_run 0 "" [] 22050)
         (mk_load_env (LoadFailed "unused") false) (fun _ => init)
         (eng (run [Call; Run 0 (mk_load_env (Loaded (Model 7)) false);
                    Run 0 (mk_load_env (Loaded (Model 7)) false)]))
         "ola" "ref.wav" "pt")
  = eng (run [Call; Run 0 (mk_load_env (Loaded (Model 7)) false);
              Run 0 (mk_load_env (Loaded (Model 7)) false)]).
Proof.
  assert (Hall : Forall (fun p => p = Returned)
                   (threads (run [Call; Run 0 (mk_load_env (Loaded (Model 7)) false);
                                  Run 0 (mk_load_env (Loaded (Model 7)) false)])))
    by (repeat constructor).
  split; [exact Hall |].
  split; [reflexivity |].
  apply (generate_uses_the_selected_backend
           interp_librosa (fun _ _ _ _ => Raise ValueError)
           (fun _ _ => mk_espeak_run 0 "" [] 22050)
           (mk_load_env (LoadFailed "unused") false) (fun _ => init)
           [Call; Run 0 (mk_load_env (Loaded (Model 7)) false);
            Run 0 (mk_load_env (Loaded (Model 7)) false)]
           "ola" "ref.wav" "pt" Hall).
  reflexivity.
Defined.

End EngineExtra.

(** * The engine between two assignments *)

Module WriteFacts.

Import AudioProcessing ChainFacts TTSEngine EngineViews EngineWrites.
Import EngineFacts EngineExtra.

Lemma wrun_snoc (tr : list wevent) (ev : wevent) :
  wrun (tr ++ [ev]) = wexec (wrun tr) ev.
Proof. unfold wrun. rewrite fold_left_app. reflexivity. Qed.

(** The assignments of a block, made one after the other, give what the
    block gives as a whole. *)
Lemma apply_writes_finish_load (env : load_env) (s : engine) :
  apply_writes (finish_writes env) s = finish_load env s.
Proof.
  unfold finish_writes, finish_load. destruct (primary env); [reflexivity |].
  destruct (espeak_found env); reflexivity.
Qed.

Lemma set_wpc_split (i : nat) (old : wpc) (ts : list wpc) :
  nth_error ts i = Some old ->
  exists l1 l2, ts = l1 ++ old :: l2 /\ forall p, set_wpc i p ts = l1 ++ p :: l2.
Proof.
  revert i. induction ts as [| t ts IH]; intros [| i] H; simpl in H; try discriminate.
  - injection H as ->. exists [], ts. split; [reflexivity | intro p; reflexivity].
  - destruct (IH i H) as (l1 & l2 & -> & E).
    exists (t :: l1), l2. split; [reflexivity |].
    intro p. simpl. rewrite E. reflexivity.
Qed.

Lemma wbusy_app (l1 l2 : list wpc) : wbusy (l1 ++ l2) = (wbusy l1 + wbusy l2)%nat.
Proof.
  induction l1 as [| p l1 IH]; simpl; [reflexivity |]. rewrite IH. lia.
Qed.

Lemma wbusy_mid (l1 l2 : list wpc) (p : wpc) :
  wbusy (l1 ++ p :: l2) = (wbusy l1 + busy1 p + wbusy l2)%nat.
Proof. rewrite wbusy_app. simpl. lia. Qed.

Lemma idle_threads_ok (s : engine) (ts : list wpc) :
  wbusy ts = 0%nat -> Forall (thread_ok s) ts.
Proof.
  induction ts as [| p ts IH]; simpl; intro H; constructor.
  - destruct p; simpl in *; try exact I; lia.
  - apply IH. lia.
Qed.

Lemma Forall_mid (s : engine) (l1 l2 : list wpc) (p : wpc) :
  wbusy l1 = 0%nat -> wbusy l2 = 0%nat -> thread_ok s p ->
  Forall (thread_ok s) (l1 ++ p :: l2).
Proof.
  intros H1 H2 Hp. apply Forall_app. split; [apply idle_threads_ok; exact H1 |].
  constructor; [exact Hp | apply idle_threads_ok; exact H2].
Qed.

Lemma Forall_mid_same (s : engine) (l1 l2 : list wpc) (p q : wpc) :
  Forall (thread_ok s) (l1 ++ p :: l2) -> thread_ok s q ->
  Forall (thread_ok s) (l1 ++ q :: l2).
Proof.
  intros H Hq. apply Forall_app in H. destruct H as [H1 H2].
  apply Forall_app. split; [exact H1 |].
  inversion H2; subst. constructor; assumption.
Qed.

Lemma Forall_mid_inv (s : engine) (l1 l2 : list wpc) (p : wpc) :
  Forall (thread_ok s) (l1 ++ p :: l2) -> thread_ok s p.
Proof.
  intro H. apply Forall_app in H. destruct H as [_ H]. inversion H; assumption.
Qed.

(** A thread past the guard is between the blocks, or in the last one. *)
Lemma busy_cases (s : engine) (ts : list wpc) :
  Forall (thread_ok s) ts -> wbusy ts <> 0%nat ->
  loading_state s \/ exists ws, In (WInBlock ws) ts /\ block_state s ws.
Proof.
  induction 1 as [| p ts Hp _ IH]; simpl; intro Hb; [contradiction |].
  destruct p; simpl in *.
  - destruct (IH Hb) as [H | (ws & Hin & H)]; [left; exact H |].
    right. exists ws. split; [right; exact Hin | exact H].
  - left. exact Hp.
  - right. exists ws. split; [left; reflexivity | exact Hp].
  - destruct (IH Hb) as [H | (ws & Hin & H)]; [left; exact H |].
    right. exists ws. split; [right; exact Hin | exact H].
Qed.

Lemma In_block_locked (ws : list write) (ts : list wpc) :
  In (WInBlock ws) ts -> locked ts = true.
Proof.
  intro H. unfold locked. apply existsb_exists.
  exists (WInBlock ws). split; [exact H | reflexivity].
Qed.

Lemma loading_state_consistent (s : engine) : loading_state s -> consistent s.
Proof.
  intros (S & Ht & Hb). unfold consistent. rewrite S. split; assumption.
Qed.

Lemma winv_initial : winv winitial.
Proof.
  unfold winv. simpl. split; [lia |]. split; [constructor |].
  intros _. split; [discriminate | apply consistent_init].
Qed.

Lemma winv_exec (sys : wsystem) (ev : wevent) : winv sys -> winv (wexec sys ev).
Proof.
  destruct sys as [s ts]. intro Hinv. pose proof Hinv as (Hb & Hok & Hq).
  simpl in Hb, Hok, Hq. destruct ev as [| i env]; simpl.
  - unfold winv. simpl. rewrite wbusy_app. simpl. rewrite Nat.add_0_r.
    split; [exact Hb |]. split; [| exact Hq].
    apply Forall_app. split; [exact Hok | repeat constructor].
  - destruct (nth_error ts i) as [old |] eqn:E; [| exact Hinv].
    destruct (set_wpc_split i old ts E) as (l1 & l2 & -> & Eset).
    rewrite wbusy_mid in Hb, Hq.
    destruct old as [| | [| w ws] |].
    + (* the guard *)
      destruct (locked (l1 ++ WAtGuard :: l2)) eqn:Lk.
      { exact Hinv. }
      destruct (guard_returns s) eqn:G.
      * unfold winv. simpl. rewrite Eset, wbusy_mid. simpl in *.
        split; [exact Hb |]. split; [| exact Hq].
        apply (Forall_mid_same s l1 l2 WAtGuard); [exact Hok | exact I].
      * assert (H0 : (wbusy l1 + busy1 WAtGuard + wbusy l2)%nat = 0%nat).
        { destruct (Nat.eq_dec (wbusy l1 + busy1 WAtGuard + wbusy l2) 0) as [H0 | H0];
            [exact H0 | exfalso].
          rewrite <- wbusy_mid in H0.
          destruct (busy_cases s _ Hok H0) as [(S & _) | (ws & Hin & _)].
          - unfold guard_returns in G. rewrite S in G. discriminate.
          - rewrite (In_block_locked ws _ Hin) in Lk. discriminate. }
        destruct (Hq H0) as [_ Hc]. simpl in H0.
        unfold winv. simpl. rewrite Eset, wbusy_mid. simpl.
        split; [lia |]. split; [| intro H; lia].
        apply Forall_mid; try lia.
        unfold consistent in Hc. unfold guard_returns in G.
        unfold thread_ok, loading_state, set_loading. simpl.
        destruct (_status s); try discriminate.
        -- destruct Hc as (Ht & _ & Hbk). repeat split; assumption.
        -- destruct Hc as (Ht & Hbk & _). repeat split; assumption.
    + (* entering the last block *)
      pose proof (Forall_mid_inv s l1 l2 _ Hok) as Hl. simpl in Hl, Hb.
      destruct (locked (l1 ++ WInLoad :: l2)) eqn:Lk.
      { exact Hinv. }
      unfold winv. simpl. rewrite Eset, wbusy_mid. simpl.
      split; [exact Hb |]. split; [| intro H; lia].
      apply Forall_mid; try lia.
      exists env, [], s. split; [reflexivity |]. split; [exact Hl | reflexivity].
    + (* leaving the last block *)
      pose proof (Forall_mid_inv s l1 l2 _ Hok) as Hl. simpl in Hl, Hb.
      destruct Hl as (env0 & done & s0 & Ew & Hs0 & Es).
      rewrite app_nil_r in Ew. subst done.
      rewrite apply_writes_finish_load in Es.
      unfold winv. simpl. rewrite Eset, wbusy_mid. simpl.
      split; [lia |]. split; [apply Forall_mid; try lia; exact I |].
      intros _. subst s. split.
      * destruct (finish_load_status env0 s0) as [H | H]; rewrite H; discriminate.
      * apply consistent_finish_load;
          [apply loading_state_consistent; exact Hs0 | apply Hs0].
    + (* one assignment *)
      pose proof (Forall_mid_inv s l1 l2 _ Hok) as Hl. simpl in Hl, Hb.
      destruct Hl as (env0 & done & s0 & Ew & Hs0 & Es).
      unfold winv. simpl. rewrite Eset, wbusy_mid. simpl.
      split; [exact Hb |]. split; [| intro H; lia].
      apply Forall_mid; try lia.
      exists env0, (done ++ [w]), s0.
      split; [rewrite <- app_assoc; exact Ew |]. split; [exact Hs0 |].
      unfold apply_writes. rewrite fold_left_app. simpl.
      fold (apply_writes done s0). rewrite <- Es. reflexivity.
    + exact Hinv.
Qed.

Lemma winv_run (tr : list wevent) : winv (wrun tr).
Proof.
  induction tr as [| ev tr IH] using rev_ind.
  - apply winv_initial.
  - rewrite wrun_snoc. apply winv_exec. exact IH.
Qed.

Lemma block_state_facts (s : engine) (ws : list write) :
  block_state s ws ->
  (_backend s <> None -> _status s = ready) /\
  (_backend s = Some xtts -> exists m, _tts s = Some m) /\
  (_backend s = Some espeak -> _tts s = None) /\
  (_status s = error -> _backend s = None /\ _tts s = None) /\
  (_status s = loading -> _backend s = None) /\
  _status s <> idle.
Proof.
  intros (env & done & s0 & Ew & (S0 & T0 & B0) & ->).
  unfold finish_writes in Ew.
  destruct (primary env) as [m | e]; [| destruct (espeak_found env)];
    destruct done as [| d1 [| d2 [| d3 [| d4 done]]]]; simpl in Ew;
    try discriminate; inversion Ew; subst;
    unfold apply_writes; simpl; rewrite ?S0, ?T0, ?B0;
    repeat split; intros; try discriminate; try reflexivity;
    try (exfalso; congruence); eauto.
Qed.

Lemma instant_facts (s : engine) (ts : list wpc) :
  winv (mk_wsystem s ts) ->
  (_backend s <> None -> _status s = ready) /\
  (_backend s = Some xtts -> exists m, _tts s = Some m) /\
  (_backend s = Some espeak -> _tts s = None) /\
  (_status s = error -> _backend s = None /\ _tts s = None) /\
  (_status s = loading -> _backend s = None) /\
  (_status s = idle -> s = init) /\
  (locked ts = false -> consistent s).
Proof.
  intros (Hb & Hok & Hq). simpl in *.
  assert (Hcons : consistent s ->
            (_backend s <> None -> _status s = ready) /\
            (_backend s = Some xtts -> exists m, _tts s = Some m) /\
            (_backend s = Some espeak -> _tts s = None) /\
            (_status s = error -> _backend s = None /\ _tts s = None) /\
            (_status s = loading -> _backend s = None) /\
            (_status s = idle -> s = init) /\
            (locked ts = false -> consistent s)).
  { intro Hc.
    cut ((_backend s <> None -> _status s = ready) /\
         (_backend s = Some xtts -> exists m, _tts s = Some m) /\
         (_backend s = Some espeak -> _tts s = None) /\
         (_status s = error -> _backend s = None /\ _tts s = None) /\
         (_status s = loading -> _backend s = None) /\
         (_status s = idle -> s = init)).
    { intros (F1 & F2 & F3 & F4 & F5 & F6).
      repeat (split; [assumption |]). intros _. exact Hc. }
    clear - Hc. unfold consistent in Hc.
    destruct s as [t st e b]. simpl in *. destruct st.
    - destruct Hc as (-> & -> & ->).
      repeat split; intros; try discriminate; try reflexivity;
        try (exfalso; congruence); eauto.
    - destruct Hc as (-> & ->).
      repeat split; intros; try discriminate; try reflexivity;
        try (exfalso; congruence); eauto.
    - destruct Hc as [(-> & m & ->) | (-> & -> & e0 & ->)];
        repeat split; intros; try discriminate; try reflexivity;
        try (exfalso; congruence); eauto.
    - destruct Hc as (-> & -> & e0 & ->).
      repeat split; intros; try discriminate; try reflexivity;
        try (exfalso; congruence); eauto. }
  destruct (Nat.eq_dec (wbusy ts) 0) as [H0 | H0].
  - apply Hcons. apply (Hq H0).
  - destruct (busy_cases s ts Hok H0) as [Hl | (ws & Hin & Hbs)].
    + apply Hcons. apply loading_state_consistent. exact Hl.
    + destruct (block_state_facts s ws Hbs) as (F1 & F2 & F3 & F4 & F5 & F6).
      split; [exact F1 |]. split; [exact F2 |]. split; [exact F3 |].
      split; [exact F4 |]. split; [exact F5 |].
      split; [intro S; contradiction |].
      intro Lk. rewrite (In_block_locked ws ts Hin) in Lk. discriminate.
Qed.

(** X27.  What a reader that does not take the lock can rely on at every
    instant, also between two assignments of a block of [_load_model]: a
    backend other than "none" is reported only when the engine is ready;
    backend "xtts" comes with the loaded model and backend "espeak" with
    none; status "error" and status "loading" have backend "none"; status
    "idle" means nothing was set.  The converse fails inside a block:
    [is_ready] with backend "none" is observed there, and only there.
    When no thread is inside the last block the fields are those of a
    finished (or not yet finished) load attempt, and the properties agree
    in full. *)
Theorem fields_between_assignments (tr : list wevent) :
  let s := weng (wrun tr) in
  (backend s <> "none"%string -> is_ready s = true) /\
  (backend s = "xtts"%string -> exists m, _tts s = Some m) /\
  (backend s = "espeak"%string -> _tts s = None) /\
  (status s = "error"%string -> backend s = "none"%string /\ _tts s = None) /\
  (status s = "loading"%string -> backend s = "none"%string) /\
  (status s = "idle"%string -> s = init) /\
  (is_ready s = true -> backend s = "none"%string ->
     locked (wthreads (wrun tr)) = true) /\
  (locked (wthreads (wrun tr)) = false ->
     consistent s /\
     (is_ready s = true <-> backend s <> "none"%string) /\
     (backend s = "espeak"%string -> exists e, error_prop s = Some e) /\
     (status s = "error"%string -> exists e, error_prop s = Some e)).
Proof.
  intro s. pose proof (winv_run tr) as Hinv.
  destruct (wrun tr) as [s' ts] eqn:Er. simpl in s. subst s.
  destruct (instant_facts s' ts Hinv) as (F1 & F2 & F3 & F4 & F5 & F6 & F7).
  cbn [wthreads].
  assert (Hcons : consistent s' ->
            (is_ready s' = true <-> backend s' <> "none"%string) /\
            (backend s' = "espeak"%string -> exists e, error_prop s' = Some e) /\
            (status s' = "error"%string -> exists e, error_prop s' = Some e)).
  { unfold consistent, is_ready, backend, status, error_prop.
    destruct s' as [t st e b]. simpl. clear.
    destruct st; intro Hc.
    - destruct Hc as (-> & -> & ->).
      repeat split; intros; try discriminate; try reflexivity;
        try (exfalso; congruence); eauto.
    - destruct Hc as (-> & ->).
      repeat split; intros; try discriminate; try reflexivity;
        try (exfalso; congruence); eauto.
    - destruct Hc as [(-> & m & ->) | (-> & -> & e0 & ->)];
        repeat split; intros; try discriminate; try reflexivity;
        try (exfalso; congruence); eauto.
    - destruct Hc as (-> & -> & e0 & ->).
      repeat split; intros; try discriminate; try reflexivity;
        try (exfalso; congruence); eauto. }
  assert (Hb : backend s' = "none"%string <-> _backend s' = None).
  { unfold backend. destruct (_backend s') as [[|] |]; split; intro H;
      try discriminate; reflexivity. }
  assert (Hr : is_ready s' = true <-> _status s' = ready).
  { unfold is_ready. destruct (_status s'); simpl; split; intro H;
      try discriminate; reflexivity. }
  split.
  { intro H. apply Hr, F1. intro Hn. apply H, Hb. exact Hn. }
  split.
  { intro H. apply F2. unfold backend in H.
    destruct (_backend s') as [[|] |]; try discriminate. reflexivity. }
  split.
  { intro H. apply F3. unfold backend in H.
    destruct (_backend s') as [[|] |]; try discriminate. reflexivity. }
  split.
  { intro H. assert (S : _status s' = error).
    { unfold status in H. destruct (_status s'); try discriminate. reflexivity. }
    destruct (F4 S) as [Hn Ht]. split; [apply Hb; exact Hn | exact Ht]. }
  split.
  { intro H. apply Hb, F5.
    unfold status in H. destruct (_status s'); try discriminate. reflexivity. }
  split.
  { intro H. apply F6.
    unfold status in H. destruct (_status s'); try discriminate. reflexivity. }
  split.
  { intros R B. destruct (locked ts) eqn:Lk; [reflexivity | exfalso].
    destruct (Hcons (F7 eq_refl)) as [[Hi _] _]. apply (Hi R). exact B. }
  intro Lk. split; [apply F7; exact Lk | apply Hcons, F7; exact Lk].
Qed.

Lemma fields_between_assignments_witness :
  is_ready (weng (wrun [WCall; WRun 0 (mk_load_env (Loaded (Model 7)) false);
                        WRun 0 (mk_load_env (Loaded (Model 7)) false);
                        WRun 0 (mk_load_env (Loaded (Model 7)) false);
                        WRun 0 (mk_load_env (Loaded (Model 7)) false)])) = true /\
  backend (weng (wrun [WCall; WRun 0 (mk_load_env (Loaded (Model 7)) false);
                       WRun 0 (mk_load_env (Loaded (Model 7)) false);
                       WRun 0 (mk_load_env (Loaded (Model 7)) false);
                       WRun 0 (mk_load_env (Loaded (Model 7)) false)])) = "none"%string /\
  locked (wthreads (wrun [WCall; WRun 0 (mk_load_env (Loaded (Model 7)) false);
                          WRun 0 (mk_load_env (Loaded (Model 7)) false);
                          WRun 0 (mk_load_env (Loaded (Model 7)) false);
                          WRun 0 (mk_load_env (Loaded (Model 7)) false)])) = true.
Proof.
  split; [reflexivity |]. split; [reflexivity |].
  apply (proj1 (proj2 (proj2 (proj2 (proj2 (proj2 (proj2
           (fields_between_assignments
              [WCall; WRun 0 (mk_load_env (Loaded (Model 7)) false);
               WRun 0 (mk_load_env (Loaded (Model 7)) false);
               WRun 0 (mk_load_env (Loaded (Model 7)) false);
               WRun 0 (mk_load_env (Loaded (Model 7)) false)])))))))); reflexivity.
Defined.

(** X28.  The window between [self._status = "ready"] and
    [self._backend = "xtts"] (lines 95 and 96).  While a thread is there
    the model is loaded and [is_ready] holds, yet [backend] still reads
    "none": a [generate] whose reads fall into the window passes
    [ensure_ready] and runs espeak-ng instead of the loaded model.  The
    next step of the thread closes the window. *)
Theorem request_between_two_writes_uses_espeak
    (L : librosa)
    (tts_to_file : model -> string -> string -> string -> result wav)
    (run_espeak : string -> string -> espeak_run)
    (env env' : load_env) (observe : nat -> engine)
    (tr : list wevent) (i : nat) (text speaker_wav language : string) :
  nth_error (wthreads (wrun tr)) i = Some (WInBlock [W_backend xtts]) ->
  let s := weng (wrun tr) in
  (exists m, _tts s = Some m) /\
  is_ready s = true /\
  backend s = "none"%string /\
  generate L tts_to_file run_espeak env observe s text speaker_wav language
  = (_generate_espeak L run_espeak text language, s) /\
  backend (weng (wrun (tr ++ [WRun i env']))) = "xtts"%string /\
  wthreads (wrun (tr ++ [WRun i env'])) = set_wpc i (WInBlock []) (wthreads (wrun tr)).
Proof.
  intros Hi s. pose proof (winv_run tr) as (_ & Hok & _).
  assert (Hbs : block_state s [W_backend xtts]).
  { apply nth_error_In in Hi.
    rewrite Forall_forall in Hok. apply (Hok _ Hi). }
  destruct Hbs as (env0 & done & s0 & Ew & (S0 & T0 & B0) & Es).
  assert (E : exists m, s = mk_engine (Some m) ready (_error_msg s0) None).
  { unfold finish_writes in Ew.
    destruct (primary env0) as [m | e]; [| destruct (espeak_found env0)];
      destruct done as [| d1 [| d2 [| d3 [| d4 done]]]]; simpl in Ew;
      try discriminate; inversion Ew; subst.
    exists m. rewrite Es. unfold apply_writes. simpl.
    rewrite B0. reflexivity. }
  destruct E as [m E].
  split; [exists m; rewrite E; reflexivity |].
  split; [rewrite E; reflexivity |].
  split; [rewrite E; reflexivity |].
  split; [rewrite E; reflexivity |].
  rewrite wrun_snoc. unfold wexec. rewrite Hi. cbn [weng wthreads].
  fold s. rewrite E. split; reflexivity.
Qed.

Lemma request_between_two_writes_uses_espeak_witness :
  nth_error (wthreads (wrun [WCall; WRun 0 (mk_load_env (Loaded (Model 7)) false);
                             WRun 0 (mk_load_env (Loaded (Model 7)) false);
                             WRun 0 (mk_load_env (Loaded (Model 7)) false);
                             WRun 0 (mk_load_env (Loaded (Model 7)) false)])) 0
  = Some (WInBlock [W_backend xtts]) /\
  generate interp_librosa
    (fun _ _ _ _ => Ok (mk_wav [0.5; -0.5] 24000 PCM_16))
    (fun _ _ => mk_espeak_run 1 "espeak-ng: not found" [] 0)
    (mk_load_env (Loaded (Model 7)) false) (fun _ => init)
    (weng (wrun [WCall; WRun 0 (mk_load_env (Loaded (Model 7)) false);
                 WRun 0 (mk_load_env (Loaded (Model 7)) false);
                 WRun 0 (mk_load_env (Loaded (Model 7)) false);
                 WRun 0 (mk_load_env (Loaded (Model 7)) false)]))
    "ola" "ref.wav" "pt"
  = (_generate_espeak interp_librosa
       (fun _ _ => mk_espeak_run 1 "espeak-ng: not found" [] 0) "ola" "pt",
     weng (wrun [WCall; WRun 0 (mk_load_env (Loaded (Model 7)) false);
                 WRun 0 (mk_load_env (Loaded (Model 7)) false);
                 WRun 0 (mk_load_env (Loaded (Model 7)) false);
                 WRun 0 (mk_load_env (Loaded (Model 7)) false)])).
Proof.
  assert (H : nth_error
                (wthreads (wrun [WCall; WRun 0 (mk_load_env (Loaded (Model 7)) false);
                                 WRun 0 (mk_load_env (Loaded (Model 7)) false);
                                 WRun 0 (mk_load_env (Loaded (Model 7)) false);
                                 WRun 0 (mk_load_env (Loaded (Model 7)) false)])) 0
              = Some (WInBlock [W_backend xtts])) by reflexivity.
  split; [exact H |].
  destruct (request_between_two_writes_uses_espeak
              interp_librosa
              (fun _ _ _ _ => Ok (mk_wav [0.5; -0.5] 24000 PCM_16))
              (fun _ _ => mk_espeak_run 1 "espeak-ng: not found" [] 0)
              (mk_load_env (Loaded (Model 7)) false)
              (mk_load_env (Loaded (Model 7)) false) (fun _ => init)
              _ 0%nat "ola"%string "ref.wav"%string "pt"%string H)
    as (_ & _ & _ & Hg & _).
  exact Hg.
Defined.

End WriteFacts.

(** * Properties of the gender detection *)

Module GenderFacts.

Import GenderDetection.

Lemma insert_sorted_length (x : R) (l : list R) :
  List.length (insert_sorted x l) = S (List.length l).
Proof.
  induction l as [| h t IH]; simpl; [reflexivity |].
  destruct (Rle_dec x h); simpl; [reflexivity | rewrite IH; reflexivity].
Qed.

Lemma sort_length (l : list R) : List.length (sort l) = List.length l.
Proof.
  induction l as [| h t IH]; simpl; [reflexivity |].
  rewrite insert_sorted_length, IH. reflexivity.
Qed.

Lemma insert_sorted_Forall (P : R -> Prop) (x : R) (l : list R) :
  P x -> Forall P l -> Forall P (insert_sorted x l).
Proof.
  intros Hx Hl. induction Hl as [| h t Hh Ht IH]; simpl.
  - repeat constructor. exact Hx.
  - destruct (Rle_dec x h); repeat constructor; assumption.
Qed.

Lemma insert_sorted_sorted (x : R) (l : list R) :
  StronglySorted Rle l -> StronglySorted Rle (insert_sorted x l).
Proof.
  intro H. induction H as [| h t Ht IH Hh]; simpl.
  - repeat constructor.
  - destruct (Rle_dec x h) as [Hle | Hgt].
    + constructor; [constructor; assumption |].
      constructor; [exact Hle |].
      eapply Forall_impl; [| exact Hh]. intros a Ha. simpl in Ha. lra.
    + constructor; [exact IH |].
      apply insert_sorted_Forall; [lra | exact Hh].
Qed.

Lemma sort_sorted (l : list R) : StronglySorted Rle (sort l).
Proof.
  induction l as [| h t IH]; simpl; [constructor |].
  apply insert_sorted_sorted. exact IH.
Qed.

Lemma count_ge_insert (c x : R) (l : list R) :
  count_ge c (insert_sorted x l) = count_ge c (x :: l).
Proof.
  induction l as [| h t IH]; [reflexivity |].
  simpl. destruct (Rle_dec x h); [reflexivity |].
  simpl. rewrite IH. simpl.
  destruct (Rle_dec c h), (Rle_dec c x); reflexivity.
Qed.

Lemma count_ge_sort (c : R) (l : list R) : count_ge c (sort l) = count_ge c l.
Proof.
  induction l as [| h t IH]; [reflexivity |].
  simpl sort. rewrite count_ge_insert. simpl. rewrite IH. reflexivity.
Qed.

Lemma count_lt_insert (c x : R) (l : list R) :
  count_lt c (insert_sorted x l) = count_lt c (x :: l).
Proof.
  induction l as [| h t IH]; [reflexivity |].
  simpl. destruct (Rle_dec x h); [reflexivity |].
  simpl. rewrite IH. simpl.
  destruct (Rlt_dec h c), (Rlt_dec x c); reflexivity.
Qed.

Lemma count_lt_sort (c : R) (l : list R) : count_lt c (sort l) = count_lt c l.
Proof.
  induction l as [| h t IH]; [reflexivity |].
  simpl sort. rewrite count_lt_insert. simpl. rewrite IH. reflexivity.
Qed.

Lemma count_ge_le_length (c : R) (l : list R) : (count_ge c l <= List.length l)%nat.
Proof.
  induction l as [| h t IH]; simpl; [lia |].
  destruct (Rle_dec c h); lia.
Qed.

Lemma count_lt_none (c : R) (l : list R) :
  Forall (fun x => c <= x) l -> count_lt c l = 0%nat.
Proof.
  induction 1 as [| h t Hh _ IH]; simpl; [reflexivity |].
  destruct (Rlt_dec h c); [lra | exact IH].
Qed.

(** In a sorted list the values at or above [c] are at the end. *)
Lemma sorted_tail_ge (c : R) (s : list R) :
  StronglySorted Rle s ->
  forall i : nat,
    (List.length s - count_ge c s <= i < List.length s)%nat -> c <= nth i s 0.
Proof.
  induction 1 as [| h t Ht IH Hh]; intros i Hi.
  - simpl in Hi. lia.
  - cbn [List.length count_ge] in Hi.
    destruct (Rle_dec c h) as [Hc | Hc].
    + destruct i as [| i]; [exact Hc |]. cbn [nth].
      assert (Hin : In (nth i t 0) t) by (apply nth_In; lia).
      rewrite Forall_forall in Hh. specialize (Hh _ Hin). lra.
    + pose proof (count_ge_le_length c t).
      destruct i as [| i]; [lia |]. cbn [nth]. apply IH. lia.
Qed.

(** In a sorted list the values below [c] are at the front. *)
Lemma sorted_head_lt (c : R) (s : list R) :
  StronglySorted Rle s ->
  forall i : nat, (i < count_lt c s)%nat -> nth i s 0 < c.
Proof.
  induction 1 as [| h t Ht IH Hh]; intros i Hi.
  - simpl in Hi. lia.
  - cbn [count_lt] in Hi.
    destruct (Rlt_dec h c) as [Hc | Hc].
    + destruct i as [| i]; [exact Hc |]. cbn [nth]. apply IH. lia.
    + exfalso. rewrite count_lt_none in Hi; [lia |].
      eapply Forall_impl; [| exact Hh]. intros a Ha. simpl in Ha. lra.
Qed.

Lemma count_lt_le_length (c : R) (l : list R) : (count_lt c l <= List.length l)%nat.
Proof.
  induction l as [| h t IH]; simpl; [lia |].
  destruct (Rlt_dec h c); lia.
Qed.

Lemma even_half (n : nat) : Nat.even n = true -> (n = 2 * (n / 2))%nat.
Proof.
  intro H. apply Nat.even_spec in H. destruct H as [m ->].
  rewrite Nat.mul_comm, Nat.div_mul by lia. lia.
Qed.

Lemma odd_half (n : nat) : Nat.even n = false -> (n = 2 * (n / 2) + 1)%nat.
Proof.
  intro H. assert (Ho : Nat.odd n = true) by (rewrite <- Nat.negb_even, H; reflexivity).
  apply Nat.odd_spec in Ho. destruct Ho as [m ->].
  replace (2 * m + 1)%nat with (1 + m * 2)%nat by lia.
  rewrite Nat.div_add by lia. simpl. lia.
Qed.

(** The median follows the majority. *)
Lemma nanmedian_ge (c : R) (l : list R) :
  (List.length l < 2 * count_ge c l)%nat -> c <= nanmedian l.
Proof.
  intro Hmaj. unfold nanmedian.
  pose proof (sort_sorted l) as Hs.
  pose proof (sorted_tail_ge c (sort l) Hs) as Htail.
  rewrite count_ge_sort, sort_length in *.
  pose proof (count_ge_le_length c l) as Hle.
  set (n := List.length l) in *. set (k := count_ge c l) in *.
  destruct (Nat.even n) eqn:E.
  - pose proof (even_half n E) as Hn.
    assert (c <= nth (n / 2 - 1) (sort l) 0) by (apply Htail; lia).
    assert (c <= nth (n / 2) (sort l) 0) by (apply Htail; lia).
    lra.
  - pose proof (odd_half n E) as Hn. apply Htail. lia.
Qed.

Lemma nanmedian_lt (c : R) (l : list R) :
  (List.length l < 2 * count_lt c l)%nat -> nanmedian l < c.
Proof.
  intro Hmaj. unfold nanmedian.
  pose proof (sort_sorted l) as Hs.
  pose proof (sorted_head_lt c (sort l) Hs) as Hhead.
  rewrite count_lt_sort in Hhead. rewrite sort_length.
  pose proof (count_lt_le_length c l) as Hle.
  set (n := List.length l) in *. set (k := count_lt c l) in *.
  destruct (Nat.even n) eqn:E.
  - pose proof (even_half n E) as Hn.
    assert (nth (n / 2 - 1) (sort l) 0 < c) by (apply Hhead; lia).
    assert (nth (n / 2) (sort l) 0 < c) by (apply Hhead; lia).
    lra.
  - pose proof (odd_half n E) as Hn. apply Hhead. lia.
Qed.

(** X17.  [detect_gender] never raises and answers "female", "male" or
    "unknown".  It answers "unknown" exactly when the analysis failed or
    no frame is voiced with a numeric f0.  Otherwise the median decides,
    so a strict majority of the voiced frames at or above 165 Hz gives
    "female" and a strict majority below 165 Hz gives "male". *)
Theorem detect_gender_follows_the_majority (analysis : result (list frame)) :
  In (detect_gender analysis) ["female"; "male"; "unknown"]%string /\
  (detect_gender analysis = "unknown"%string <->
     (exists e, analysis = Raise e) \/
     (exists frames, analysis = Ok frames /\ voiced_f0 frames = [])) /\
  (forall frames : list frame,
     analysis = Ok frames ->
     (List.length (voiced_f0 frames) < 2 * count_ge 165 (voiced_f0 frames))%nat ->
     detect_gender analysis = "female"%string) /\
  (forall frames : list frame,
     analysis = Ok frames ->
     (List.length (voiced_f0 frames) < 2 * count_lt 165 (voiced_f0 frames))%nat ->
     detect_gender analysis = "male"%string).
Proof.
  destruct analysis as [frames | e]; simpl.
  - destruct (voiced_f0 frames) as [| x v] eqn:V.
    + split; [simpl; auto |]. split.
      * split; [intros _; right; exists frames; split; [reflexivity | exact V] | reflexivity].
      * split; intros fs E H; injection E as <-; rewrite V in H; simpl in H; lia.
    + split.
      { destruct (Rle_dec 165 (nanmedian (x :: v))); simpl; auto. }
      split.
      { split.
        - destruct (Rle_dec 165 (nanmedian (x :: v))); discriminate.
        - intros [[e H] | [fs [E H]]]; [discriminate |].
          injection E as <-. rewrite V in H. discriminate. }
      split; intros fs E H; injection E as <-; rewrite V in H.
      * apply nanmedian_ge in H.
        destruct (Rle_dec 165 (nanmedian (x :: v))); [reflexivity | contradiction].
      * apply nanmedian_lt in H.
        destruct (Rle_dec 165 (nanmedian (x :: v))); [lra | reflexivity].
  - split; [simpl; auto |]. split.
    + split; [intros _; left; exists e; reflexivity | reflexivity].
    + split; intros fs E; discriminate.
Qed.

Lemma detect_gender_follows_the_majority_witness :
  Ok [mk_frame (Some 210) true; mk_frame None false; mk_frame (Some 120) true;
      mk_frame (Some 190) true; mk_frame (Some 90) false]
  = Ok [mk_frame (Some 210) true; mk_frame None false; mk_frame (Some 120) true;
        mk_frame (Some 190) true; mk_frame (Some 90) false] /\
  detect_gender
    (Ok [mk_frame (Some 210) true; mk_frame None false; mk_frame (Some 120) true;
         mk_frame (Some 190) true; mk_frame (Some 90) false])
  = "female"%string.
Proof.
  split; [reflexivity |].
  apply (proj1 (proj2 (proj2 (detect_gender_follows_the_majority _))) _ eq_refl).
  simpl.
  destruct (Rle_dec 165 210); [| lra].
  destruct (Rle_dec 165 120); [lra |].
  destruct (Rle_dec 165 190); [| lra].
  simpl. lia.
Defined.

End GenderFacts.

(** * Properties of the voice bank *)

Module BankFacts.

Import VoiceBank.

Lemma find_app_last {A : Type} (f : A -> bool) (l : list A) (x : A) :
  find f (l ++ [x]) =
  match find f l with
  | Some y => Some y
  | None => if f x then Some x else None
  end.
Proof.
  induction l as [| a l IH]; simpl; [reflexivity |].
  destruct (f a); [reflexivity | exact IH].
Qed.

Lemma file_exists_cons (js : json_file) (p q : string) (fs : list string) :
  file_exists (mk_bank js (q :: fs)) p = orb (String.eqb p q) (file_exists (mk_bank js fs) p).
Proof. reflexivity. Qed.

(** X18.  [add_voice] registers the voice behind every voice already
    stored.  After a successful call a lookup by id gives what it gave
    before for every id that was known, and the new voice for the new id
    when that id was not in use; the new voice then has its reference file
    in place.  Existing files stay.  When the copy fails nothing is
    stored. *)
Theorem add_voice_then_get
    (vid now suffix name gender language description : string) (b : bank) :
  add_voice vid now suffix false name gender language description b = (None, b) /\
  let v := mk_voice vid name gender language description
                    (REFERENCES_DIR ++ "/" ++ vid ++ suffix)%string now in
  let b' := snd (add_voice vid now suffix true name gender language description b) in
  fst (add_voice vid now suffix true name gender language description b) = Some v /\
  _load b' = _load b ++ [v] /\
  (forall id' : string,
     get_voice id' b' =
     match get_voice id' b with
     | Some w => Some w
     | None => if String.eqb vid id' then Some v else None
     end) /\
  (get_voice vid b = None ->
     get_voice vid b' = Some v /\
     get_reference_path vid b' = Some (v_reference_file v)) /\
  (forall p : string, file_exists b p = true -> file_exists b' p = true).
Proof.
  split; [reflexivity |].
  intros v b'. unfold b', add_voice. cbn [fst snd].
  assert (Hget : forall id' : string,
             get_voice id'
               (_save (_load (mk_bank (json b) ((REFERENCES_DIR ++ "/" ++ vid ++ suffix)%string
                                                  :: files b)) ++ [v])
                      (mk_bank (json b) ((REFERENCES_DIR ++ "/" ++ vid ++ suffix)%string
                                           :: files b)))
             = match get_voice id' b with
               | Some w => Some w
               | None => if String.eqb vid id' then Some v else None
               end).
  { intro id'. unfold get_voice, _save, _load. cbn [json].
    rewrite find_app_last. reflexivity. }
  split; [reflexivity |]. split; [reflexivity |]. split; [exact Hget |]. split.
  - intro Hnone. split.
    + rewrite Hget, Hnone, String.eqb_refl. reflexivity.
    + unfold get_reference_path. rewrite Hget, Hnone, String.eqb_refl.
      unfold _save, file_exists. cbn [files v_reference_file v existsb].
      rewrite String.eqb_refl. reflexivity.
  - intros p Hp. unfold _save, file_exists in *. cbn [files existsb].
    rewrite Hp. apply orb_true_r.
Qed.

Lemma add_voice_then_get_witness :
  get_voice "id-1" (mk_bank (Voices []) []) = None /\
  get_voice "id-1"
    (snd (add_voice "id-1" "2024-05-01T10:00:00+00:00" ".wav" true
            "Ana" "female" "pt" "" (mk_bank (Voices []) [])))
  = Some (mk_voice "id-1" "Ana" "female" "pt" "" "data/references/id-1.wav"
                   "2024-05-01T10:00:00+00:00").
Proof.
  split; [reflexivity |].
  destruct (add_voice_then_get "id-1" "2024-05-01T10:00:00+00:00" ".wav"
              "Ana" "female" "pt" "" (mk_bank (Voices []) []))
    as (_ & _ & _ & _ & H & _).
  exact (proj1 (H eq_refl)).
Defined.

(** X19.  A voices file that is missing or cannot be parsed is read as an
    empty bank: listing gives nothing, lookups, updates and deletions find
    nothing and change nothing.  The next [add_voice] then writes a file
    that holds the new voice only. *)
Theorem unreadable_store_reads_as_empty
    (b : bank) (gender language : option string) (voice_id : string)
    (kwargs : list (string * string))
    (vid now suffix name g l d : string) :
  json b = Missing \/ json b = Unreadable ->
  list_voices gender language b = [] /\
  get_voice voice_id b = None /\
  get_reference_path voice_id b = None /\
  update_voice voice_id kwargs b = (None, b) /\
  delete_voice voice_id b = (false, b) /\
  json (snd (add_voice vid now suffix true name g l d b)) =
    Voices [mk_voice vid name g l d (REFERENCES_DIR ++ "/" ++ vid ++ suffix)%string now].
Proof.
  intro H.
  assert (E : _load b = []) by (unfold _load; destruct H as [-> | ->]; reflexivity).
  unfold list_voices, get_voice, get_reference_path, update_voice, delete_voice,
    add_voice, get_voice.
  cbn [snd]. unfold _save. cbn [json].
  replace (_load (mk_bank (json b) ((REFERENCES_DIR ++ "/" ++ vid ++ suffix)%string :: files b)))
    with (_load b) by reflexivity.
  rewrite E. simpl.
  split.
  { unfold filter_by. destruct (filter_active gender), (filter_active language); reflexivity. }
  repeat split.
Qed.

Lemma unreadable_store_reads_as_empty_witness :
  (json (mk_bank Unreadable ["data/references/old.wav"%string]) = Missing \/
   json (mk_bank Unreadable ["data/references/old.wav"%string]) = Unreadable) /\
  json (snd (add_voice "id-2" "2024-05-02T10:00:00+00:00" ".wav" true
               "Rui" "male" "pt" ""
               (mk_bank Unreadable ["data/references/old.wav"%string])))
  = Voices [mk_voice "id-2" "Rui" "male" "pt" ""
                     (REFERENCES_DIR ++ "/" ++ "id-2" ++ ".wav")%string
                     "2024-05-02T10:00:00+00:00"].
Proof.
  assert (H : json (mk_bank Unreadable ["data/references/old.wav"%string]) = Missing \/
              json (mk_bank Unreadable ["data/references/old.wav"%string]) = Unreadable)
    by (right; reflexivity).
  split; [exact H |].
  apply (unreadable_store_reads_as_empty
           (mk_bank Unreadable ["data/references/old.wav"%string])
           None None "x" [] "id-2" "2024-05-02T10:00:00+00:00" ".wav"
           "Rui" "male" "pt" "" H).
Defined.

(** ** delete_voice *)

Lemma find_filter_other (voice_id id' : string) (l : list voice) :
  id' <> voice_id ->
  find (fun v => String.eqb (v_id v) id')
       (filter (fun v => negb (String.eqb (v_id v) voice_id)) l)
  = find (fun v => String.eqb (v_id v) id') l.
Proof.
  intro Hne. induction l as [| v l IH]; simpl; [reflexivity |].
  destruct (String.eqb (v_id v) voice_id) eqn:E; simpl.
  - apply String.eqb_eq in E.
    destruct (String.eqb (v_id v) id') eqn:E'; [| exact IH].
    apply String.eqb_eq in E'. congruence.
  - rewrite IH. reflexivity.
Qed.

Lemma find_filter_same (voice_id : string) (l : list voice) :
  find (fun v => String.eqb (v_id v) voice_id)
       (filter (fun v => negb (String.eqb (v_id v) voice_id)) l) = None.
Proof.
  induction l as [| v l IH]; simpl; [reflexivity |].
  destruct (String.eqb (v_id v) voice_id) eqn:E; simpl; [exact IH |].
  rewrite E. exact IH.
Qed.

Lemma existsb_unlink_same (p : string) (fs : list string) :
  existsb (String.eqb p) (unlink p fs) = false.
Proof.
  unfold unlink. induction fs as [| q fs IH]; simpl; [reflexivity |].
  destruct (String.eqb q p) eqn:E; simpl; [exact IH |].
  rewrite String.eqb_sym, E. exact IH.
Qed.

Lemma existsb_unlink_other (p q : string) (fs : list string) :
  q <> p -> existsb (String.eqb q) (unlink p fs) = existsb (String.eqb q) fs.
Proof.
  intro Hne. unfold unlink. induction fs as [| r fs IH]; simpl; [reflexivity |].
  destruct (String.eqb r p) eqn:E; simpl.
  - apply String.eqb_eq in E. subst r.
    apply String.eqb_neq in Hne. rewrite Hne. exact IH.
  - rewrite IH. reflexivity.
Qed.

Lemma _load_Voices (l : list voice) (fs : list string) :
  _load (mk_bank (Voices l) fs) = l.
Proof. reflexivity. Qed.

(** X20.  [delete_voice] answers [True] exactly when the id is known, and
    otherwise changes nothing.  After it a lookup of the id finds nothing
    (every entry with the id is gone), lookups of other ids are as
    before, the reference file of the deleted voice no longer exists and
    no other file was touched. *)
Theorem delete_voice_forgets_the_voice (voice_id : string) (b : bank) :
  (fst (delete_voice voice_id b) = true <-> get_voice voice_id b <> None) /\
  (get_voice voice_id b = None -> delete_voice voice_id b = (false, b)) /\
  get_voice voice_id (snd (delete_voice voice_id b)) = None /\
  get_reference_path voice_id (snd (delete_voice voice_id b)) = None /\
  (forall id' : string,
     id' <> voice_id ->
     get_voice id' (snd (delete_voice voice_id b)) = get_voice id' b) /\
  (forall v : voice,
     get_voice voice_id b = Some v ->
     file_exists (snd (delete_voice voice_id b)) (v_reference_file v) = false /\
     forall p : string,
       p <> v_reference_file v ->
       file_exists (snd (delete_voice voice_id b)) p = file_exists b p).
Proof.
  unfold delete_voice, get_reference_path, get_voice.
  destruct (find (fun v => String.eqb (v_id v) voice_id) (_load b)) as [v |] eqn:F.
  - cbn [fst snd]. rewrite !_load_Voices, find_filter_same.
    split; [split; [discriminate | reflexivity] |].
    split; [discriminate |].
    split; [reflexivity |]. split; [reflexivity |]. split.
    + intros id' Hne. apply find_filter_other. exact Hne.
    + intros v0 E. injection E as <-. unfold file_exists. cbn [files].
      destruct (existsb (String.eqb (v_reference_file v)) (files b)) eqn:X.
      * split; [apply existsb_unlink_same |].
        intros p Hp. apply existsb_unlink_other. exact Hp.
      * split; [exact X | reflexivity].
  - cbn [fst snd]. rewrite F.
    split; [split; [discriminate | intro H; exfalso; apply H; reflexivity] |].
    split; [reflexivity |]. split; [reflexivity |]. split; [reflexivity |].
    split; [reflexivity |]. intros v E. discriminate.
Qed.

Lemma delete_voice_forgets_the_voice_witness :
  "id-2"%string <> "id-1"%string /\
  get_voice "id-2"
    (snd (delete_voice "id-1"
            (mk_bank (Voices [mk_voice "id-1" "Ana" "female" "pt" "" "r/1.wav" "t1";
                              mk_voice "id-2" "Rui" "male" "pt" "" "r/2.wav" "t2"])
                     ["r/1.wav"; "r/2.wav"]%string)))
  = get_voice "id-2"
      (mk_bank (Voices [mk_voice "id-1" "Ana" "female" "pt" "" "r/1.wav" "t1";
                        mk_voice "id-2" "Rui" "male" "pt" "" "r/2.wav" "t2"])
               ["r/1.wav"; "r/2.wav"]%string).
Proof.
  assert (H : "id-2"%string <> "id-1"%string) by discriminate.
  split; [exact H |].
  destruct (delete_voice_forgets_the_voice "id-1"
              (mk_bank (Voices [mk_voice "id-1" "Ana" "female" "pt" "" "r/1.wav" "t1";
                                mk_voice "id-2" "Rui" "male" "pt" "" "r/2.wav" "t2"])
                       ["r/1.wav"; "r/2.wav"]%string))
    as (_ & _ & _ & _ & Hother & _).
  exact (Hother "id-2"%string H).
Defined.

(** ** update_voice *)

Lemma set_allowed_fixed (k val : string) (v : voice) :
  v_id (set_allowed k val v) = v_id v /\
  v_reference_file (set_allowed k val v) = v_reference_file v /\
  v_created_at (set_allowed k val v) = v_created_at v.
Proof.
  unfold set_allowed, allowed. simpl existsb.
  destruct (String.eqb k "name") eqn:E1.
  { apply String.eqb_eq in E1. subst k. simpl. repeat split. }
  destruct (String.eqb k "gender") eqn:E2.
  { apply String.eqb_eq in E2. subst k. simpl. repeat split. }
  destruct (String.eqb k "language") eqn:E3.
  { apply String.eqb_eq in E3. subst k. simpl. repeat split. }
  destruct (String.eqb k "description") eqn:E4.
  { apply String.eqb_eq in E4. subst k. simpl. repeat split. }
  simpl. repeat split.
Qed.

Lemma apply_kwargs_fixed (kwargs : list (string * string)) (v : voice) :
  v_id (apply_kwargs kwargs v) = v_id v /\
  v_reference_file (apply_kwargs kwargs v) = v_reference_file v /\
  v_created_at (apply_kwargs kwargs v) = v_created_at v.
Proof.
  unfold apply_kwargs. revert v.
  induction kwargs as [| [k val] kwargs IH]; intro v; simpl; [repeat split |].
  destruct (IH (set_allowed k val v)) as (H1 & H2 & H3).
  destruct (set_allowed_fixed k val v) as (F1 & F2 & F3).
  repeat split; congruence.
Qed.

Lemma apply_kwargs_allowed_only (kwargs : list (string * string)) (v : voice) :
  apply_kwargs (filter (fun kv => existsb (String.eqb (fst kv)) allowed) kwargs) v
  = apply_kwargs kwargs v.
Proof.
  unfold apply_kwargs. revert v.
  induction kwargs as [| [k val] kwargs IH]; intro v; [reflexivity |].
  cbn [filter fst].
  destruct (existsb (String.eqb k) allowed) eqn:E.
  - cbn [fold_left fst snd]. apply IH.
  - cbn [fold_left fst snd].
    assert (Es : set_allowed k val v = v) by (unfold set_allowed; rewrite E; reflexivity).
    rewrite Es. apply IH.
Qed.

Lemma update_first_spec (voice_id : string) (kwargs : list (string * string))
    (l : list voice) :
  match find (fun v => String.eqb (v_id v) voice_id) l with
  | None => update_first voice_id kwargs l = None
  | Some v =>
      exists l' : list voice,
        update_first voice_id kwargs l = Some (apply_kwargs kwargs v, l') /\
        find (fun w => String.eqb (v_id w) voice_id) l' = Some (apply_kwargs kwargs v) /\
        (forall id' : string,
           id' <> voice_id ->
           find (fun w => String.eqb (v_id w) id') l' =
           find (fun w => String.eqb (v_id w) id') l) /\
        map v_id l' = map v_id l
  end.
Proof.
  induction l as [| a l IH]; simpl; [reflexivity |].
  destruct (String.eqb (v_id a) voice_id) eqn:E.
  - destruct (apply_kwargs_fixed kwargs a) as (Hid & _ & _).
    exists (apply_kwargs kwargs a :: l). split; [reflexivity |]. split; [| split].
    + simpl. rewrite Hid, E. reflexivity.
    + intros id' Hne. simpl. rewrite Hid.
      apply String.eqb_eq in E.
      assert (En : String.eqb (v_id a) id' = false)
        by (apply String.eqb_neq; congruence).
      rewrite En. reflexivity.
    + simpl. rewrite Hid. reflexivity.
  - destruct (find (fun v => String.eqb (v_id v) voice_id) l) as [v |].
    + destruct IH as (l' & Hu & Hf & Ho & Hm).
      exists (a :: l'). rewrite Hu. split; [reflexivity |]. split; [| split].
      * simpl. rewrite E. exact Hf.
      * intros id' Hne. simpl. rewrite (Ho id' Hne). reflexivity.
      * simpl. rewrite Hm. reflexivity.
    + rewrite IH. reflexivity.
Qed.

Lemma update_first_allowed_only (voice_id : string) (kwargs : list (string * string))
    (l : list voice) :
  update_first voice_id
    (filter (fun kv => existsb (String.eqb (fst kv)) allowed) kwargs) l
  = update_first voice_id kwargs l.
Proof.
  induction l as [| a l IH]; cbn [update_first]; [reflexivity |].
  rewrite IH, apply_kwargs_allowed_only. reflexivity.
Qed.

(** X21.  [update_voice] answers [None] and changes nothing for an unknown
    id.  For a known id it updates the first entry with that id, which a
    later lookup returns; the id, the reference file and the creation
    time of the entry never change, keys outside name, gender, language
    and description are ignored, the other entries, their order and the
    files stay as they are. *)
Theorem update_voice_touches_only_allowed_fields
    (voice_id : string) (kwargs : list (string * string)) (b : bank) :
  (get_voice voice_id b = None -> update_voice voice_id kwargs b = (None, b)) /\
  (forall v : voice,
     get_voice voice_id b = Some v ->
     fst (update_voice voice_id kwargs b) = Some (apply_kwargs kwargs v) /\
     get_voice voice_id (snd (update_voice voice_id kwargs b))
       = Some (apply_kwargs kwargs v) /\
     v_id (apply_kwargs kwargs v) = v_id v /\
     v_reference_file (apply_kwargs kwargs v) = v_reference_file v /\
     v_created_at (apply_kwargs kwargs v) = v_created_at v /\
     map v_id (_load (snd (update_voice voice_id kwargs b))) = map v_id (_load b) /\
     files (snd (update_voice voice_id kwargs b)) = files b) /\
  (forall id' : string,
     id' <> voice_id ->
     get_voice id' (snd (update_voice voice_id kwargs b)) = get_voice id' b) /\
  update_voice voice_id
    (filter (fun kv => existsb (String.eqb (fst kv)) allowed) kwargs) b
  = update_voice voice_id kwargs b.
Proof.
  pose proof (update_first_spec voice_id kwargs (_load b)) as H.
  unfold get_voice, update_voice.
  split; [| split; [| split]].
  - intro F. rewrite F in H. rewrite H. reflexivity.
  - intros v F. rewrite F in H. destruct H as (l' & Hu & Hf & _ & Hm).
    rewrite Hu. cbn [fst snd]. unfold _save. rewrite _load_Voices.
    destruct (apply_kwargs_fixed kwargs v) as (H1 & H2 & H3).
    repeat split; assumption.
  - intros id' Hne.
    destruct (find (fun v => String.eqb (v_id v) voice_id) (_load b)) as [v |].
    + destruct H as (l' & Hu & _ & Ho & _). rewrite Hu. cbn [snd].
      unfold _save. rewrite _load_Voices. apply Ho. exact Hne.
    + rewrite H. reflexivity.
  - rewrite update_first_allowed_only. reflexivity.
Qed.

Lemma update_voice_touches_only_allowed_fields_witness :
  get_voice "id-1"
    (mk_bank (Voices [mk_voice "id-1" "Ana" "female" "pt" "" "r/1.wav" "t1"]) [])
  = Some (mk_voice "id-1" "Ana" "female" "pt" "" "r/1.wav" "t1") /\
  fst (update_voice "id-1" [("name", "Anna"); ("id", "id-9")]%string
         (mk_bank (Voices [mk_voice "id-1" "Ana" "female" "pt" "" "r/1.wav" "t1"]) []))
  = Some (apply_kwargs [("name", "Anna"); ("id", "id-9")]%string
            (mk_voice "id-1" "Ana" "female" "pt" "" "r/1.wav" "t1")).
Proof.
  split; [reflexivity |].
  destruct (update_voice_touches_only_allowed_fields "id-1"
              [("name", "Anna"); ("id", "id-9")]%string
              (mk_bank (Voices [mk_voice "id-1" "Ana" "female" "pt" "" "r/1.wav" "t1"]) []))
    as (_ & H & _).
  exact (proj1 (H _ eq_refl)).
Defined.

(** ** list_voices *)

Lemma insert_newest_perm (v : voice) (l : list voice) :
  Permutation (insert_newest v l) (v :: l).
Proof.
  induction l as [| w l IH]; simpl; [apply Permutation_refl |].
  destruct (String.ltb (v_created_at v) (v_created_at w)).
  - apply Permutation_trans with (w :: v :: l).
    + apply perm_skip. exact IH.
    + apply perm_swap.
  - apply Permutation_refl.
Qed.

Lemma sorted_newest_perm (l : list voice) : Permutation (sorted_newest l) l.
Proof.
  induction l as [| v l IH]; simpl; [apply perm_nil |].
  apply Permutation_trans with (v :: sorted_newest l).
  - apply insert_newest_perm.
  - apply perm_skip. exact IH.
Qed.

Lemma ltb_newer (a b : string) : String.ltb a b = true -> String.leb a b = true.
Proof.
  unfold String.ltb, String.leb. destruct (String.compare a b); auto; discriminate.
Qed.

Lemma not_ltb_newer (a b : string) : String.ltb a b = false -> String.leb b a = true.
Proof.
  unfold String.ltb, String.leb. rewrite (String.compare_antisym b a).
  destruct (String.compare a b); simpl; auto; discriminate.
Qed.

Lemma insert_newest_sorted (v : voice) (l : list voice) :
  Sorted newer_or_equal l -> Sorted newer_or_equal (insert_newest v l).
Proof.
  intro H. induction H as [| w l Hs IH Hh]; simpl.
  - repeat constructor.
  - destruct (String.ltb (v_created_at v) (v_created_at w)) eqn:E.
    + constructor; [exact IH |].
      destruct l as [| u l]; simpl.
      * constructor. unfold newer_or_equal. apply ltb_newer. exact E.
      * destruct (String.ltb (v_created_at v) (v_created_at u)).
        -- constructor. inversion Hh; subst. assumption.
        -- constructor. unfold newer_or_equal. apply ltb_newer. exact E.
    + constructor; [constructor; assumption |].
      constructor. unfold newer_or_equal. apply not_ltb_newer. exact E.
Qed.

Lemma sorted_newest_sorted (l : list voice) : Sorted newer_or_equal (sorted_newest l).
Proof.
  induction l as [| v l IH]; simpl; [constructor |].
  apply insert_newest_sorted. exact IH.
Qed.

Lemma filter_by_In (field : voice -> string) (f : option string) (l : list voice)
    (v : voice) :
  In v (filter_by field f l) <-> In v l /\ passes f (field v).
Proof.
  unfold filter_by, passes. destruct (filter_active f) as [s |].
  - rewrite filter_In, String.eqb_eq. reflexivity.
  - tauto.
Qed.

(** X22.  [list_voices] returns exactly the stored voices that pass the
    two filters, each as often as it is stored, newest first by creation
    time.  A filter that is [None], empty or "all" is off; with both off
    every stored voice is listed. *)
Theorem list_voices_filters_and_sorts (gender language : option string) (b : bank) :
  Permutation (list_voices gender language b)
    (filter_by v_language language (filter_by v_gender gender (_load b))) /\
  Sorted newer_or_equal (list_voices gender language b) /\
  (forall v : voice,
     In v (list_voices gender language b) <->
     In v (_load b) /\ passes gender (v_gender v) /\ passes language (v_language v)) /\
  (forall f : option string,
     f = None \/ f = Some ""%string \/ f = Some "all"%string -> filter_active f = None) /\
  (forall (f : option string) (s : string),
     f = Some s -> s <> ""%string -> s <> "all"%string -> filter_active f = Some s) /\
  (filter_active gender = None -> filter_active language = None ->
   Permutation (list_voices gender language b) (_load b)).
Proof.
  assert (P : Permutation (list_voices gender language b)
                (filter_by v_language language (filter_by v_gender gender (_load b))))
    by apply sorted_newest_perm.
  split; [exact P |]. split; [apply sorted_newest_sorted |]. split; [| split; [| split]].
  - intro v. split.
    + intro H. apply (Permutation_in _ P) in H.
      apply filter_by_In in H. destruct H as [H Hl].
      apply filter_by_In in H. tauto.
    + intros (H & Hg & Hl). apply (Permutation_in _ (Permutation_sym P)).
      apply filter_by_In. split; [| exact Hl].
      apply filter_by_In. split; assumption.
  - intros f [-> | [-> | ->]]; reflexivity.
  - intros f s -> H1 H2. unfold filter_active.
    apply String.eqb_neq in H1, H2. rewrite H1, H2. reflexivity.
  - intros Hg Hl. unfold filter_by in P. rewrite Hg, Hl in P. exact P.
Qed.

Lemma list_voices_filters_and_sorts_witness :
  filter_active (Some "all"%string) = None /\
  filter_active None = None /\
  Permutation
    (list_voices (Some "all"%string) None
       (mk_bank (Voices [mk_voice "id-1" "Ana" "female" "pt" "" "r/1.wav" "2024-01-01";
                         mk_voice "id-2" "Rui" "male" "pt" "" "r/2.wav" "2024-03-01"]) []))
    (_load
       (mk_bank (Voices [mk_voice "id-1" "Ana" "female" "pt" "" "r/1.wav" "2024-01-01";
                         mk_voice "id-2" "Rui" "male" "pt" "" "r/2.wav" "2024-03-01"]) [])).
Proof.
  assert (H1 : filter_active (Some "all"%string) = None) by reflexivity.
  assert (H2 : filter_active None = None) by reflexivity.
  split; [exact H1 |]. split; [exact H2 |].
  destruct (list_voices_filters_and_sorts (Some "all"%string) None
              (mk_bank (Voices [mk_voice "id-1" "Ana" "female" "pt" "" "r/1.wav" "2024-01-01";
                                mk_voice "id-2" "Rui" "male" "pt" "" "r/2.wav" "2024-03-01"])
                       []))
    as (_ & _ & _ & _ & _ & H).
  exact (H H1 H2).
Defined.

(** ** Ids *)

Lemma find_id_None (voice_id : string) (l : list voice) :
  find (fun v => String.eqb (v_id v) voice_id) l = None <-> ~ In voice_id (map v_id l).
Proof.
  induction l as [| v l IH]; simpl.
  - split; [intros _ [] | reflexivity].
  - destruct (String.eqb (v_id v) voice_id) eqn:E.
    + apply String.eqb_eq in E. split; [discriminate | intro H; exfalso; apply H; auto].
    + apply String.eqb_neq in E. rewrite IH. tauto.
Qed.

Lemma NoDup_ids_filter (p : voice -> bool) (l : list voice) :
  NoDup (map v_id l) -> NoDup (map v_id (filter p l)).
Proof.
  induction l as [| v l IH]; simpl; intro H; [constructor |].
  inversion H as [| ? ? Hn Hd]; subst.
  destruct (p v); simpl; [| apply IH; exact Hd].
  constructor; [| apply IH; exact Hd].
  intro Hin. apply Hn. apply in_map_iff in Hin. destruct Hin as (w & Ew & Hw).
  apply filter_In in Hw. apply in_map_iff. exists w. tauto.
Qed.

Lemma filter_id_length (voice_id : string) (l : list voice) :
  NoDup (map v_id l) -> In voice_id (map v_id l) ->
  S (List.length (filter (fun v => negb (String.eqb (v_id v) voice_id)) l)) = List.length l.
Proof.
  induction l as [| v l IH]; simpl; intros Hd Hin; [contradiction |].
  inversion Hd as [| ? ? Hn Hd']; subst.
  destruct (String.eqb (v_id v) voice_id) eqn:E; simpl.
  - apply String.eqb_eq in E. f_equal. rewrite E in Hn.
    clear - Hn. induction l as [| w l IH]; simpl; [reflexivity |].
    destruct (String.eqb (v_id w) voice_id) eqn:E; simpl.
    + apply String.eqb_eq in E. exfalso. apply Hn. simpl. auto.
    + f_equal. apply IH. intro H. apply Hn. simpl. auto.
  - apply String.eqb_neq in E. f_equal. apply IH; [exact Hd' |].
    destruct Hin as [H | H]; [contradiction | exact H].
Qed.

(** X23.  Ids stay unique.  When no two stored voices share an id, this
    still holds after [add_voice] with an id that is not in use, after any
    [update_voice] and after any [delete_voice]; a deletion of a known id
    then removes exactly one voice. *)
Theorem ids_stay_unique (b : bank) :
  NoDup (map v_id (_load b)) ->
  (forall vid now suffix name gender language description : string,
     get_voice vid b = None ->
     NoDup (map v_id (_load (snd (add_voice vid now suffix true
                                    name gender language description b))))) /\
  (forall (voice_id : string) (kwargs : list (string * string)),
     NoDup (map v_id (_load (snd (update_voice voice_id kwargs b))))) /\
  (forall voice_id : string,
     NoDup (map v_id (_load (snd (delete_voice voice_id b)))) /\
     (get_voice voice_id b <> None ->
      S (List.length (_load (snd (delete_voice voice_id b)))) = List.length (_load b))).
Proof.
  intro Hd. split; [| split].
  - intros vid now suffix name gender language description Hnone.
    unfold add_voice. cbn [snd]. unfold _save. rewrite _load_Voices.
    change (_load (mk_bank (json b) ((REFERENCES_DIR ++ "/" ++ vid ++ suffix)%string :: files b)))
      with (_load b).
    rewrite map_app. simpl.
    apply NoDup_app_remove_l with (l := []). simpl.
    apply (Permutation_NoDup (l := vid :: map v_id (_load b))).
    + apply Permutation_cons_append.
    + constructor; [| exact Hd]. apply find_id_None. exact Hnone.
  - intros voice_id kwargs.
    pose proof (update_first_spec voice_id kwargs (_load b)) as H.
    unfold update_voice.
    destruct (find (fun v => String.eqb (v_id v) voice_id) (_load b)) as [v |].
    + destruct H as (l' & Hu & _ & _ & Hm). rewrite Hu. cbn [snd].
      unfold _save. rewrite _load_Voices, Hm. exact Hd.
    + rewrite H. exact Hd.
  - intro voice_id. unfold delete_voice, get_voice.
    destruct (find (fun v => String.eqb (v_id v) voice_id) (_load b)) as [v |] eqn:F.
    + cbn [snd]. rewrite _load_Voices. split.
      * apply NoDup_ids_filter. exact Hd.
      * intros _. apply filter_id_length; [exact Hd |].
        destruct (in_dec string_dec voice_id (map v_id (_load b))) as [H | H]; [exact H |].
        apply find_id_None in H. congruence.
    + cbn [snd]. split; [exact Hd |]. intro H. exfalso. apply H. reflexivity.
Qed.

Lemma ids_stay_unique_witness :
  NoDup (map v_id
           (_load (mk_bank (Voices [mk_voice "id-1" "Ana" "female" "pt" "" "r/1.wav" "t1";
                                    mk_voice "id-2" "Rui" "male" "pt" "" "r/2.wav" "t2"])
                           []))) /\
  NoDup (map v_id
           (_load (snd (delete_voice "id-1"
                          (mk_bank (Voices [mk_voice "id-1" "Ana" "female" "pt" "" "r/1.wav" "t1";
                                            mk_voice "id-2" "Rui" "male" "pt" "" "r/2.wav" "t2"])
                                   []))))).
Proof.
  assert (H : NoDup (map v_id
                (_load (mk_bank (Voices [mk_voice "id-1" "Ana" "female" "pt" "" "r/1.wav" "t1";
                                         mk_voice "id-2" "Rui" "male" "pt" "" "r/2.wav" "t2"])
                                [])))).
  { simpl. constructor.
    - intros [E | []]. discriminate.
    - constructor; [intros [] | constructor]. }
  split; [exact H |].
  destruct (ids_stay_unique _ H) as (_ & _ & Hdel).
  exact (proj1 (Hdel "id-1"%string)).
Defined.

End BankFacts.

(** * Properties of the request handlers *)

Module MainFacts.

Import AudioProcessing TTSEngine EngineViews GenderDetection VoiceBank Main.
Import ChainFacts EngineFacts ChainExtra GenderFacts BankFacts.

Lemma is_ready_status (s : engine) : is_ready s = true <-> _status s = ready.
Proof.
  unfold is_ready. destruct (_status s); simpl; split; intro H;
    try discriminate; reflexivity.
Qed.

Lemma generate_ready_state
    (L : librosa) (tts_to_file : model -> string -> string -> string -> result wav)
    (run_espeak : string -> string -> espeak_run)
    (env : load_env) (observe : nat -> engine) (s : engine)
    (text speaker_wav language : string) :
  _status s = ready ->
  snd (generate L tts_to_file run_espeak env observe s text speaker_wav language) = s.
Proof.
  intro H. unfold generate. rewrite (ensure_ready_ready env observe s H).
  destruct (_backend s) as [[|] |]; reflexivity.
Qed.

Lemma get_reference_path_voice (voice_id : string) (b : bank) (p : string) :
  get_reference_path voice_id b = Some p -> exists v, get_voice voice_id b = Some v.
Proof.
  unfold get_reference_path. destruct (get_voice voice_id b) as [v |]; [| discriminate].
  intros _. exists v. reflexivity.
Qed.

Section Handlers.

Variable L : librosa.
Variable tts_to_file : model -> string -> string -> string -> result wav.
Variable run_espeak : string -> string -> espeak_run.

(** X24.  [generate_tts] answers 503 exactly when the engine is not ready
    (what [GET /api/status] reports as [model_ready]), without loading,
    waiting or touching the engine; a ready engine is left as it is too.
    It answers 404 exactly when the engine is ready and the voice or its
    reference file is missing, 500 exactly when the synthesis raised, and
    it returns a file in every other case: a failure of the mood chain
    never fails the request, the raw synthesis is returned instead. *)
Theorem generate_tts_outcomes
    (env : load_env) (observe : nat -> engine) (s : engine) (b : bank)
    (req : GenerateRequest) :
  (model_ready (get_status s) = false <->
     exists d, fst (generate_tts L tts_to_file run_espeak env observe s b req)
               = HTTPException 503 d) /\
  snd (generate_tts L tts_to_file run_espeak env observe s b req) = s /\
  (is_ready s = true ->
   get_reference_path (voice_id req) b = None <->
   exists d, fst (generate_tts L tts_to_file run_espeak env observe s b req)
             = HTTPException 404 d) /\
  (forall ref_path : string,
     is_ready s = true ->
     get_reference_path (voice_id req) b = Some ref_path ->
     match fst (generate L tts_to_file run_espeak env observe s
                  (text req) ref_path (language req)) with
     | Raise e =>
         fst (generate_tts L tts_to_file run_espeak env observe s b req)
         = HTTPException 500 (TextExn "" e)
     | Ok raw =>
         fst (generate_tts L tts_to_file run_espeak env observe s b req)
         = Return (match apply_mood L (wav_samples raw) (wav_sr raw)
                           (mood req) (intensity req) with
                   | Ok out => out
                   | Raise _ => raw
                   end)
     end).
Proof.
  unfold generate_tts, get_status. cbn [model_ready].
  destruct (is_ready s) eqn:R; cbn [negb].
  - apply is_ready_status in R.
    pose proof (generate_ready_state L tts_to_file run_espeak env observe s) as Hs.
    split; [| split; [| split]].
    + split; [discriminate |]. intros [d H].
      destruct (get_voice (voice_id req) b); [| discriminate].
      destruct (get_reference_path (voice_id req) b) as [p |]; [| discriminate].
      destruct (generate L tts_to_file run_espeak env observe s (text req) p (language req))
        as [[raw | e] s']; [| discriminate].
      destruct (apply_mood L (wav_samples raw) (wav_sr raw) (mood req) (intensity req));
        discriminate.
    + destruct (get_voice (voice_id req) b); [| reflexivity].
      destruct (get_reference_path (voice_id req) b) as [p |]; [| reflexivity].
      specialize (Hs (text req) p (language req) R).
      destruct (generate L tts_to_file run_espeak env observe s (text req) p (language req))
        as [[raw | e] s']; simpl in Hs; subst s'; [| reflexivity].
      destruct (apply_mood L (wav_samples raw) (wav_sr raw) (mood req) (intensity req));
        reflexivity.
    + intros _. split.
      * intro Hn. destruct (get_voice (voice_id req) b); [| eexists; reflexivity].
        rewrite Hn. eexists. reflexivity.
      * intros [d H].
        destruct (get_reference_path (voice_id req) b) as [p |] eqn:P; [| reflexivity].
        exfalso. destruct (get_reference_path_voice _ _ _ P) as [v V]. rewrite V in H.
        destruct (generate L tts_to_file run_espeak env observe s (text req) p (language req))
          as [[raw | e] s']; [| discriminate].
        destruct (apply_mood L (wav_samples raw) (wav_sr raw) (mood req) (intensity req));
          discriminate.
    + intros p _ P. destruct (get_reference_path_voice _ _ _ P) as [v V]. rewrite V, P.
      destruct (generate L tts_to_file run_espeak env observe s (text req) p (language req))
        as [[raw | e] s']; cbn [fst]; [| reflexivity].
      destruct (apply_mood L (wav_samples raw) (wav_sr raw) (mood req) (intensity req));
        reflexivity.
  - split; [| split; [| split]].
    + split; [intros _; eexists; reflexivity | reflexivity].
    + reflexivity.
    + discriminate.
    + discriminate.
Qed.

Lemma _generate_espeak_inv (text language : string) (raw : wav) :
  _generate_espeak L run_espeak text language = Ok raw ->
  espeak_buffer L run_espeak text language <> [] /\
  raw = mk_wav (scale_to_peak 0.85 (peak_of (espeak_buffer L run_espeak text language))
                              (espeak_buffer L run_espeak text language))
               44100 PCM_16.
Proof.
  unfold _generate_espeak. fold (espeak_voice language).
  destruct (negb (Z.eqb (returncode (run_espeak (espeak_voice language) text)) 0));
    [discriminate |].
  fold (espeak_buffer L run_espeak text language).
  destruct (np_max_abs (espeak_buffer L run_espeak text language)) as [peak |] eqn:E;
    [| discriminate].
  apply np_max_abs_Ok in E. destruct E as [Hne ->].
  intro H. injection H as <-. split; [exact Hne | reflexivity].
Qed.

Lemma apply_mood_format (y : list R) (sr : Z) (mood : string) (i : Z) (out : wav) :
  apply_mood L y sr mood i = Ok out -> wav_sr out = 44100%Z /\ wav_subtype out = PCM_16.
Proof. unfold apply_mood. apply finish_format. Qed.

(** X25.  With the fallback backend selected, a synthesis request for a
    known voice either fails with 500 because espeak-ng failed, or returns
    a 44100 Hz 16-bit PCM file, whether or not the mood chain succeeded.
    When the mood has no effect ("normal", an unknown name, or intensity 1)
    the file returned is the one [_generate_espeak] wrote, with peak at
    most 0.85: the chain leaves it untouched. *)
Theorem fallback_request_returns_normalized_audio
    (env : load_env) (observe : nat -> engine) (s : engine) (b : bank)
    (req : GenerateRequest) (ref_path : string) :
  _status s = ready ->
  _backend s = Some espeak ->
  get_reference_path (voice_id req) b = Some ref_path ->
  match fst (generate_tts L tts_to_file run_espeak env observe s b req) with
  | Return out =>
      wav_sr out = 44100%Z /\
      wav_subtype out = PCM_16 /\
      (resolve_mood (mood req) = "normal"%string \/ (intensity req <= 1)%Z ->
       _generate_espeak L run_espeak (text req) (language req) = Ok out /\
       peak_of (wav_samples out) <= 0.85)
  | HTTPException code _ =>
      code = 500%Z /\
      exists e, _generate_espeak L run_espeak (text req) (language req) = Raise e
  end.
Proof.
  intros HS HB P.
  destruct (get_reference_path_voice _ _ _ P) as [v V].
  unfold generate_tts.
  assert (R : is_ready s = true) by (apply is_ready_status; exact HS).
  rewrite R, V, P. cbn [negb].
  unfold generate. rewrite (ensure_ready_ready env observe s HS), HB.
  destruct (_generate_espeak L run_espeak (text req) (language req)) as [raw | e] eqn:G.
  - pose proof (_generate_espeak_inv _ _ _ G) as [Hne Eraw].
    set (buf := espeak_buffer L run_espeak (text req) (language req)) in *.
    assert (Hpk : peak_of (wav_samples raw) <= 0.85).
    { rewrite Eraw. cbn [wav_samples]. rewrite scale_to_peak_peak by lra.
      destruct (Rlt_dec 0 (peak_of buf)); lra. }
    assert (Hne' : wav_samples raw <> []).
    { rewrite Eraw. cbn [wav_samples]. apply scale_to_peak_nonempty. exact Hne. }
    destruct (apply_mood L (wav_samples raw) (wav_sr raw) (mood req) (intensity req))
      as [out | e] eqn:A; cbn [fst].
    + destruct (apply_mood_format _ _ _ _ _ A) as [H1 H2].
      split; [exact H1 |]. split; [exact H2 |].
      intro Hno. rewrite (apply_mood_without_effect L _ _ _ _ Hno) in A.
      rewrite Eraw in A. cbn [wav_sr wav_samples] in A.
      rewrite finish_quiet in A.
      * injection A as <-. split; [rewrite Eraw; reflexivity |].
        rewrite Eraw in Hpk. exact Hpk.
      * rewrite Eraw in Hne'. exact Hne'.
      * rewrite Eraw in Hpk. cbn [wav_samples] in Hpk. lra.
    + split; [rewrite Eraw; reflexivity |]. split; [rewrite Eraw; reflexivity |].
      intros _. split; [reflexivity | exact Hpk].
  - cbn [fst]. split; [reflexivity |]. exists e. reflexivity.
Qed.

(** X26.  [clone_voice] rejects a file type outside the five allowed ones
    with 400 and audio that cannot be decoded or normalised (an empty
    recording included) with 422, and stores nothing in either case.
    Otherwise it stores a 44100 Hz 16-bit PCM reference whose peak is at
    most 0.9 and registers a voice with the fresh id, the stripped name
    and description, the reference file "data/references/<id>.wav" and a
    gender that is "female", "male" or "unknown" ("unknown" whenever
    detection is switched off). *)
Theorem clone_voice_outcomes
    (strip : string -> string) (pyin : wav -> result (list frame))
    (ext : string) (upload : result (list R * Z))
    (name language description : string) (detect_gender_flag : bool)
    (vid now : string) (b : bank) :
  let r := clone_voice L strip pyin ext upload name language description
             detect_gender_flag vid now true b in
  (~ In ext ALLOWED_EXTENSIONS ->
     r = (HTTPException 400 (Text ("Unsupported file type: " ++ ext)), b, None)) /\
  (In ext ALLOWED_EXTENSIONS ->
   match upload with
   | Raise e =>
       r = (HTTPException 422 (TextExn "Audio processing failed: " e), b, None)
   | Ok (y, sr) =>
       match normalize_wav L y sr with
       | Raise e =>
           r = (HTTPException 422 (TextExn "Audio processing failed: " e), b, None)
       | Ok stored =>
           exists voice : voice,
             r = (Return voice, snd (fst r), Some stored) /\
             wav_sr stored = 44100%Z /\ wav_subtype stored = PCM_16 /\
             peak_of (wav_samples stored) <= 0.9 /\
             v_id voice = vid /\
             v_name voice = strip name /\
             v_description voice = strip description /\
             v_language voice = language /\
             v_reference_file voice = ("data/references/" ++ vid ++ ".wav")%string /\
             In (v_gender voice) ["female"; "male"; "unknown"]%string /\
             (detect_gender_flag = false -> v_gender voice = "unknown"%string) /\
             _load (snd (fst r)) = _load b ++ [voice] /\
             file_exists (snd (fst r)) (v_reference_file voice) = true
       end
   end).
Proof.
  intro r. unfold r, clone_voice. split.
  - intro Hout.
    destruct (existsb (String.eqb ext) ALLOWED_EXTENSIONS) eqn:E; [| reflexivity].
    exfalso. apply Hout. apply existsb_exists in E. destruct E as (x & Hin & Ex).
    apply String.eqb_eq in Ex. subst x. exact Hin.
  - intro Hin.
    assert (E : existsb (String.eqb ext) ALLOWED_EXTENSIONS = true).
    { apply existsb_exists. exists ext. split; [exact Hin | apply String.eqb_refl]. }
    rewrite E. cbn [negb].
    destruct upload as [[y sr] | e]; [| reflexivity].
    destruct (normalize_wav L y sr) as [stored | e] eqn:N; [| reflexivity].
    unfold add_voice. cbn [fst snd].
    eexists. split; [reflexivity |].
    pose proof (normalize_wav_inv L y sr stored N) as Hinv. cbv zeta in Hinv.
    destruct Hinv as [Hne Es].
    split; [rewrite Es; reflexivity |]. split; [rewrite Es; reflexivity |].
    split.
    { rewrite Es. cbn [wav_samples]. rewrite scale_to_peak_peak by lra.
      destruct (Rlt_dec 0 _); lra. }
    cbn [v_id v_name v_description v_language v_reference_file v_gender].
    split; [reflexivity |]. split; [reflexivity |]. split; [reflexivity |].
    split; [reflexivity |]. split; [reflexivity |]. split.
    { destruct detect_gender_flag; [| simpl; auto].
      unfold detect_gender. destruct (pyin stored) as [frames | e0]; [| simpl; auto].
      destruct (voiced_f0 frames) as [| x v]; [simpl; auto |].
      destruct (Rle_dec 165 (nanmedian (x :: v))); simpl; auto. }
    split; [intros ->; reflexivity |].
    split; [reflexivity |].
    unfold _save, file_exists. cbn [files existsb].
    change (REFERENCES_DIR ++ "/" ++ vid ++ ".wav")%string
      with ("data/references/" ++ vid ++ ".wav")%string.
    rewrite String.eqb_refl. reflexivity.
Qed.

End Handlers.

Lemma generate_tts_outcomes_witness :
  model_ready (get_status init) = false /\
  exists d,
    fst (generate_tts interp_librosa (fun _ _ _ _ => Raise ValueError)
           (fun _ _ => mk_espeak_run 0 "" [] 22050)
           (mk_load_env (LoadFailed "x") false) (fun _ => init) init
           (mk_bank (Voices []) [])
           (mk_GenerateRequest "ola" "id-1" "pt" "normal" 3))
    = HTTPException 503 d.
Proof.
  split; [reflexivity |].
  apply (proj1 (proj1 (generate_tts_outcomes
                         interp_librosa (fun _ _ _ _ => Raise ValueError)
                         (fun _ _ => mk_espeak_run 0 "" [] 22050)
                         (mk_load_env (LoadFailed "x") false) (fun _ => init) init
                         (mk_bank (Voices []) [])
                         (mk_GenerateRequest "ola" "id-1" "pt" "normal" 3)))).
  reflexivity.
Defined.

Lemma fallback_request_returns_normalized_audio_witness :
  _status (mk_engine None ready (Some "no weights"%string) (Some espeak)) = ready /\
  _backend (mk_engine None ready (Some "no weights"%string) (Some espeak)) = Some espeak /\
  get_reference_path "id-1"
    (mk_bank (Voices [mk_voice "id-1" "Ana" "female" "pt" "" "r/1.wav" "t1"])
             ["r/1.wav"%string]) = Some "r/1.wav"%string /\
  match fst (generate_tts interp_librosa (fun _ _ _ _ => Raise ValueError)
               (fun _ _ => mk_espeak_run 0 "" [0.5; -0.25] 44100)
               (mk_load_env (LoadFailed "x") false) (fun _ => init)
               (mk_engine None ready (Some "no weights"%string) (Some espeak))
               (mk_bank (Voices [mk_voice "id-1" "Ana" "female" "pt" "" "r/1.wav" "t1"])
                        ["r/1.wav"%string])
               (mk_GenerateRequest "ola" "id-1" "pt" "normal" 3)) with
  | Return out => wav_sr out = 44100%Z
  | HTTPException code _ => code = 500%Z
  end.
Proof.
  split; [reflexivity |]. split; [reflexivity |]. split; [reflexivity |].
  pose proof (fallback_request_returns_normalized_audio
                interp_librosa (fun _ _ _ _ => Raise ValueError)
                (fun _ _ => mk_espeak_run 0 "" [0.5; -0.25] 44100)
                (mk_load_env (LoadFailed "x") false) (fun _ => init)
                (mk_engine None ready (Some "no weights"%string) (Some espeak))
                (mk_bank (Voices [mk_voice "id-1" "Ana" "female" "pt" "" "r/1.wav" "t1"])
                         ["r/1.wav"%string])
                (mk_GenerateRequest "ola" "id-1" "pt" "normal" 3)
                "r/1.wav" eq_refl eq_refl eq_refl) as H.
  destruct (fst (generate_tts _ _ _ _ _ _ _ _)) as [out | code d].
  - exact (proj1 H).
  - exact (proj1 H).
Defined.

Lemma clone_voice_outcomes_witness :
  ~ In ".txt"%string ALLOWED_EXTENSIONS /\
  clone_voice interp_librosa (fun x => x) (fun _ => Raise ValueError)
    ".txt" (Ok ([0.5], 44100%Z)) "Ana" "pt" "" true "id-1" "t1" true
    (mk_bank (Voices []) [])
  = (HTTPException 400 (Text ("Unsupported file type: " ++ ".txt")),
     mk_bank (Voices []) [], None).
Proof.
  assert (H : ~ In ".txt"%string ALLOWED_EXTENSIONS).
  { intros [H | [H | [H | [H | [H | []]]]]]; discriminate. }
  split; [exact H |].
  exact (proj1 (clone_voice_outcomes interp_librosa (fun x => x)
                  (fun _ => Raise ValueError) ".txt" (Ok ([0.5], 44100%Z))
                  "Ana" "pt" "" true "id-1" "t1" (mk_bank (Voices []) [])) H).
Defined.

End MainFacts.
